(** * nara: the template generator [stage.py] and the sprite compositor
      [scripts/composite_spritesheet.py]

    A shallow embedding of the two scripts and the properties of their
    outputs.

    Definitions
    - [Py]          the pieces of the Python runtime that the scripts call:
                    exceptions, a state-and-exception monad with [for]
                    loops, [str(int)], [str.upper], [str.join], true
                    division, [int()] on floats, [os.path.join].
    - [Random]      the [random] module over the sequence of raw draws still
                    to come: [randint], [choice], [random], [sample].
    - [Stage]       [stage.py]: word banks, presets, region generators, the
                    document assembler, batch generation and the CLI.
    - [Sprites]     [composite_spritesheet.py] over a model of Pillow images
                    and of the sprite directory.
    - [StageSpec], [SpritesSpec], [StageDetail], [SpritesDetail]
                    the vocabulary of the properties, and sample inputs.
    - [StageOS]     [stage.py] on an operating system: the calls that
                    [Stage] lists are made, and each can be refused.
    - [SpritesOS]   the compositor on an operating system: a file can be
                    one that Pillow does not open, a save can be refused.

    Theorems
    - [Rules]       the rules of the monad and of each [random] primitive.
    - [StageFacts]  what each generator returns.
    - [StageProps]  the properties of the generated documents and of the CLI.
    - [SpritesProps] the properties of the sprite sheets.
    - [StageMore]   the fields of each region, the envelope, the batch and
                    the command line, stated over [StageDetail].
    - [SpritesMore] the pixels of a frame and of a sheet, and the failure
                    of a run, stated over [SpritesDetail].
    - [StageOSProps], [SpritesOSProps]
                    the runs on an operating system: when they return,
                    what they leave behind, and which errors end them.

    Floats are binary64, so [random.random() > 0.4] and
    [int(img.width * scale)] evaluate exactly as in CPython. *)

From Stdlib Require Import ZArith NArith List String Ascii Bool Lia.
From Stdlib Require Import Permutation DecimalString DecimalPos DecimalZ.
From Stdlib Require Import Floats Uint63.
Import ListNotations.

#[local] Set Warnings "-inexact-float,-register-all".
#[local] Open Scope string_scope.
#[local] Open Scope Z_scope.

(* ===================================================================== *)
(** * Python runtime *)
(* ===================================================================== *)

Module Py.

(** The exceptions that the modelled calls can raise: Python's built-in
    ones, the errors of the operating system, and Pillow's two for a file
    that it does not open.  [Unfinished] is no exception of Python: it is
    the outcome of a loop without a bound of its own that the model cuts
    off (see [Random.sample]). *)
Inductive Exn :=
| IndexError
| ValueError
| ZeroDivisionError
| OverflowError
| FileNotFoundError
| FileExistsError
| NotADirectoryError
| IsADirectoryError
| PermissionError
| OSError
| UnidentifiedImageError
| DecompressionBombError
| Unfinished.

Inductive Result (A : Type) :=
| Ok (a : A)
| Raise (e : Exn).
Arguments Ok {A} a.
Arguments Raise {A} e.

(** A computation over a state [S] that returns or raises. *)
Definition M (S A : Type) : Type := S -> Result (A * S).

Definition ret {S A} (a : A) : M S A := fun s => Ok (a, s).

Definition bind {S A B} (m : M S A) (f : A -> M S B) : M S B :=
  fun s => match m s with
           | Ok (a, s') => f a s'
           | Raise e => Raise e
           end.

Definition throw {S A} (e : Exn) : M S A := fun _ => Raise e.

Definition lift {S A} (r : Result A) : M S A :=
  fun s => match r with Ok a => Ok (a, s) | Raise e => Raise e end.

Declare Scope py_scope.
Delimit Scope py_scope with py.
Notation "x <- m ;; k" := (bind m (fun x => k))
  (at level 61, m at next level, right associativity) : py_scope.
Notation "m ;;; k" := (bind m (fun _ => k))
  (at level 61, right associativity) : py_scope.
#[local] Open Scope py_scope.

(** [for x in xs: body], threading the variables that the body updates. *)
Fixpoint for_each {S A V} (xs : list A) (body : A -> V -> M S V) (v : V)
  : M S V :=
  match xs with
  | [] => ret v
  | x :: xs' => v' <- body x v ;; for_each xs' body v'
  end.

(** [hoare P m Q]: from every state satisfying [P], [m] returns, and the
    value and final state satisfy [Q]; it does not raise. *)
Definition hoare {S A} (P : S -> Prop) (m : M S A) (Q : A -> S -> Prop)
  : Prop :=
  forall s, P s -> exists a s', m s = Ok (a, s') /\ Q a s'.

(** [enumerate(xs)] *)
Definition enumerate {A} (xs : list A) : list (Z * A) :=
  combine (map Z.of_nat (seq 0 (List.length xs))) xs.

(** [str(n)] for an int, as an f-string interpolates it. *)
Definition str (z : Z) : string := NilZero.string_of_int (Z.to_int z).

(** [c.upper()] on one character.  The word banks are plain ASCII; other
    bytes are left alone. *)
Definition upper_ascii (c : ascii) : ascii :=
  let n := nat_of_ascii c in
  if ((97 <=? n) && (n <=? 122))%nat then ascii_of_nat (n - 32) else c.

Fixpoint upper (s : string) : string :=
  match s with
  | EmptyString => EmptyString
  | String c s' => String (upper_ascii c) (upper s')
  end.

(** [sep.join(words)] *)
Definition join (sep : string) (words : list string) : string :=
  String.concat sep words.

(** [s.startswith(p)] *)
Definition startswith (s p : string) : bool := String.prefix p s.

(** [range(n)] *)
Definition range (n : Z) : list Z := map Z.of_nat (seq 0 (Z.to_nat n)).

(** An int as a float (exact below 2^53, which covers every use here). *)
Definition float_of_int (z : Z) : float := PrimFloat.of_uint63 (Uint63.of_Z z).

(** [a / b] on ints: true division. *)
Definition truediv (a b : Z) : Result float :=
  if b =? 0 then Raise ZeroDivisionError
  else Ok (PrimFloat.div (float_of_int a) (float_of_int b)).

(** [int(x)] on a float: truncation towards zero. *)
Definition int_of_float (x : float) : Result Z :=
  match Prim2SF x with
  | S754_zero _ => Ok 0
  | S754_finite s m e =>
      let a := match e with
               | Z0 => Zpos m
               | Zpos p => Zpos m * 2 ^ Zpos p
               | Zneg p => Zpos m / 2 ^ Zpos p
               end in
      Ok (if s then - a else a)
  | S754_infinity _ => Raise OverflowError
  | S754_nan => Raise ValueError
  end.

(** [min(x, y)] on floats: [y if y < x else x]. *)
Definition fmin (x y : float) : float := if PrimFloat.ltb y x then y else x.

(** [os.path.join(a, b)] on POSIX paths. *)
Definition path_join (a b : string) : string :=
  if String.prefix "/" b then b
  else if (String.eqb a "") then b
  else if String.eqb (substring (String.length a - 1) 1 a) "/" then a ++ b
  else a ++ "/" ++ b.

End Py.

(* ===================================================================== *)
(** * The [random] module *)
(* ===================================================================== *)

Module Random.
Import Py.
#[local] Open Scope py_scope.

(** The generator's state is the sequence of raw draws it has yet to
    produce.  Quantifying over every such sequence covers every run. *)
Definition Rng := nat -> N.

Definition Rand (A : Type) : Type := M Rng A.

(** One raw draw. *)
Definition draw : Rand N := fun g => Ok (g 0%nat, fun i => g (S i)).

(** [random._randbelow(n)]: an int in [0, n). *)
Definition randbelow (n : Z) : Rand Z :=
  r <- draw ;; ret (Z.of_N r mod n).

(** [random.randint(a, b)]: an int in [a, b]; empty range is a ValueError. *)
Definition randint (a b : Z) : Rand Z :=
  if b <? a then throw ValueError
  else (k <- randbelow (b - a + 1) ;; ret (a + k)).

(** [random.choice(seq)]: IndexError on an empty sequence. *)
Definition choice {A} (l : list A) : Rand A :=
  match l with
  | [] => throw IndexError
  | x :: _ => k <- randbelow (Z.of_nat (List.length l)) ;;
              ret (nth (Z.to_nat k) l x)
  end.

(** [random.random()]: a float k / 2^53 with 0 <= k < 2^53. *)
Definition random : Rand float :=
  k <- randbelow (2 ^ 53) ;;
  ret (PrimFloat.mul (float_of_int k) 0x1p-53%float).

(** [pool[j] = v] *)
Fixpoint list_set {A} (l : list A) (j : nat) (v : A) : list A :=
  match l, j with
  | [], _ => []
  | _ :: t, O => v :: t
  | h :: t, S j' => h :: list_set t j' v
  end.

(** The selection loop of [random.sample]: the pool holds the elements
    not yet chosen in its first [n - i] cells.
<<
    for i in range(k):
        j = randbelow(n - i)
        result[i] = pool[j]
        pool[j] = pool[n - i - 1]
>> *)
Fixpoint sample_loop {A} (k : nat) (pool : list A) (result : list A)
  : Rand (list A) :=
  match k with
  | O => ret result
  | S k' =>
      match pool with
      | [] => throw IndexError
      | x :: _ =>
          j <- randbelow (Z.of_nat (List.length pool)) ;;
          let picked := nth (Z.to_nat j) pool x in
          let pool' := removelast (list_set pool (Z.to_nat j) (last pool x)) in
          sample_loop k' pool' (result ++ [picked])
      end
  end.

(** [setsize] of [random.sample]: 21, and for k > 5 the table of a set of
    k elements on top, [4 ** ceil(log(k * 3, 4))].  CPython computes the
    logarithm in floats; [k * 3] is never a power of 4, and for the sizes
    of this program (k <= 73) the rounded logarithm has the exact ceiling. *)
Definition setsize (k : Z) : Z :=
  21 + (if 5 <? k then 4 ^ ((Z.log2_up (k * 3) + 1) / 2) else 0).

(** The inner loop of the selection by rejection:
<<
    j = randbelow(n)
    while j in selected:
        j = randbelow(n)
>>
    The loop has no bound: it ends at the first draw that is not selected
    yet.  The model follows it for [patience] rejected draws and reports a
    longer run of rejections as [Unfinished]. *)
Fixpoint fresh_index (patience : nat) (n : Z) (selected : list Z) : Rand Z :=
  j <- randbelow n ;;
  if existsb (Z.eqb j) selected then
    match patience with
    | O => throw Unfinished
    | S patience' => fresh_index patience' n selected
    end
  else ret j.

Definition PATIENCE : nat := 1000.

(** The selection by rejection of [random.sample]:
<<
    selected = set()
    for i in range(k):
        j = randbelow(n)
        while j in selected:
            j = randbelow(n)
        selected_add(j)
        result[i] = population[j]
>> *)
Definition sample_by_rejection {A} (k : Z) (population : list A)
  : Rand (list A) :=
  let n := Z.of_nat (List.length population) in
  r <- for_each (range k)
         (fun _ '(selected, result) =>
            j <- fresh_index PATIENCE n selected ;;
            match nth_error population (Z.to_nat j) with
            | Some x => ret (j :: selected, (result ++ [x])%list)
            | None => throw IndexError
            end)
         ([], []) ;;
  ret (snd r).

(** [random.sample(population, k)]: a sample outside [0, n] is a
    ValueError; CPython then selects from a pool when the population is
    small for the sample ([n <= setsize]; 73 words for 6 or more of them
    are), and by rejection of repeated indices otherwise (73 words for 5
    or fewer). *)
Definition sample {A} (population : list A) (k : Z) : Rand (list A) :=
  let n := Z.of_nat (List.length population) in
  if (k <? 0) || (n <? k) then throw ValueError
  else if n <=? setsize k then sample_loop (Z.to_nat k) population []
  else sample_by_rejection k population.

(** ** Total correctness *)

(** [total m Q]: from every generator state, [m] returns a value that
    satisfies [Q]; it does not raise. *)
Definition total {A} (m : Rand A) (Q : A -> Prop) : Prop :=
  hoare (fun _ => True) m (fun a _ => Q a).

End Random.

(* ===================================================================== *)
(** * stage.py *)
(* ===================================================================== *)

Module Stage.
Import Py Random.
#[local] Open Scope py_scope.

(** ** Word banks, presets, image pool *)

Definition ADJECTIVES : list string :=
  [ "quantum"; "neural"; "cosmic"; "synthetic"; "ethereal"; "digital";
    "organic"; "crystalline"; "ambient"; "fractal"; "temporal"; "spatial";
    "kinetic"; "radiant"; "sublime"; "arcane"; "prismatic"; "infinite" ].

Definition NOUNS : list string :=
  [ "matrix"; "topology"; "manifold"; "field"; "lattice"; "network";
    "system"; "architecture"; "framework"; "structure"; "membrane"; "grid";
    "interface"; "protocol"; "substrate"; "apparatus"; "mechanism"; "circuit" ].

Definition VERBS : list string :=
  [ "transform"; "synthesize"; "modulate"; "cascade"; "oscillate"; "resonate";
    "propagate"; "converge"; "emerge"; "iterate"; "evolve"; "compose";
    "distribute"; "aggregate"; "encode"; "decode"; "transmit"; "reflect" ].

Definition TECH_WORDS : list string :=
  [ "algorithm"; "protocol"; "bandwidth"; "latency"; "throughput"; "entropy";
    "coherence"; "interference"; "resonance"; "coupling"; "gradient"; "flux";
    "tensor"; "vector"; "scalar"; "eigen"; "fourier"; "laplace"; "kernel" ].

Record Spacing := {
  titleAboveImage : Z;
  captionBelowImage : Z;
  sidebarFromImage : Z;
  footerBelowCaption : Z
}.

Record Preset := {
  preset_name : string;
  imageWidth : Z;
  spacing : Spacing
}.

Definition LAYOUT_PRESETS : list Preset :=
  [ {| preset_name := "poster"; imageWidth := 40;
       spacing := {| titleAboveImage := 2; captionBelowImage := 2;
                     sidebarFromImage := 4; footerBelowCaption := 3 |} |};
    {| preset_name := "card"; imageWidth := 30;
       spacing := {| titleAboveImage := 1; captionBelowImage := 1;
                     sidebarFromImage := 2; footerBelowCaption := 2 |} |};
    {| preset_name := "banner"; imageWidth := 80;
       spacing := {| titleAboveImage := 1; captionBelowImage := 1;
                     sidebarFromImage := 3; footerBelowCaption := 2 |} |};
    {| preset_name := "postcard"; imageWidth := 35;
       spacing := {| titleAboveImage := 2; captionBelowImage := 2;
                     sidebarFromImage := 3; footerBelowCaption := 2 |} |} ].

Definition IMAGE_URLS : list string :=
  [ "https://picsum.photos/400/300";
    "https://picsum.photos/500/400";
    "https://picsum.photos/600/400";
    "https://source.unsplash.com/random/400x300";
    "https://source.unsplash.com/random/500x400" ].

(** ** Documents *)

Record Position := { pos_x : string; pos_y : string }.

(** The shapes of the ["content"] object that the generators build. *)
Inductive Content :=
| Static (static : string)
| StaticTransform (static : string) (transform : option string)
| Generator (generator : string) (wordCount : Z)
| GeneratorAffix (generator : string) (wordCount : Z) (prefix suffix : string)
| Repeat (repeat : string) (count : Z).

Record Layout := {
  alignment : option string;
  wrap : option bool;
  width : Z
}.

(** A region object; a key the generator leaves out is [None]. *)
Inductive Region := mkRegion {
  region_id : string;
  region_type : string;
  region_position : Position;
  region_content : option Content;
  region_layout : option Layout;
  region_source : option string;
  region_components : option (list Region)
}.

Record Param := {
  param_type : string;
  param_default : option string;
  param_description : string
}.

Record TextGenerator := {
  tg_name : string;
  dictionary : list string
}.

Record Storage := {
  storage_text : string;
  storage_images : string;
  ephemeral : bool;
  clearKey : string
}.

(** The ["layout"] object of a document. *)
Record DocLayout := {
  layout_imageWidth : Z;
  layout_spacing : Spacing
}.

Record Template := {
  doc_version : string;
  doc_type : string;
  doc_name : string;
  doc_description : string;
  doc_parameters : list (string * Param);
  doc_layout : DocLayout;
  doc_regions : list Region;
  doc_textGenerator : TextGenerator;
  doc_storage : Storage
}.

(** ** Generators *)

(** The loop body of [random_title]: a coin picks the bank of the word. *)
Definition random_title_word (words : list string) : Rand (list string) :=
  coin <- choice [true; false] ;;
  w <- (if coin : bool then choice ADJECTIVES else choice NOUNS) ;;
  ret (words ++ [w])%list.

Definition random_title (word_count : Z) : Rand string :=
  words <- for_each (range word_count) (fun _ => random_title_word) [] ;;
  ret (upper (join " " words)).

Definition random_dictionary (size : Z) : Rand (list string) :=
  let all_words := (ADJECTIVES ++ NOUNS ++ VERBS ++ TECH_WORDS)%list in
  sample all_words (Z.min size (Z.of_nat (List.length all_words))).

Definition generate_title_region (layout : Preset) : Rand Region :=
  n <- randint 1 3 ;;
  title <- random_title n ;;
  r <- random ;;
  align <- choice ["center"; "left"] ;;
  ret {| region_id := "title";
         region_type := "text";
         region_position :=
           {| pos_x := "startX";
              pos_y := "startY - " ++ str (titleAboveImage (spacing layout)) |};
         region_content :=
           Some (StaticTransform title
                   (if PrimFloat.ltb 0.3 r then Some "uppercase" else None));
         region_layout :=
           Some {| alignment := Some align; wrap := None;
                   width := imageWidth layout |};
         region_source := None;
         region_components := None |}.

Definition generate_image_region : Region :=
  {| region_id := "main-image";
     region_type := "image";
     region_position := {| pos_x := "startX"; pos_y := "startY" |};
     region_content := None;
     region_layout := None;
     region_source := Some "imageUrl";
     region_components := None |}.

Definition generate_caption_region (layout : Preset) : Rand Region :=
  wc <- randint 8 20 ;;
  ret {| region_id := "caption";
         region_type := "text";
         region_position :=
           {| pos_x := "startX";
              pos_y := "startY + imageHeight + "
                       ++ str (captionBelowImage (spacing layout)) |};
         region_content := Some (Generator "bogus" wc);
         region_layout :=
           Some {| alignment := None; wrap := Some true;
                   width := imageWidth layout |};
         region_source := None;
         region_components := None |}.

Definition generate_sidebar_region (layout : Preset) : Rand Region :=
  sidebar_width <- randint 25 35 ;;
  header <- choice ["NOTES"; "META"; "INFO"; "DATA"; "CONTEXT"] ;;
  wc <- randint 15 40 ;;
  ret {| region_id := "sidebar";
         region_type := "composite";
         region_position :=
           {| pos_x := "startX + imageWidth + "
                       ++ str (sidebarFromImage (spacing layout));
              pos_y := "startY" |};
         region_content := None;
         region_layout := None;
         region_source := None;
         region_components := Some
           [ {| region_id := "sidebar-header";
                region_type := "text";
                region_position :=
                  {| pos_x := "sidebarX"; pos_y := "sidebarStartY" |};
                region_content := Some (Static header);
                region_layout := None;
                region_source := None;
                region_components := None |};
             {| region_id := "sidebar-divider";
                region_type := "text";
                region_position :=
                  {| pos_x := "sidebarX"; pos_y := "sidebarStartY + 1" |};
                region_content := Some (Repeat "─" sidebar_width);
                region_layout := None;
                region_source := None;
                region_components := None |};
             {| region_id := "sidebar-body";
                region_type := "text";
                region_position :=
                  {| pos_x := "sidebarX"; pos_y := "sidebarStartY + 2" |};
                region_content := Some (Generator "bogus" wc);
                region_layout :=
                  Some {| alignment := None; wrap := Some true;
                          width := sidebar_width |};
                region_source := None;
                region_components := None |} ] |}.

Definition generate_footer_region (layout : Preset) : Rand Region :=
  wc <- randint 1 3 ;;
  ret {| region_id := "footer";
         region_type := "text";
         region_position :=
           {| pos_x := "startX";
              pos_y := "startY + imageHeight + "
                       ++ str (captionBelowImage (spacing layout)
                               + footerBelowCaption (spacing layout) + 2) |};
         region_content := Some (GeneratorAffix "bogus" wc "— " " —");
         region_layout :=
           Some {| alignment := Some "center"; wrap := None;
                   width := imageWidth layout |};
         region_source := None;
         region_components := None |}.

Definition generate_label_region : Rand Region :=
  offset_x <- randint 0 20 ;;
  offset_y <- randint (-10) 30 ;;
  n <- randint 1000 9999 ;;
  title <- random_title 1 ;;
  ret {| region_id := "label-" ++ str n;
         region_type := "text";
         region_position :=
           {| pos_x := "startX + " ++ str offset_x;
              pos_y := "startY + " ++ str offset_y |};
         region_content := Some (Static title);
         region_layout := None;
         region_source := None;
         region_components := None |}.

(** The layout selection of [generate_nara_template]:
<<
    if layout_preset is None:
        layout = random.choice(LAYOUT_PRESETS)
    else:
        layout = next((l for l in LAYOUT_PRESETS
                       if l["name"] == layout_preset), LAYOUT_PRESETS[0])
>> *)
Definition select_layout (layout_preset : option string) : Rand Preset :=
  match layout_preset with
  | None => choice LAYOUT_PRESETS
  | Some p =>
      match LAYOUT_PRESETS with
      | [] => throw IndexError
      | first :: _ =>
          ret (match find (fun l => String.eqb (preset_name l) p)
                          LAYOUT_PRESETS with
               | Some l => l
               | None => first
               end)
      end
  end.

Definition generate_nara_template
  (name : option string)
  (include_sidebar include_footer include_labels : option bool)
  (layout_preset : option string) : Rand Template :=
  (* Random defaults *)
  name <- match name with
          | None => a <- choice ADJECTIVES ;;
                    n <- choice NOUNS ;;
                    ret (a ++ "-" ++ n)
          | Some s => ret s
          end ;;
  include_sidebar <- match include_sidebar with
                     | None => r <- random ;; ret (PrimFloat.ltb 0.4 r)
                     | Some b => ret b
                     end ;;
  include_footer <- match include_footer with
                    | None => r <- random ;; ret (PrimFloat.ltb 0.5 r)
                    | Some b => ret b
                    end ;;
  num_labels <- match include_labels with
                | None => randint 0 3
                | Some b => if b : bool then randint 1 3 else ret 0
                end ;;
  layout <- select_layout layout_preset ;;
  (* Build regions: always title and image *)
  title <- generate_title_region layout ;;
  let regions := [title; generate_image_region] in
  (* Caption is common *)
  r <- random ;;
  regions <- (if PrimFloat.ltb 0.2 r
              then c <- generate_caption_region layout ;;
                   ret (regions ++ [c])%list
              else ret regions) ;;
  (* Optional sidebar *)
  regions <- (if include_sidebar : bool
              then s <- generate_sidebar_region layout ;;
                   ret (regions ++ [s])%list
              else ret regions) ;;
  (* Optional footer *)
  regions <- (if include_footer : bool
              then f <- generate_footer_region layout ;;
                   ret (regions ++ [f])%list
              else ret regions) ;;
  (* Optional floating labels *)
  regions <- for_each (range num_labels)
               (fun _ regions => l <- generate_label_region ;;
                                 ret (regions ++ [l])%list)
               regions ;;
  (* Build template *)
  url <- choice IMAGE_URLS ;;
  size <- randint 15 25 ;;
  dict <- random_dictionary size ;;
  text <- choice ["worldData"; "lightModeData"] ;;
  eph <- choice [true; false] ;;
  ret {| doc_version := "1.0.0";
         doc_type := "stage";
         doc_name := name;
         doc_description :=
           "Procedurally generated " ++ preset_name layout ++ " template";
         doc_parameters :=
           [ ("imageUrl",
              {| param_type := "string";
                 param_default := Some url;
                 param_description := "URL of the image to display" |});
             ("cursorPos",
              {| param_type := "point";
                 param_default := None;
                 param_description :=
                   "Position where the stage will be rendered" |}) ];
         doc_layout :=
           {| layout_imageWidth := imageWidth layout;
              layout_spacing := spacing layout |};
         doc_regions := regions;
         doc_textGenerator := {| tg_name := "bogus"; dictionary := dict |};
         doc_storage :=
           {| storage_text := text;
              storage_images := "stagedImageData";
              ephemeral := eph;
              clearKey := "Escape" |} |}.

(** ** Batch generation and the CLI *)

(** The calls that a run makes to the outside world, in order.  The JSON
    text of a document is determined by the document, which stands for it
    here.  [generate_batch] and [main] below list the calls of a run in
    which none is refused; since the script never looks at the result of
    a call, the list does not depend on the file system.  [StageOS] makes
    the calls, and lets the operating system refuse them. *)
Inductive Effect :=
| MakeDirs (path : string)
| WriteJson (path : string) (doc : Template)
| PrintLine (line : string)
| PrintJson (doc : Template).

Definition generate_batch (count : Z) (output_dir : string)
  : Rand (list string * list Effect) :=
  for_each (range count)
    (fun i '(generated, out) =>
       template <- generate_nara_template None None None None None ;;
       let filename := doc_name template ++ "-" ++ str (i + 1) ++ ".nara" in
       let filepath := path_join output_dir filename in
       ret ((generated ++ [filepath])%list,
            (out ++ [WriteJson filepath template;
                     PrintLine ("Generated: " ++ filepath)])%list))
    ([], [MakeDirs output_dir]).

(** The namespace that argparse hands to [main]. *)
Record Args := {
  arg_count : Z;
  arg_name : option string;
  arg_output : string;
  arg_layout : option string;
  arg_sidebar : bool;
  arg_no_sidebar : bool;
  arg_footer : bool;
  arg_no_footer : bool;
  arg_labels : bool;
  arg_stdout : bool
}.

(** Truth value of [args.name]: a non-empty string. *)
Definition truthy (name : option string) : bool :=
  match name with
  | None => false
  | Some s => negb (String.eqb s "")
  end.

Definition main (args : Args) : Rand (list Effect) :=
  let sidebar := if arg_sidebar args then Some true
                 else if arg_no_sidebar args then Some false else None in
  let footer := if arg_footer args then Some true
                else if arg_no_footer args then Some false else None in
  let labels := if arg_labels args then Some (arg_labels args) else None in
  if arg_stdout args then
    template <- generate_nara_template (arg_name args) sidebar footer labels
                  (arg_layout args) ;;
    ret [PrintJson template]
  else if (arg_count args =? 1) && truthy (arg_name args) then
    template <- generate_nara_template (arg_name args) sidebar footer labels
                  (arg_layout args) ;;
    let name := match arg_name args with Some s => s | None => "None" end in
    let filepath := path_join (arg_output args) (name ++ ".nara") in
    ret [MakeDirs (arg_output args);
         WriteJson filepath template;
         PrintLine ("Generated: " ++ filepath)]
  else
    r <- generate_batch (arg_count args) (arg_output args) ;;
    ret (snd r).

End Stage.

(* ===================================================================== *)
(** * scripts/composite_spritesheet.py *)
(* ===================================================================== *)

Module Sprites.
Import Py.
#[local] Open Scope py_scope.

(** ** Pillow images *)

(** An RGBA pixel: four bands in 0..255. *)
Definition Pixel : Type := Z * Z * Z * Z.

(** A decoded RGBA image.  [getpixel] is read inside the bounds only. *)
Record Image := {
  width : Z;
  height : Z;
  getpixel : Z -> Z -> Pixel
}.

Definition size (im : Image) : Z * Z := (width im, height im).

(** The files of the sprite directory (decoded) and the console: a
    directory in which every file is a picture that Pillow opens.
    [SpritesOS.Disk] has the other files too. *)
Record World := {
  files : string -> option Image;
  stdout : list string
}.

Definition IO (A : Type) : Type := M World A.

Definition print (line : string) : IO unit :=
  fun w => Ok (tt, {| files := files w; stdout := stdout w ++ [line] |}).

(** [os.path.exists(path)] *)
Definition path_exists (path : string) : IO bool :=
  fun w => Ok (match files w path with Some _ => true | None => false end, w).

(** [Image.open(path).convert("RGBA")] *)
Definition Image_open (path : string) : IO Image :=
  fun w => match files w path with
           | Some im => Ok (im, w)
           | None => Raise FileNotFoundError
           end.

(** [im.save(path, "PNG")]: RGBA survives the PNG round trip.  The
    directory is taken to exist and to be writable here; [SpritesOS.save]
    can be refused. *)
Definition save (im : Image) (path : string) : IO unit :=
  fun w => Ok (tt, {| files := fun p => if String.eqb p path then Some im
                                        else files w p;
                      stdout := stdout w |}).

(** [Image.new("RGBA", size, color)] *)
Definition Image_new (size : Z * Z) (color : Pixel) : Result Image :=
  if (fst size <? 0) || (snd size <? 0) then Raise ValueError
  else Ok {| width := fst size; height := snd size;
             getpixel := fun _ _ => color |}.

Definition in_box (im : Image) (box : Z * Z) (i j : Z) : bool :=
  (fst box <=? i) && (i <? fst box + width im)
  && (snd box <=? j) && (j <? snd box + height im).

(** ** Configuration *)

Definition SPRITES_DIR : string := "public/sprites".
Definition OUTPUT_DIR : string := "public/sprites".

Definition WALK_FRAME_SIZE : Z * Z := (32, 40).
Definition IDLE_FRAME_SIZE : Z * Z := (32, 40).
Definition WALK_FRAMES_PER_DIR : Z := 8.
Definition IDLE_FRAMES_PER_DIR : Z := 8.

Definition DIRECTIONS : list string :=
  [ "south"; "south-west"; "west"; "north-west";
    "north"; "north-east"; "east"; "south-east" ].

Definition transparent : Pixel := (0, 0, 0, 0).

Section Pillow.

(** The Lanczos resampling kernel and the alpha blend of a masked paste
    are Pillow's own arithmetic; the compositor's logic does not depend
    on them. [lanczos im size i j] is the pixel (i, j) of [im] resampled
    to [size]; [alpha_over m dst src] blends [src] over [dst] under the
    mask pixel [m]. *)
Variable lanczos : Image -> Z * Z -> Z -> Z -> Pixel.
Variable alpha_over : Pixel -> Pixel -> Pixel -> Pixel.

(** [im.resize(size, Image.Resampling.LANCZOS)]: Pillow rejects a side
    below one pixel ("height and width must be > 0"). *)
Definition resize (im : Image) (size : Z * Z) : Result Image :=
  if (fst size <? 1) || (snd size <? 1) then Raise ValueError
  else Ok {| width := fst size; height := snd size;
             getpixel := lanczos im size |}.

(** [canvas.paste(im, box)] and [canvas.paste(im, box, mask)]: the
    canvas keeps its size; the pixels under the box are replaced. *)
Definition paste (canvas im : Image) (box : Z * Z) (mask : option Image)
  : Image :=
  {| width := width canvas;
     height := height canvas;
     getpixel := fun i j =>
       if in_box im box i j then
         let p := getpixel im (i - fst box) (j - snd box) in
         match mask with
         | None => p
         | Some m =>
             alpha_over (getpixel m (i - fst box) (j - snd box))
                        (getpixel canvas i j) p
         end
       else getpixel canvas i j |}.

(** ** The compositor *)

(** [new_size] of [load_and_resize]:
    [scale = min(target[0] / w, target[1] / h)], then
    [(int(w * scale), int(h * scale))]. *)
Definition scaled_size (w h : Z) (target_size : Z * Z) : Result (Z * Z) :=
  match truediv (fst target_size) w, truediv (snd target_size) h with
  | Ok sx, Ok sy =>
      let scale := fmin sx sy in
      match int_of_float (PrimFloat.mul (float_of_int w) scale),
            int_of_float (PrimFloat.mul (float_of_int h) scale) with
      | Ok nw, Ok nh => Ok (nw, nh)
      | Raise e, _ => Raise e
      | _, Raise e => Raise e
      end
  | Raise e, _ => Raise e
  | _, Raise e => Raise e
  end.

Definition load_and_resize (path : string) (target_size : Z * Z)
  : IO Image :=
  img <- Image_open path ;;
  (* Create a transparent canvas of target size *)
  canvas <- lift (Image_new target_size transparent) ;;
  (* Calculate scale to fit within target *)
  new_size <- lift (scaled_size (width img) (height img) target_size) ;;
  (* Resize with high quality *)
  resized <- lift (resize img new_size) ;;
  (* Center on canvas *)
  let x := (fst target_size - fst new_size) / 2 in
  let y := (snd target_size - snd new_size) / 2 in
  ret (paste canvas resized (x, y) (Some resized)).

Definition sprite_path (sprite_prefix direction : string) : string :=
  SPRITES_DIR ++ "/" ++ sprite_prefix ++ "_" ++ direction ++ ".png".

(** The inner loop of [create_spritesheet]: the frame of one direction is
    pasted into every column of its row. *)
Definition tile_row (frame : Image) (frame_size : Z * Z) (frames_per_dir : Z)
  (row : Z) (sheet : Image) : IO Image :=
  for_each (range frames_per_dir)
    (fun col sheet =>
       let x := col * fst frame_size in
       let y := row * snd frame_size in
       ret (paste sheet frame (x, y) None))
    sheet.

(** The body of the loop over [enumerate(DIRECTIONS)]. *)
Definition compose_row (sprite_prefix : string) (frame_size : Z * Z)
  (frames_per_dir : Z) (entry : Z * string) (sheet : Image) : IO Image :=
  let '(row, direction) := entry in
  let sprite_path := sprite_path sprite_prefix direction in
  present <- path_exists sprite_path ;;
  frame <- (if negb present then
              print ("Warning: Missing " ++ sprite_path
                     ++ ", using empty frame") ;;;
              lift (Image_new frame_size transparent)
            else
              frame <- load_and_resize sprite_path frame_size ;;
              print ("Loaded " ++ direction ++ " -> row " ++ str row) ;;;
              ret frame) ;;
  (* Repeat the same frame across all columns (static sprite) *)
  tile_row frame frame_size frames_per_dir row sheet.

Definition create_spritesheet
  (sprite_prefix output_name : string) (frame_size : Z * Z)
  (frames_per_dir : Z) : IO string :=
  let width := fst frame_size * frames_per_dir in
  let height := snd frame_size * 8 in
  sheet <- lift (Image_new (width, height) transparent) ;;
  sheet <- for_each (enumerate DIRECTIONS)
             (compose_row sprite_prefix frame_size frames_per_dir) sheet ;;
  let output_path := OUTPUT_DIR ++ "/" ++ output_name in
  save sheet output_path ;;;
  print (String "010" "Created " ++ output_path
         ++ " (" ++ str width ++ "×" ++ str height ++ ")") ;;;
  ret output_path.

(** [sys.argv[1] if len(sys.argv) > 1 else "test"] *)
Definition argv_prefix (argv : list string) : string :=
  match argv with
  | _ :: p :: _ => p
  | _ => "test"
  end.

(** The script body. *)
Definition main (argv : list string) : IO (string * string) :=
  let prefix := argv_prefix argv in
  print ("Creating sprite sheets for '" ++ prefix ++ "'..."
         ++ String "010" "") ;;;
  (* Create walk sheet (static - same frame repeated) *)
  walk_path <- create_spritesheet prefix (prefix ++ "_walk.png")
                 WALK_FRAME_SIZE WALK_FRAMES_PER_DIR ;;
  (* Create idle sheet (static - same frame repeated) *)
  idle_path <- create_spritesheet prefix (prefix ++ "_idle.png")
                 IDLE_FRAME_SIZE IDLE_FRAMES_PER_DIR ;;
  print (String "010" "Done! Sprite sheets created:") ;;;
  print ("  Walk: " ++ walk_path) ;;;
  print ("  Idle: " ++ idle_path) ;;;
  ret (walk_path, idle_path).

End Pillow.

End Sprites.

(* ===================================================================== *)
(** * Vocabulary of the properties *)
(* ===================================================================== *)

Module StageSpec.
Import Py Random Stage.

Definition has_id (i : string) (r : Region) : bool :=
  String.eqb (region_id r) i.

Definition has_type (t : string) (r : Region) : bool :=
  String.eqb (region_type r) t.

(** A floating label is known by its id prefix. *)
Definition is_label_id (i : string) : bool := startswith i "label-".

Definition is_label (r : Region) : bool := is_label_id (region_id r).

Definition count_if {A} (p : A -> bool) (l : list A) : nat :=
  List.length (filter p l).

(** The kinds of top-level region that the assembler emits. *)
Inductive Kind :=
| KTitle | KImage | KCaption | KSidebar | KFooter | KLabel | KOther.

Definition kind_of (r : Region) : Kind :=
  if has_type "image" r then KImage
  else if has_id "title" r then KTitle
  else if has_id "caption" r then KCaption
  else if has_id "sidebar" r then KSidebar
  else if has_id "footer" r then KFooter
  else if is_label r then KLabel
  else KOther.

Definition optional {A} (b : bool) (a : A) : list A := if b then [a] else [].

(** Every id of a region: its own and those of its components. *)
Fixpoint region_ids (r : Region) : list string :=
  region_id r ::
  match region_components r with
  | Some cs => flat_map region_ids cs
  | None => []
  end.

Definition all_ids (doc : Template) : list string :=
  flat_map region_ids (doc_regions doc).

(** A leaf text region with a given id. *)
Definition text_leaf (i : string) (r : Region) : Prop :=
  region_id r = i /\ region_type r = "text" /\ region_components r = None.

Definition label_like (r : Region) : Prop :=
  exists n, 1000 <= n <= 9999 /\ text_leaf ("label-" ++ str n) r.

Definition HEADERS : list string := ["NOTES"; "META"; "INFO"; "DATA"; "CONTEXT"].

(** What a sidebar looks like: a composite of header, divider and body that
    share one width. *)
Definition sidebar_like (r : Region) : Prop :=
  region_id r = "sidebar" /\ region_type r = "composite" /\
  exists (sidebar_width wc : Z) (hdr : string) (h d b : Region),
    region_components r = Some [h; d; b]
    /\ 25 <= sidebar_width <= 35
    /\ text_leaf "sidebar-header" h
    /\ region_content h = Some (Static hdr) /\ In hdr HEADERS
    /\ text_leaf "sidebar-divider" d
    /\ region_content d = Some (Repeat "─" sidebar_width)
    /\ text_leaf "sidebar-body" b
    /\ region_content b = Some (Generator "bogus" wc) /\ 15 <= wc <= 40
    /\ region_layout b = Some {| alignment := None; wrap := Some true;
                                 width := sidebar_width |}.

(** A flag that was forced decides the presence of its group. *)
Definition honours {A} (flag : option bool) (group : list A) : Prop :=
  match flag with
  | Some true => group <> []
  | Some false => group = []
  | None => True
  end.

(** The regions of a document, group by group, in the order of emission. *)
Definition regions_shape (sb ft lb : option bool) (regions : list Region)
  : Prop :=
  exists t cap side foot labels,
    regions = ([t; generate_image_region] ++ cap ++ side ++ foot ++ labels)%list
    /\ text_leaf "title" t
    /\ Forall (text_leaf "caption") cap /\ (List.length cap <= 1)%nat
    /\ Forall sidebar_like side /\ (List.length side <= 1)%nat
    /\ Forall (text_leaf "footer") foot /\ (List.length foot <= 1)%nat
    /\ Forall label_like labels /\ (List.length labels <= 3)%nat
    /\ honours sb side /\ honours ft foot /\ honours lb labels.

Definition all_words : list string :=
  (ADJECTIVES ++ NOUNS ++ VERBS ++ TECH_WORDS)%list.

(** [r] is drawn from [pool] without replacement: no word more often than
    the pool holds it. *)
Definition drawn_from (pool r : list string) : Prop :=
  forall w, (count_occ string_dec r w <= count_occ string_dec pool w)%nat.

(** What the assembler puts in [textGenerator.dictionary]. *)
Definition dictionary_ok (d : list string) : Prop :=
  (15 <= List.length d <= 25)%nat /\ drawn_from all_words d.

(** A name of the form "{adjective}-{noun}". *)
Definition random_name (n : string) : Prop :=
  exists a b, In a ADJECTIVES /\ In b NOUNS /\ n = a ++ "-" ++ b.

Definition name_ok (name : option string) (n : string) : Prop :=
  match name with
  | Some s => n = s
  | None => random_name n
  end.

Definition PRESET_NAMES : list string := ["poster"; "card"; "banner"; "postcard"].

(** The preset that a request selects: the one of that name, the first
    preset for a name that none carries, any of them for no name. *)
Definition selected (layout_preset : option string) (l : Preset) : Prop :=
  match layout_preset with
  | None => In l LAYOUT_PRESETS
  | Some p =>
      (In l LAYOUT_PRESETS /\ preset_name l = p)
      \/ (~ In p PRESET_NAMES /\ hd_error LAYOUT_PRESETS = Some l)
  end.

(** The facts about a generated document that the properties rest on. *)
Definition generated (name : option string) (sb ft lb : option bool)
  (lp : option string) (doc : Template) : Prop :=
  regions_shape sb ft lb (doc_regions doc)
  /\ dictionary_ok (dictionary (doc_textGenerator doc))
  /\ name_ok name (doc_name doc)
  /\ exists l, selected lp l
               /\ layout_imageWidth (doc_layout doc) = imageWidth l
               /\ layout_spacing (doc_layout doc) = spacing l.

(** The effects of a batch run that wrote [docs], in order: file i (from 1)
    is "{name}-{i}.nara" under the output directory. *)
Definition batch_file (output_dir : string) (i : Z) (doc : Template) : string :=
  path_join output_dir (doc_name doc ++ "-" ++ str (i + 1) ++ ".nara").

Definition batch_output (output_dir : string) (docs : list Template)
  : list Effect :=
  MakeDirs output_dir ::
  flat_map (fun '(i, doc) =>
              [WriteJson (batch_file output_dir i doc) doc;
               PrintLine ("Generated: " ++ batch_file output_dir i doc)])
           (enumerate docs).

(** The CLI writes files rather than to the console, and in batch. *)
Definition batch_mode (args : Args) : Prop :=
  arg_stdout args = false /\ (arg_count args <> 1 \/ arg_name args = None).

(** Two namespaces that differ at most in [--name]. *)
Definition same_but_name (a b : Args) : Prop :=
  arg_count a = arg_count b /\ arg_output a = arg_output b
  /\ arg_layout a = arg_layout b
  /\ arg_sidebar a = arg_sidebar b /\ arg_no_sidebar a = arg_no_sidebar b
  /\ arg_footer a = arg_footer b /\ arg_no_footer a = arg_no_footer b
  /\ arg_labels a = arg_labels b /\ arg_stdout a = arg_stdout b.

(** ** Sample inputs *)

(** The raw draws under which the dictionary takes both cells that hold
    "protocol": draws 14 and 15 are the first two of [random.sample] when
    every argument of the assembler is left to chance. *)
Definition draws_protocol_twice : Rng :=
  fun i => if Nat.eqb i 14 then 31%N else if Nat.eqb i 15 then 55%N else 0%N.

(** [stage.py --count 2 --name quantum-matrix] *)
Definition cli_count2_quantum_matrix : Args :=
  {| arg_count := 2; arg_name := Some "quantum-matrix";
     arg_output := "./generated-templates"; arg_layout := None;
     arg_sidebar := false; arg_no_sidebar := false;
     arg_footer := false; arg_no_footer := false;
     arg_labels := false; arg_stdout := false |}.

(** [stage.py --count 3 --name mine] *)
Definition cli_count3_named : Args :=
  {| arg_count := 3; arg_name := Some "mine";
     arg_output := "./generated-templates"; arg_layout := None;
     arg_sidebar := false; arg_no_sidebar := false;
     arg_footer := false; arg_no_footer := false;
     arg_labels := false; arg_stdout := false |}.

End StageSpec.

Module SpritesSpec.
Import Py Sprites.

(** The sides of an image that Pillow has decoded: 1 to 2^31 - 1. *)
Definition well_sized (img : Image) : bool :=
  (1 <=? width img) && (width img <? 2 ^ 31)
  && (1 <=? height img) && (height img <? 2 ^ 31).

(** [load_and_resize] can load [img] into a frame of [target_size]: the
    scaled size is computed and has at least one pixel on each side. *)
Definition loadable (img : Image) (target_size : Z * Z) : bool :=
  well_sized img &&
  match scaled_size (width img) (height img) target_size with
  | Ok (nw, nh) => (1 <=? nw) && (1 <=? nh)
  | Raise _ => false
  end.

(** Every sprite of [prefix] that is present in [w] can be loaded. *)
Definition sprites_loadable (w : World) (prefix : string) : Prop :=
  forall d img, In d DIRECTIONS ->
                files w (sprite_path prefix d) = Some img ->
                loadable img WALK_FRAME_SIZE = true.

(** Row [row] of a sheet, all 256 columns of it, is fully transparent. *)
Definition row_transparent (sheet : Image) (row : Z) : Prop :=
  forall i j, 0 <= i < 256 -> 40 * row <= j < 40 * row + 40 ->
              getpixel sheet i j = transparent.

(** The whole sheet is transparent. *)
Definition fully_transparent (sheet : Image) : Prop :=
  forall i j, 0 <= i < 256 -> 0 <= j < 320 ->
              getpixel sheet i j = transparent.

(** [sheet'] has the size of [sheet], and each of its pixels is that of
    [sheet], or lies in row [row] and is a pixel of [frame]. *)
Definition touched_only (row : Z) (frame sheet sheet' : Image) : Prop :=
  size sheet' = size sheet /\
  forall i j, getpixel sheet' i j = getpixel sheet i j
              \/ (40 * row <= j < 40 * row + 40
                  /\ exists i' j', getpixel sheet' i j = getpixel frame i' j').

(** The file [path] of [w'] is a sheet composed from the sprites of
    [prefix] in [w]: 256 by 320, transparent in the rows of the missing
    directions. *)
Definition sheet_of (w : World) (prefix : string) (w' : World) (path : string)
  : Prop :=
  exists sheet,
    files w' path = Some sheet
    /\ size sheet = (256, 320)
    /\ (forall row d, In (row, d) (enumerate DIRECTIONS) ->
                      files w (sprite_path prefix d) = None ->
                      row_transparent sheet row)
    /\ ((forall d, In d DIRECTIONS -> files w (sprite_path prefix d) = None) ->
        fully_transparent sheet).

(** ** Sample inputs *)

Definition opaque_red : Pixel := (255, 0, 0, 255).

(** A sprite one pixel wide and a hundred high. *)
Definition sliver : Image :=
  {| width := 1; height := 100; getpixel := fun _ _ => opaque_red |}.

(** A sprite at twice the frame size. *)
Definition double_size : Image :=
  {| width := 64; height := 80; getpixel := fun _ _ => opaque_red |}.

(** Stand-ins for Pillow's arithmetic in concrete runs: nearest-neighbour
    resampling, and a paste that ignores the mask. *)
Definition nearest (im : Image) (size : Z * Z) (i j : Z) : Pixel :=
  getpixel im (i * width im / fst size) (j * height im / snd size).

Definition src_over (m dst src : Pixel) : Pixel := src.

(** A sprite directory that holds [img] as the south sprite of "test" and
    nothing else. *)
Definition only_south (img : Image) : World :=
  {| files := fun p => if String.eqb p "public/sprites/test_south.png"
                       then Some img else None;
     stdout := [] |}.

End SpritesSpec.

(* ===================================================================== *)
(** * Vocabulary of the further properties *)
(* ===================================================================== *)

Module StageDetail.
Import Py Random Stage StageSpec.

Definition bank_word (w : string) : Prop := In w (ADJECTIVES ++ NOUNS)%list.

(** A title of [n] words: bank words joined by spaces, in upper case. *)
Definition title_of (n : nat) (t : string) : Prop :=
  exists ws, List.length ws = n /\ Forall bank_word ws
             /\ t = upper (join " " ws).

Definition title_detail (layout : Preset) (r : Region) : Prop :=
  region_position r =
    {| pos_x := "startX";
       pos_y := "startY - " ++ str (titleAboveImage (spacing layout)) |}
  /\ (exists n t tr,
        (1 <= n <= 3)%nat /\ title_of n t
        /\ In tr [Some "uppercase"; None]
        /\ region_content r = Some (StaticTransform t tr))
  /\ (exists a,
        In a ["center"; "left"]
        /\ region_layout r = Some {| alignment := Some a; wrap := None;
                                     width := imageWidth layout |})
  /\ region_source r = None.

Definition caption_detail (layout : Preset) (r : Region) : Prop :=
  region_position r =
    {| pos_x := "startX";
       pos_y := "startY + imageHeight + "
                ++ str (captionBelowImage (spacing layout)) |}
  /\ (exists wc, 8 <= wc <= 20
                 /\ region_content r = Some (Generator "bogus" wc))
  /\ region_layout r = Some {| alignment := None; wrap := Some true;
                               width := imageWidth layout |}
  /\ region_source r = None.

Definition footer_detail (layout : Preset) (r : Region) : Prop :=
  region_position r =
    {| pos_x := "startX";
       pos_y := "startY + imageHeight + "
                ++ str (captionBelowImage (spacing layout)
                        + footerBelowCaption (spacing layout) + 2) |}
  /\ (exists wc, 1 <= wc <= 3
                 /\ region_content r
                    = Some (GeneratorAffix "bogus" wc "— " " —"))
  /\ region_layout r = Some {| alignment := Some "center"; wrap := None;
                               width := imageWidth layout |}
  /\ region_source r = None.

Definition sidebar_detail (layout : Preset) (r : Region) : Prop :=
  region_position r =
    {| pos_x := "startX + imageWidth + "
                ++ str (sidebarFromImage (spacing layout));
       pos_y := "startY" |}
  /\ region_content r = None
  /\ region_layout r = None
  /\ region_source r = None.

Definition label_detail (r : Region) : Prop :=
  (exists ox oy, 0 <= ox <= 20 /\ -10 <= oy <= 30
                 /\ region_position r =
                      {| pos_x := "startX + " ++ str ox;
                         pos_y := "startY + " ++ str oy |})
  /\ (exists t, title_of 1 t /\ region_content r = Some (Static t))
  /\ region_layout r = None
  /\ region_source r = None.

(** The envelope of a document: everything around the regions that does
    not depend on the layout. *)
Definition envelope (doc : Template) : Prop :=
  doc_version doc = "1.0.0" /\ doc_type doc = "stage"
  /\ (exists url,
        In url IMAGE_URLS
        /\ doc_parameters doc =
             [ ("imageUrl",
                {| param_type := "string"; param_default := Some url;
                   param_description := "URL of the image to display" |});
               ("cursorPos",
                {| param_type := "point"; param_default := None;
                   param_description :=
                     "Position where the stage will be rendered" |}) ])
  /\ tg_name (doc_textGenerator doc) = "bogus"
  /\ (exists text eph,
        In text ["worldData"; "lightModeData"]
        /\ doc_storage doc =
             {| storage_text := text; storage_images := "stagedImageData";
                ephemeral := eph; clearKey := "Escape" |}).

(** A document in full: the preset it was laid out with, and each group
    of regions with the fields its generator fills in. *)
Definition detailed (lp : option string) (doc : Template) : Prop :=
  exists layout,
    selected lp layout
    /\ doc_layout doc = {| layout_imageWidth := imageWidth layout;
                           layout_spacing := spacing layout |}
    /\ doc_description doc
       = "Procedurally generated " ++ preset_name layout ++ " template"
    /\ envelope doc
    /\ exists t cap side foot labels,
         doc_regions doc
         = ([t; generate_image_region] ++ cap ++ side ++ foot ++ labels)%list
         /\ (text_leaf "title" t /\ title_detail layout t)
         /\ Forall (fun r => text_leaf "caption" r /\ caption_detail layout r) cap
         /\ Forall (fun r => sidebar_like r /\ sidebar_detail layout r) side
         /\ Forall (fun r => text_leaf "footer" r /\ footer_detail layout r) foot
         /\ Forall (fun r => label_like r /\ label_detail r) labels.

(** The width that a region wraps or aligns to, when it has one. *)
Definition region_width (r : Region) : option Z :=
  option_map width (region_layout r).

(** The paths that a run wrote, in order. *)
Fixpoint written (out : list Effect) : list string :=
  match out with
  | [] => []
  | WriteJson path _ :: out' => path :: written out'
  | _ :: out' => written out'
  end.

(** The documents that a run printed or wrote, in order. *)
Fixpoint documents (out : list Effect) : list Template :=
  match out with
  | [] => []
  | WriteJson _ doc :: out' => doc :: documents out'
  | PrintJson doc :: out' => doc :: documents out'
  | _ :: out' => documents out'
  end.

(** The directories that a run created. *)
Fixpoint made_dirs (out : list Effect) : list string :=
  match out with
  | [] => []
  | MakeDirs path :: out' => path :: made_dirs out'
  | _ :: out' => made_dirs out'
  end.

(** The flag that [main] passes for a pair of switches [--x] / [--no-x]. *)
Definition forced (on off : bool) : option bool :=
  if on then Some true else if off then Some false else None.

(** The modes of the CLI. *)
Definition single_mode (args : Args) : Prop :=
  arg_stdout args = false /\ arg_count args = 1
  /\ exists s, arg_name args = Some s /\ s <> "".

Definition batch_run (args : Args) : Prop :=
  arg_stdout args = false
  /\ (arg_count args <> 1 \/ arg_name args = None \/ arg_name args = Some "").

(** What a run outside batch mode hands to the assembler. *)
Definition direct_run (args : Args) : Prop :=
  arg_stdout args = true \/ single_mode args.

(** ** Sample inputs *)

(** [stage.py --stdout --count 7 --sidebar --no-sidebar --labels] *)
Definition cli_stdout : Args :=
  {| arg_count := 7; arg_name := None;
     arg_output := "./generated-templates"; arg_layout := Some "card";
     arg_sidebar := true; arg_no_sidebar := true;
     arg_footer := false; arg_no_footer := true;
     arg_labels := true; arg_stdout := true |}.

(** [stage.py --name hello --output out --no-sidebar] *)
Definition cli_single : Args :=
  {| arg_count := 1; arg_name := Some "hello";
     arg_output := "out"; arg_layout := None;
     arg_sidebar := false; arg_no_sidebar := true;
     arg_footer := false; arg_no_footer := false;
     arg_labels := false; arg_stdout := false |}.

(** [stage.py --count 0] *)
Definition cli_count0 : Args :=
  {| arg_count := 0; arg_name := None;
     arg_output := "./generated-templates"; arg_layout := None;
     arg_sidebar := false; arg_no_sidebar := false;
     arg_footer := false; arg_no_footer := false;
     arg_labels := false; arg_stdout := false |}.

(** [stage.py --name "" --layout banner --sidebar]: the empty name is
    false, so this is a batch of one. *)
Definition cli_empty_name : Args :=
  {| arg_count := 1; arg_name := Some "";
     arg_output := "./generated-templates"; arg_layout := Some "banner";
     arg_sidebar := true; arg_no_sidebar := false;
     arg_footer := false; arg_no_footer := false;
     arg_labels := false; arg_stdout := false |}.

End StageDetail.

Module SpritesDetail.
Import Py Sprites SpritesSpec.

(** The frame that stands for a missing direction. *)
Definition empty_frame : Image :=
  {| width := 32; height := 40; getpixel := fun _ _ => transparent |}.

(** The frame of direction [d] in a sheet composed from [w]: the sprite
    as [load_and_resize] returns it, or the empty frame when the file is
    missing. *)
Definition frame_for (lanczos : Image -> Z * Z -> Z -> Z -> Pixel)
  (alpha_over : Pixel -> Pixel -> Pixel -> Pixel)
  (w : World) (prefix d : string) : Image :=
  match files w (sprite_path prefix d) with
  | None => empty_frame
  | Some _ =>
      match load_and_resize lanczos alpha_over (sprite_path prefix d)
              WALK_FRAME_SIZE w with
      | Ok (frame, _) => frame
      | Raise _ => empty_frame
      end
  end.

(** The line that [create_spritesheet] prints for one direction. *)
Definition console_line (w : World) (prefix : string) (entry : Z * string)
  : string :=
  let '(row, d) := entry in
  match files w (sprite_path prefix d) with
  | None => "Warning: Missing " ++ sprite_path prefix d
            ++ ", using empty frame"
  | Some _ => "Loaded " ++ d ++ " -> row " ++ str row
  end.

(** Cell ([row], [col]) of a sheet shows [frame]. *)
Definition cell_shows (sheet : Image) (row col : Z) (frame : Image) : Prop :=
  forall a b, 0 <= a < 32 -> 0 <= b < 40 ->
              getpixel sheet (32 * col + a) (40 * row + b) = getpixel frame a b.

(** Two images agree on the 256 by 320 pixels of a sheet. *)
Definition same_sheet (s1 s2 : Image) : Prop :=
  size s1 = size s2
  /\ forall i j, 0 <= i < 256 -> 0 <= j < 320 ->
                 getpixel s1 i j = getpixel s2 i j.

(** ** Sample inputs *)

(** A directory in which every sprite of "test" is missing. *)
Definition empty_dir : World := {| files := fun _ => None; stdout := [] |}.

End SpritesDetail.

(* ===================================================================== *)
(** * [stage.py] on an operating system *)
(* ===================================================================== *)

(** [Stage.generate_batch] and [Stage.main] give the calls that a run makes
    to the outside world, in order.  Here the calls are made: the
    directory is created and each file is written by an operating system
    that can refuse, and the error that it raises ends the run there,
    since [stage.py] catches nothing. *)

Module StageOS.
Import Py Random Stage.
#[local] Open Scope py_scope.

Section OperatingSystem.

(** The file system belongs to the operating system.  [D] is its state;
    [os_makedirs path] is [os.makedirs(path, exist_ok=True)], and
    [os_write path doc] is
<<
    with open(path, 'w') as f:
        json.dump(doc, f, indent=2)
>>
    Each returns the new state or raises (a missing parent directory, a
    directory in the place of the file, no permission, a full disk). *)
Variable D : Type.
Variable os_makedirs : string -> D -> Result D.
Variable os_write : string -> Template -> D -> Result D.

(** The state of a run: the file system, the generator, and what the run
    has done so far. *)
Record Machine := {
  disk : D;
  rng : Rng;
  done : list Effect
}.

Definition Run (A : Type) : Type := M Machine A.

(** A call of the [random] module. *)
Definition draws {A} (m : Rand A) : Run A :=
  fun s => match m (rng s) with
           | Ok (a, g) => Ok (a, {| disk := disk s; rng := g; done := done s |})
           | Raise e => Raise e
           end.

Definition makedirs (path : string) : Run unit :=
  fun s => match os_makedirs path (disk s) with
           | Ok d => Ok (tt, {| disk := d; rng := rng s;
                                done := done s ++ [MakeDirs path] |})
           | Raise e => Raise e
           end.

Definition write_json (path : string) (doc : Template) : Run unit :=
  fun s => match os_write path doc (disk s) with
           | Ok d => Ok (tt, {| disk := d; rng := rng s;
                                done := done s ++ [WriteJson path doc] |})
           | Raise e => Raise e
           end.

(** [print(line)]: the console is taken to be open and to encode every
    line that the script prints. *)
Definition print (line : string) : Run unit :=
  fun s => Ok (tt, {| disk := disk s; rng := rng s;
                      done := done s ++ [PrintLine line] |}).

Definition print_json (doc : Template) : Run unit :=
  fun s => Ok (tt, {| disk := disk s; rng := rng s;
                      done := done s ++ [PrintJson doc] |}).

Definition generate_batch (count : Z) (output_dir : string)
  : Run (list string) :=
  makedirs output_dir ;;;
  for_each (range count)
    (fun i generated =>
       template <- draws (generate_nara_template None None None None None) ;;
       let filename := doc_name template ++ "-" ++ str (i + 1) ++ ".nara" in
       let filepath := path_join output_dir filename in
       write_json filepath template ;;;
       let generated := (generated ++ [filepath])%list in
       print ("Generated: " ++ filepath) ;;;
       ret generated)
    [].

Definition main (args : Args) : Run unit :=
  let sidebar := if arg_sidebar args then Some true
                 else if arg_no_sidebar args then Some false else None in
  let footer := if arg_footer args then Some true
                else if arg_no_footer args then Some false else None in
  let labels := if arg_labels args then Some (arg_labels args) else None in
  if arg_stdout args then
    template <- draws (generate_nara_template (arg_name args) sidebar footer
                         labels (arg_layout args)) ;;
    print_json template
  else if (arg_count args =? 1) && truthy (arg_name args) then
    template <- draws (generate_nara_template (arg_name args) sidebar footer
                         labels (arg_layout args)) ;;
    makedirs (arg_output args) ;;;
    let name := match arg_name args with Some s => s | None => "None" end in
    let filepath := path_join (arg_output args) (name ++ ".nara") in
    write_json filepath template ;;;
    print ("Generated: " ++ filepath)
  else
    generate_batch (arg_count args) (arg_output args) ;;;
    ret tt.

(** ** Vocabulary *)

(** The calls of [effects] made one after the other, from the state [d]:
    the state after the last, or the error of the first that is refused. *)
Fixpoint perform (effects : list Effect) (d : D) : Result D :=
  match effects with
  | [] => Ok d
  | MakeDirs path :: rest =>
      match os_makedirs path d with
      | Ok d' => perform rest d'
      | Raise e => Raise e
      end
  | WriteJson path doc :: rest =>
      match os_write path doc d with
      | Ok d' => perform rest d'
      | Raise e => Raise e
      end
  | _ :: rest => perform rest d
  end.

(** The operating system refuses no write. *)
Definition writes_accepted : Prop :=
  forall path doc d, exists d', os_write path doc d = Ok d'.

End OperatingSystem.

Arguments disk {D} _.
Arguments rng {D} _.
Arguments done {D} _.
Arguments draws {D A} m.
Arguments makedirs {D} os_makedirs path.
Arguments write_json {D} os_write path doc.
Arguments print {D} line.
Arguments print_json {D} doc.
Arguments generate_batch {D} os_makedirs os_write count output_dir.
Arguments main {D} os_makedirs os_write args.
Arguments perform {D} os_makedirs os_write effects d.
Arguments writes_accepted {D} os_write.

(** ** A small file system for concrete runs *)

(** The directories that exist, beside the current one, and the files
    that were written.  [makedirs] refuses the empty path, and a file is
    opened for writing only in a directory that exists. *)
Record Tree := {
  dirs : list string;
  docs : list (string * Template)
}.

(** The part of a path before its last slash, if it has one. *)
Fixpoint before_last_slash (path : string) : option string :=
  match path with
  | EmptyString => None
  | String c rest =>
      match before_last_slash rest with
      | Some d => Some (String c d)
      | None => if Ascii.eqb c "/" then Some EmptyString else None
      end
  end.

(** [os.path.dirname(path)] *)
Definition dirname (path : string) : string :=
  match before_last_slash path with
  | Some d => d
  | None => ""
  end.

Definition tree_makedirs (path : string) (t : Tree) : Result Tree :=
  if String.eqb path "" then Raise FileNotFoundError
  else Ok {| dirs := path :: dirs t; docs := docs t |}.

Definition tree_write (path : string) (doc : Template) (t : Tree)
  : Result Tree :=
  if existsb (String.eqb (dirname path)) ("" :: dirs t)
  then Ok {| dirs := dirs t; docs := (path, doc) :: docs t |}
  else Raise FileNotFoundError.

(** A run that starts in an empty directory. *)
Definition fresh (g : Rng) : Machine Tree :=
  {| disk := {| dirs := []; docs := [] |}; rng := g; done := [] |}.

(** [stage.py --name a/b --output out] *)
Definition cli_nested : Args :=
  {| arg_count := 1; arg_name := Some "a/b";
     arg_output := "out"; arg_layout := None;
     arg_sidebar := false; arg_no_sidebar := false;
     arg_footer := false; arg_no_footer := false;
     arg_labels := false; arg_stdout := false |}.

End StageOS.

(* ===================================================================== *)
(** * [composite_spritesheet.py] on an operating system *)
(* ===================================================================== *)

(** [Sprites] runs the compositor in a directory whose files all decode
    and which takes every sheet.  Here a path can hold something that
    Pillow does not open, and a save can be refused; either error ends the
    run, since the script catches nothing. *)

Module SpritesOS.
Import Py Sprites SpritesSpec.
#[local] Open Scope py_scope.

(** What a path holds: a picture, as [Image.open(path).convert("RGBA")]
    decodes it, or something that the call refuses with an error (a file
    that is no image, a truncated one, a directory). *)
Inductive Entry :=
| Picture (img : Image)
| Unreadable (e : Exn).

(** The sprite directory, the console, and for each path the error, if
    any, with which the operating system refuses to write it (the
    directory of the path is missing or read-only, the disk is full). *)
Record Disk := {
  entries : string -> option Entry;
  refuses : string -> option Exn;
  console : list string
}.

Definition IO (A : Type) : Type := M Disk A.

(** [print(line)]: the console is taken to be open and to encode every
    line that the script prints. *)
Definition print (line : string) : IO unit :=
  fun d => Ok (tt, {| entries := entries d; refuses := refuses d;
                      console := console d ++ [line] |}).

(** [os.path.exists(path)] *)
Definition path_exists (path : string) : IO bool :=
  fun d => Ok (match entries d path with Some _ => true | None => false end, d).

(** [Image.MAX_IMAGE_PIXELS]: an image of more than twice as many pixels
    is refused when it is opened. *)
Definition MAX_IMAGE_PIXELS : Z := 89478485.

(** [Image.open(path).convert("RGBA")] *)
Definition Image_open (path : string) : IO Image :=
  fun d => match entries d path with
           | None => Raise FileNotFoundError
           | Some (Unreadable e) => Raise e
           | Some (Picture im) =>
               if 2 * MAX_IMAGE_PIXELS <? width im * height im
               then Raise DecompressionBombError
               else Ok (im, d)
           end.

(** [im.save(path, "PNG")] *)
Definition save (im : Image) (path : string) : IO unit :=
  fun d => match refuses d path with
           | Some e => Raise e
           | None =>
               Ok (tt, {| entries := fun p => if String.eqb p path
                                              then Some (Picture im)
                                              else entries d p;
                          refuses := refuses d;
                          console := console d |})
           end.

Section Pillow.

Variable lanczos : Image -> Z * Z -> Z -> Z -> Pixel.
Variable alpha_over : Pixel -> Pixel -> Pixel -> Pixel.

Definition load_and_resize (path : string) (target_size : Z * Z)
  : IO Image :=
  img <- Image_open path ;;
  (* Create a transparent canvas of target size *)
  canvas <- lift (Image_new target_size transparent) ;;
  (* Calculate scale to fit within target *)
  new_size <- lift (scaled_size (width img) (height img) target_size) ;;
  (* Resize with high quality *)
  resized <- lift (resize lanczos img new_size) ;;
  (* Center on canvas *)
  let x := (fst target_size - fst new_size) / 2 in
  let y := (snd target_size - snd new_size) / 2 in
  ret (paste alpha_over canvas resized (x, y) (Some resized)).

Definition tile_row (frame : Image) (frame_size : Z * Z) (frames_per_dir : Z)
  (row : Z) (sheet : Image) : IO Image :=
  for_each (range frames_per_dir)
    (fun col sheet =>
       let x := col * fst frame_size in
       let y := row * snd frame_size in
       ret (paste alpha_over sheet frame (x, y) None))
    sheet.

Definition compose_row (sprite_prefix : string) (frame_size : Z * Z)
  (frames_per_dir : Z) (entry : Z * string) (sheet : Image) : IO Image :=
  let '(row, direction) := entry in
  let sprite_path := sprite_path sprite_prefix direction in
  present <- path_exists sprite_path ;;
  frame <- (if negb present then
              print ("Warning: Missing " ++ sprite_path
                     ++ ", using empty frame") ;;;
              lift (Image_new frame_size transparent)
            else
              frame <- load_and_resize sprite_path frame_size ;;
              print ("Loaded " ++ direction ++ " -> row " ++ str row) ;;;
              ret frame) ;;
  (* Repeat the same frame across all columns (static sprite) *)
  tile_row frame frame_size frames_per_dir row sheet.

Definition create_spritesheet
  (sprite_prefix output_name : string) (frame_size : Z * Z)
  (frames_per_dir : Z) : IO string :=
  let width := fst frame_size * frames_per_dir in
  let height := snd frame_size * 8 in
  sheet <- lift (Image_new (width, height) transparent) ;;
  sheet <- for_each (enumerate DIRECTIONS)
             (compose_row sprite_prefix frame_size frames_per_dir) sheet ;;
  let output_path := OUTPUT_DIR ++ "/" ++ output_name in
  save sheet output_path ;;;
  print (String "010" "Created " ++ output_path
         ++ " (" ++ str width ++ "×" ++ str height ++ ")") ;;;
  ret output_path.

(** The script body. *)
Definition main (argv : list string) : IO (string * string) :=
  let prefix := argv_prefix argv in
  print ("Creating sprite sheets for '" ++ prefix ++ "'..."
         ++ String "010" "") ;;;
  (* Create walk sheet (static - same frame repeated) *)
  walk_path <- create_spritesheet prefix (prefix ++ "_walk.png")
                 WALK_FRAME_SIZE WALK_FRAMES_PER_DIR ;;
  (* Create idle sheet (static - same frame repeated) *)
  idle_path <- create_spritesheet prefix (prefix ++ "_idle.png")
                 IDLE_FRAME_SIZE IDLE_FRAMES_PER_DIR ;;
  print (String "010" "Done! Sprite sheets created:") ;;;
  print ("  Walk: " ++ walk_path) ;;;
  print ("  Idle: " ++ idle_path) ;;;
  ret (walk_path, idle_path).

End Pillow.

(** ** Vocabulary *)

(** The pictures of a directory. *)
Definition pictures (d : Disk) : string -> option Image :=
  fun p => match entries d p with
           | Some (Picture im) => Some im
           | _ => None
           end.

(** The directory as [Sprites] sees it: its pictures and the console. *)
Definition world_of (d : Disk) : World :=
  {| files := pictures d; stdout := console d |}.

(** Every sprite of [prefix] that is present in [d] is a picture that
    Pillow opens (it decodes, and has at most twice [MAX_IMAGE_PIXELS]
    pixels) and that [load_and_resize] can load (its scaled size has at
    least one pixel on each side). *)
Definition sprites_open (d : Disk) (prefix : string) : Prop :=
  forall dir e, In dir DIRECTIONS ->
                entries d (sprite_path prefix dir) = Some e ->
                exists img,
                  e = Picture img
                  /\ width img * height img <= 2 * MAX_IMAGE_PIXELS
                  /\ loadable img WALK_FRAME_SIZE = true.

(** The two sheets of [prefix]. *)
Definition walk_sheet (prefix : string) : string :=
  OUTPUT_DIR ++ "/" ++ prefix ++ "_walk.png".
Definition idle_sheet (prefix : string) : string :=
  OUTPUT_DIR ++ "/" ++ prefix ++ "_idle.png".

(** The operating system takes both sheets of [prefix]. *)
Definition sheets_accepted (d : Disk) (prefix : string) : Prop :=
  refuses d (walk_sheet prefix) = None /\ refuses d (idle_sheet prefix) = None.

(** The path [path] of [d'] holds a sheet composed from the sprites of
    [prefix] in [d]: a picture of 256 by 320 pixels, transparent in the
    rows of the missing directions. *)
Definition sheet_on (d : Disk) (prefix : string) (d' : Disk) (path : string)
  : Prop :=
  exists sheet,
    entries d' path = Some (Picture sheet)
    /\ size sheet = (256, 320)
    /\ (forall row dir, In (row, dir) (enumerate DIRECTIONS) ->
                        entries d (sprite_path prefix dir) = None ->
                        row_transparent sheet row)
    /\ ((forall dir, In dir DIRECTIONS ->
                     entries d (sprite_path prefix dir) = None) ->
        fully_transparent sheet).

(** [d] with another console. *)
Definition with_console (d : Disk) (c : list string) : Disk :=
  {| entries := entries d; refuses := refuses d; console := c |}.

(** In the directory [d], whatever the console holds, the computation
    [new] on the disk does what [old] does on the pictures of the disk:
    it returns the same value and prints the same lines, or raises the
    same error; neither changes a file. *)
Definition follows {A} (d : Disk) (old : Sprites.IO A) (new : IO A) : Prop :=
  forall c,
    match old {| files := pictures d; stdout := c |} with
    | Ok (a, w') =>
        files w' = pictures d
        /\ new (with_console d c) = Ok (a, with_console d (stdout w'))
    | Raise e => new (with_console d c) = Raise e
    end.

(** ** Sample inputs *)

(** A directory that holds [e] as the south sprite of "test" and nothing
    else, and that refuses to write the paths for which [refused] gives
    an error. *)
Definition south_only (e : Entry) (refused : string -> option Exn) : Disk :=
  {| entries := fun p => if String.eqb p "public/sprites/test_south.png"
                         then Some e else None;
     refuses := refused;
     console := [] |}.

(** The directory [public/sprites] exists and can be written. *)
Definition writable : string -> option Exn := fun _ => None.

(** The directory [public/sprites] does not exist. *)
Definition no_directory : string -> option Exn :=
  fun p => if String.prefix "public/sprites/" p
           then Some FileNotFoundError else None.

(** No sprite at all, and no directory. *)
Definition nothing : Disk :=
  {| entries := fun _ => None; refuses := no_directory; console := [] |}.

(** A sprite of 20000 by 20000 pixels. *)
Definition huge : Image :=
  {| width := 20000; height := 20000; getpixel := fun _ _ => opaque_red |}.

End SpritesOS.

(* ===================================================================== *)
(** * Rules of the monad and of [random] *)
(* ===================================================================== *)

Module Rules.
Import Py Random.
#[local] Open Scope py_scope.

Lemma hoare_ret {S A} (P : S -> Prop) (a : A) (Q : A -> S -> Prop) :
  (forall s, P s -> Q a s) -> hoare P (ret a) Q.
Proof. intros H s Hs. exists a, s. split; [reflexivity | auto]. Qed.

Lemma hoare_bind {S A B} (P : S -> Prop) (m : M S A) (R : A -> S -> Prop)
  (f : A -> M S B) (Q : B -> S -> Prop) :
  hoare P m R -> (forall a, hoare (R a) (f a) Q) -> hoare P (bind m f) Q.
Proof.
  intros Hm Hf s Hs.
  destruct (Hm s Hs) as (a & s1 & E1 & HR).
  destruct (Hf a s1 HR) as (b & s2 & E2 & HQ).
  exists b, s2. unfold bind. rewrite E1. auto.
Qed.

(** ** [total] on the random monad *)

Lemma total_ret {A} (a : A) (Q : A -> Prop) : Q a -> total (ret a) Q.
Proof. intros H. apply hoare_ret. auto. Qed.

Lemma total_bind {A B} (m : Rand A) (P : A -> Prop) (f : A -> Rand B)
  (Q : B -> Prop) :
  total m P -> (forall a, P a -> total (f a) Q) -> total (bind m f) Q.
Proof.
  intros Hm Hf. apply (hoare_bind _ m (fun a _ => P a)); [exact Hm|].
  intros a g Ha. exact (Hf a Ha g I).
Qed.

Lemma total_mono {A} (m : Rand A) (P Q : A -> Prop) :
  total m P -> (forall a, P a -> Q a) -> total m Q.
Proof.
  intros H HPQ g _. destruct (H g I) as (a & g' & E & Ha). eauto.
Qed.

Lemma total_randbelow n :
  0 < n -> total (randbelow n) (fun k => 0 <= k < n).
Proof.
  intros Hn g _. eexists _, _. split; [reflexivity|].
  apply Z.mod_pos_bound. exact Hn.
Qed.

Lemma total_randint a b :
  a <= b -> total (randint a b) (fun k => a <= k <= b).
Proof.
  intros Hab. unfold randint.
  destruct (Z.ltb_spec b a); [lia|].
  eapply total_bind; [apply (total_randbelow (b - a + 1)); lia|].
  intros k Hk. cbv beta in Hk. apply total_ret. lia.
Qed.

Lemma total_choice {A} (l : list A) :
  l <> [] -> total (choice l) (fun x => In x l).
Proof.
  intros Hl. destruct l as [|x l]; [congruence|]. unfold choice.
  assert (Hlen : 0 < Z.of_nat (List.length (x :: l))).
  { rewrite length_cons. lia. }
  eapply total_bind; [apply total_randbelow; exact Hlen|].
  intros k Hk. cbv beta in Hk. apply total_ret. apply nth_In. lia.
Qed.

Lemma total_random : total random (fun _ => True).
Proof.
  unfold random. eapply total_bind; [apply (total_randbelow (2 ^ 53)); lia|].
  intros k _. apply total_ret. exact I.
Qed.

(** The loop rule for [total]: the invariant counts the iterations. *)
Lemma total_for_each {A V} (I : nat -> V -> Prop) (body : A -> V -> Rand V)
  (xs : list A) (v : V) :
  I 0%nat v ->
  (forall k x v, nth_error xs k = Some x -> I k v ->
                 total (body x v) (I (S k))) ->
  total (for_each xs body v) (I (List.length xs)).
Proof.
  intros H0 Hbody.
  assert (G : forall todo done v,
            xs = (done ++ todo)%list -> I (List.length done) v ->
            total (for_each todo body v) (I (List.length xs))).
  { induction todo as [|x todo IH]; intros done v0 E Hk; simpl in *.
    - apply total_ret. rewrite E, app_nil_r. exact Hk.
    - eapply total_bind.
      + apply (Hbody (List.length done) x); [|exact Hk].
        rewrite E, nth_error_app2, Nat.sub_diag by lia. reflexivity.
      + intros v' Hv'. apply (IH (done ++ [x])%list).
        * rewrite <- app_assoc. exact E.
        * rewrite length_app. simpl. rewrite Nat.add_1_r. exact Hv'. }
  apply (G xs []); auto.
Qed.

Lemma nth_error_range n k x :
  nth_error (range n) k = Some x -> x = Z.of_nat k.
Proof.
  unfold range. intros H. rewrite nth_error_map in H.
  destruct (nth_error (seq 0 (Z.to_nat n)) k) as [m|] eqn:E; [|discriminate].
  injection H as <-.
  assert (Hk : (k < List.length (seq 0 (Z.to_nat n)))%nat).
  { apply nth_error_Some. congruence. }
  rewrite length_seq in Hk.
  apply nth_error_nth with (d := 0%nat) in E.
  rewrite seq_nth in E by exact Hk. simpl in E. subst m. reflexivity.
Qed.

Lemma length_range n : List.length (range n) = Z.to_nat n.
Proof. unfold range. rewrite length_map, length_seq. reflexivity. Qed.

Lemma combine_snoc {A B} (ks : list A) (xs : list B) (k : A) (x : B) :
  List.length ks = List.length xs ->
  combine (ks ++ [k]) (xs ++ [x]) = (combine ks xs ++ [(k, x)])%list.
Proof.
  revert xs. induction ks as [|k0 ks IH]; intros [|x0 xs] Hlen;
    simpl in *; try discriminate; auto.
  rewrite IH by lia. reflexivity.
Qed.

Lemma enumerate_snoc {A} (xs : list A) (x : A) :
  enumerate (xs ++ [x]) = (enumerate xs ++ [(Z.of_nat (List.length xs), x)])%list.
Proof.
  unfold enumerate. rewrite length_app. cbn [List.length].
  rewrite Nat.add_1_r, seq_S, map_app. cbn [map Nat.add].
  apply combine_snoc. rewrite length_map, length_seq. reflexivity.
Qed.

Lemma in_enumerate {A} (xs : list A) (k : Z) (x : A) :
  In (k, x) (enumerate xs) ->
  0 <= k /\ nth_error xs (Z.to_nat k) = Some x.
Proof.
  induction xs as [|y xs IH] using rev_ind; [intros []|].
  rewrite enumerate_snoc, in_app_iff. intros [H | [H | []]].
  - destruct (IH H) as (Hk & Hnth). split; [exact Hk|].
    rewrite nth_error_app1; [exact Hnth|].
    apply nth_error_Some. congruence.
  - injection H as <- <-. split; [lia|].
    rewrite Nat2Z.id, nth_error_app2, Nat.sub_diag by lia. reflexivity.
Qed.

(** ** [random.sample] draws from distinct positions *)

(** One step of the selection loop takes an element out of the pool. *)
Lemma pool_step_perm {A} (d : A) (pool : list A) (j : nat) :
  (j < List.length pool)%nat ->
  Permutation (nth j pool d :: removelast (list_set pool j (last pool d))) pool.
Proof.
  revert j. induction pool as [|h t IH]; intros j Hj; [simpl in Hj; lia|].
  destruct t as [|h' t'].
  - destruct j as [|j]; [|simpl in Hj; lia]. simpl. apply Permutation_refl.
  - assert (Hlast : last (h :: h' :: t') d = last (h' :: t') d) by reflexivity.
    rewrite Hlast. clear Hlast.
    assert (Hr : forall (a : A) (l : list A), l <> [] ->
              removelast (a :: l) = a :: removelast l).
    { intros a [|? ?] Hl; [congruence | reflexivity]. }
    assert (Ht : h' :: t' <> []) by discriminate.
    remember (h' :: t') as t eqn:Et. destruct j as [|j]; simpl nth; simpl list_set.
    + rewrite (Hr _ _ Ht). apply perm_skip.
      rewrite (app_removelast_last d Ht) at 3.
      apply Permutation_cons_append.
    + assert (Hne : list_set t j (last t d) <> []).
      { subst t. destruct j; discriminate. }
      rewrite (Hr _ _ Hne).
      eapply perm_trans; [apply perm_swap|]. apply perm_skip.
      apply IH. simpl in Hj. lia.
Qed.

Lemma length_pool_step {A} (v : A) (pool : list A) (j : nat) :
  List.length (removelast (list_set pool j v)) = (List.length pool - 1)%nat.
Proof.
  assert (H : forall (l : list A) i, List.length (list_set l i v) = List.length l).
  { induction l as [|h t IH]; intros [|i]; simpl; auto. }
  assert (R : forall l : list A, List.length (removelast l) = (List.length l - 1)%nat).
  { induction l as [|h [|h' t] IH]; auto. cbn [removelast List.length] in *.
    rewrite IH. lia. }
  rewrite R, H. reflexivity.
Qed.

Lemma total_sample_loop {A} (k : nat) :
  forall (pool result : list A),
    (k <= List.length pool)%nat ->
    total (sample_loop k pool result)
      (fun r => List.length r = (List.length result + k)%nat
                /\ exists rest, Permutation (r ++ rest) (result ++ pool)).
Proof.
  induction k as [|k IH]; intros pool result Hk; simpl.
  - apply total_ret. split; [lia|]. exists pool. apply Permutation_refl.
  - destruct pool as [|x pool']; [simpl in Hk; lia|].
    set (pool := x :: pool') in *.
    eapply total_bind; [apply (total_randbelow (Z.of_nat (List.length pool)));
                        subst pool; rewrite length_cons; lia|].
    intros j Hj. cbv beta in Hj.
    eapply total_mono.
    + apply IH. rewrite length_pool_step. lia.
    + intros r (Hlen & rest & Hperm). cbv beta. split.
      * rewrite Hlen, length_app. simpl. lia.
      * exists rest. eapply perm_trans; [exact Hperm|].
        rewrite <- app_assoc. apply Permutation_app_head.
        apply (pool_step_perm x pool (Z.to_nat j)). lia.
Qed.

(* From 6 elements on, [setsize] is 85 or more. *)
Lemma setsize_large (k : Z) : 6 <= k -> 85 <= setsize k.
Proof.
  intros Hk. unfold setsize.
  destruct (Z.ltb_spec 5 k); [|lia].
  assert (H5 : 5 <= Z.log2_up (k * 3)).
  { change 5 with (Z.log2_up 18). apply Z.log2_up_le_mono. lia. }
  assert (H3 : 3 <= (Z.log2_up (k * 3) + 1) / 2).
  { apply Z.div_le_lower_bound; lia. }
  assert (H64 : 4 ^ 3 <= 4 ^ ((Z.log2_up (k * 3) + 1) / 2)).
  { apply Z.pow_le_mono_r; lia. }
  change (4 ^ 3) with 64 in H64. lia.
Qed.

(* The selection from the pool, which [sample] takes when the population
   is small for the sample. *)
Lemma total_sample {A} (population : list A) (k : Z) :
  0 <= k <= Z.of_nat (List.length population) ->
  Z.of_nat (List.length population) <= setsize k ->
  total (sample population k)
    (fun r => List.length r = Z.to_nat k
              /\ exists rest, Permutation (r ++ rest) population).
Proof.
  intros Hk Hpool. unfold sample. cbv zeta.
  destruct (Z.ltb_spec k 0); [lia|].
  destruct (Z.ltb_spec (Z.of_nat (List.length population)) k); [lia|].
  cbn [orb].
  destruct (Z.leb_spec (Z.of_nat (List.length population)) (setsize k)); [|lia].
  eapply total_mono; [apply total_sample_loop; lia|].
  intros r H'. exact H'.
Qed.

End Rules.

(* ===================================================================== *)
(** * The generators of [stage.py] *)
(* ===================================================================== *)

Module StageFacts.
Import Py Random Stage StageSpec Rules.
#[local] Open Scope py_scope.

Ltac rand_rule :=
  first [ apply total_random
        | apply total_randint; lia
        | apply total_choice; discriminate ].

Ltac rand_bind :=
  eapply total_bind; [rand_rule | intros ? ?; cbv beta in * ].

Tactic Notation "rand_bind" "as" ident(x) ident(H) :=
  eapply total_bind; [rand_rule | intros x H; cbv beta in H ].

Lemma total_random_title_word words :
  total (random_title_word words) (fun _ => True).
Proof.
  unfold random_title_word. rand_bind.
  eapply total_bind with (P := fun _ => True).
  - destruct a; eapply total_mono; try rand_rule; auto.
  - intros w _. apply total_ret. exact I.
Qed.

Lemma total_random_title n : total (random_title n) (fun _ => True).
Proof.
  unfold random_title.
  eapply total_bind with (P := fun _ => True).
  - eapply total_mono.
    + apply (total_for_each (fun _ _ => True)); [exact I|].
      intros k x v _ _. apply total_random_title_word.
    + auto.
  - intros words _. apply total_ret. exact I.
Qed.

Lemma total_title_region layout :
  total (generate_title_region layout) (text_leaf "title").
Proof.
  unfold generate_title_region. rand_bind.
  eapply total_bind; [apply total_random_title|]. intros title _.
  rand_bind. rand_bind. apply total_ret. repeat split.
Qed.

Lemma total_caption_region layout :
  total (generate_caption_region layout) (text_leaf "caption").
Proof.
  unfold generate_caption_region. rand_bind. apply total_ret. repeat split.
Qed.

Lemma total_footer_region layout :
  total (generate_footer_region layout) (text_leaf "footer").
Proof.
  unfold generate_footer_region. rand_bind. apply total_ret. repeat split.
Qed.

Lemma total_sidebar_region layout :
  total (generate_sidebar_region layout) sidebar_like.
Proof.
  unfold generate_sidebar_region.
  rand_bind as w Hw. rand_bind as hdr Hhdr. rand_bind as wc Hwc.
  apply total_ret. split; [reflexivity|]. split; [reflexivity|].
  eexists w, wc, hdr, _, _, _. cbn [region_components].
  split; [reflexivity|]. repeat split; auto; lia.
Qed.

Lemma total_label_region : total generate_label_region label_like.
Proof.
  unfold generate_label_region. rand_bind. rand_bind. rand_bind as n Hn.
  eapply total_bind; [apply total_random_title|]. intros title _.
  apply total_ret. exists n. split; [lia|]. repeat split.
Qed.

Lemma total_select_layout lp :
  total (select_layout lp) (selected lp).
Proof.
  destruct lp as [p|]; unfold select_layout, selected.
  - apply total_ret.
    destruct (find (fun l => String.eqb (preset_name l) p) LAYOUT_PRESETS)
      as [l|] eqn:E.
    + apply find_some in E. destruct E as (Hin & Hp).
      apply String.eqb_eq in Hp. left. auto.
    + right. split; [|reflexivity].
      intros Hin. change PRESET_NAMES with (map preset_name LAYOUT_PRESETS) in Hin.
      apply in_map_iff in Hin. destruct Hin as (l & Hl & Hin).
      apply (find_none _ _ E) in Hin. cbv beta in Hin.
      rewrite Hl, String.eqb_refl in Hin. discriminate.
  - rand_rule.
Qed.

(** An optional group: the generator runs, or the list is left alone. *)
Lemma total_optional {A} (b : bool) (gen : Rand A) (P : A -> Prop)
  (regions : list A) :
  total gen P ->
  total (if b then x <- gen ;; ret (regions ++ [x])%list else ret regions)
    (fun rs => exists grp, rs = (regions ++ grp)%list /\ Forall P grp
                           /\ List.length grp = if b then 1%nat else 0%nat).
Proof.
  intros Hgen. destruct b.
  - eapply total_bind; [exact Hgen|]. intros x Hx. apply total_ret.
    exists [x]. repeat split. constructor; [exact Hx | constructor].
  - apply total_ret. exists []. rewrite app_nil_r. repeat split. constructor.
Qed.

(** The label loop appends [n] labels. *)
Lemma total_labels (n : Z) (regions : list Region) :
  total (for_each (range n)
           (fun _ regions => l <- generate_label_region ;;
                             ret (regions ++ [l])%list) regions)
    (fun rs => exists labels, rs = (regions ++ labels)%list
                              /\ Forall label_like labels
                              /\ List.length labels = Z.to_nat n).
Proof.
  rewrite <- length_range.
  apply (total_for_each
           (fun k rs => exists labels, rs = (regions ++ labels)%list
                                       /\ Forall label_like labels
                                       /\ List.length labels = k)).
  - exists []. rewrite app_nil_r. repeat split. constructor.
  - intros k _ rs _ (labels & -> & Hall & Hlen).
    eapply total_bind; [apply total_label_region|]. intros l Hl.
    apply total_ret. exists (labels ++ [l])%list.
    rewrite app_assoc. split; [reflexivity|]. split.
    + apply Forall_app. split; [exact Hall | constructor; [exact Hl | constructor]].
    + rewrite length_app. simpl. lia.
Qed.

Lemma length_all_words : List.length all_words = 73%nat.
Proof. reflexivity. Qed.

Lemma total_random_dictionary (size : Z) :
  15 <= size <= 25 -> total (random_dictionary size) dictionary_ok.
Proof.
  intros Hsize. unfold random_dictionary. fold all_words.
  rewrite length_all_words.
  replace (Z.min size (Z.of_nat 73)) with size by lia.
  eapply total_mono.
  - apply total_sample; rewrite length_all_words;
      [lia | pose proof (setsize_large size); lia].
  - intros d (Hlen & rest & Hperm). split; [lia|].
    intros w.
    rewrite <- (proj1 (Permutation_count_occ string_dec _ _) Hperm w).
    rewrite count_occ_app. lia.
Qed.

(** The flags, once resolved, agree with what was forced. *)
Lemma total_flag (flag : option bool) (threshold : float) :
  total (match flag with
         | None => r <- random ;; ret (PrimFloat.ltb threshold r)
         | Some b => ret b
         end)
    (fun b => match flag with Some b' => b = b' | None => True end).
Proof.
  destruct flag as [b|].
  - apply total_ret. reflexivity.
  - rand_bind. apply total_ret. exact I.
Qed.

Lemma total_num_labels (lb : option bool) :
  total (match lb with
         | None => randint 0 3
         | Some b => if b : bool then randint 1 3 else ret 0
         end)
    (fun n => 0 <= n <= 3 /\ match lb with
                             | Some true => 1 <= n
                             | Some false => n = 0
                             | None => True
                             end).
Proof.
  destruct lb as [[|]|].
  - eapply total_mono; [rand_rule|]. cbv beta. intros; lia.
  - apply total_ret. lia.
  - eapply total_mono; [rand_rule|]. cbv beta. intros; lia.
Qed.

Lemma total_name (name : option string) :
  total (match name with
         | None => a <- choice ADJECTIVES ;; n <- choice NOUNS ;;
                   ret (a ++ "-" ++ n)
         | Some s => ret s
         end)
    (name_ok name).
Proof.
  destruct name as [s|]; cbv beta iota.
  - apply total_ret. reflexivity.
  - rand_bind as a Ha. rand_bind as n Hn. apply total_ret.
    exists a, n. auto.
Qed.

(** The assembler: every call returns a document of the expected shape. *)
Lemma total_generate name sb ft lb lp :
  total (generate_nara_template name sb ft lb lp)
    (generated name sb ft lb lp).
Proof.
  unfold generate_nara_template.
  eapply total_bind; [apply total_name|]. intros nm Hnm.
  eapply total_bind; [apply total_flag|]. intros inc_sb Hsb. cbv beta in Hsb.
  eapply total_bind; [apply total_flag|]. intros inc_ft Hft. cbv beta in Hft.
  eapply total_bind; [apply total_num_labels|].
  intros num (Hnum & Hlb).
  eapply total_bind; [apply total_select_layout|]. intros layout Hlayout.
  eapply total_bind; [apply total_title_region|]. intros t Ht.
  rand_bind as r Hr.
  eapply total_bind; [apply total_optional, total_caption_region|].
  intros rs1 (cap & -> & Hcap & Lcap).
  eapply total_bind; [apply total_optional, total_sidebar_region|].
  intros rs2 (side & -> & Hside & Lside).
  eapply total_bind; [apply total_optional, total_footer_region|].
  intros rs3 (foot & -> & Hfoot & Lfoot).
  eapply total_bind; [apply total_labels|].
  intros rs4 (labels & -> & Hlabels & Llabels).
  rand_bind as url Hurl. rand_bind as size Hsize.
  eapply total_bind; [apply total_random_dictionary; lia|]. intros dict Hdict.
  rand_bind as text Htext. rand_bind as eph Heph.
  apply total_ret.
  split; [|split; [exact Hdict | split; [exact Hnm | exists layout; auto]]].
  cbn [doc_regions]. exists t, cap, side, foot, labels.
  split; [repeat rewrite <- app_assoc; reflexivity|].
  split; [exact Ht|].
  split; [exact Hcap|]. split; [destruct (PrimFloat.ltb _ r); lia|].
  split; [exact Hside|]. split; [destruct inc_sb; lia|].
  split; [exact Hfoot|]. split; [destruct inc_ft; lia|].
  split; [exact Hlabels|]. split; [lia|].
  split; [|split].
  - destruct sb as [[|]|]; simpl; subst; auto.
    + destruct side; [discriminate | discriminate].
    + destruct side; [reflexivity | discriminate].
  - destruct ft as [[|]|]; simpl; subst; auto.
    + destruct foot; discriminate.
    + destruct foot; [reflexivity | discriminate].
  - destruct lb as [[|]|]; simpl; auto.
    + destruct labels; [simpl in Llabels; lia | discriminate].
    + destruct labels; [reflexivity | simpl in Llabels; lia].
Qed.

End StageFacts.

(* ===================================================================== *)
(** * Properties of the generated documents *)
(* ===================================================================== *)

Module StageProps.
Import Py Random Stage StageSpec Rules StageFacts.
#[local] Open Scope py_scope.

Lemma prefix_nil s : String.prefix "" s = true.
Proof. destruct s; reflexivity. Qed.

Ltac open_leaf H :=
  match type of H with
  | text_leaf _ ?r =>
      destruct r;
      cbv [text_leaf region_id region_type region_components] in H;
      let a := fresh in let b := fresh in let c := fresh in
      destruct H as (a & b & c); subst
  end.

Ltac open_label H :=
  let n := fresh "n" in let Hn := fresh "Hn" in let L := fresh "L" in
  destruct H as (n & Hn & L); open_leaf L.

Ltac open_sidebar H :=
  match type of H with
  | sidebar_like ?r =>
      let w := fresh "w" in let wc := fresh "wc" in let hdr := fresh "hdr" in
      let h := fresh "h" in let d := fresh "d" in let b := fresh "b" in
      let Hw := fresh "Hw" in let Hwc := fresh "Hwc" in
      let Hhdr := fresh "Hhdr" in
      let Lh := fresh in let Ld := fresh in let Lb := fresh in
      let Ch := fresh "Ch" in let Cd := fresh "Cd" in let Cb := fresh "Cb" in
      let Yb := fresh "Yb" in
      let Hid := fresh in let Hty := fresh in let Hcs := fresh in
      destruct H as (Hid & Hty & w & wc & hdr & h & d & b & Hcs & Hw & Lh & Ch
                     & Hhdr & Ld & Cd & Lb & Cb & Hwc & Yb);
      destruct r; cbv [region_id region_type region_components] in Hid, Hty, Hcs;
      subst; open_leaf Lh; open_leaf Ld; open_leaf Lb
  end.

(** Splits a shape into its cases: each optional group is empty or a
    singleton, and there are zero to three labels. *)
Ltac shape_cases H :=
  let t := fresh "t" in let cap := fresh "cap" in let side := fresh "side" in
  let foot := fresh "foot" in let labels := fresh "labels" in
  let Ht := fresh "Ht" in
  let Hcap := fresh "Hcap" in let Lcap := fresh "Lcap" in
  let Hside := fresh "Hside" in let Lside := fresh "Lside" in
  let Hfoot := fresh "Hfoot" in let Lfoot := fresh "Lfoot" in
  let Hlabels := fresh "Hlabels" in let Llabels := fresh "Llabels" in
  let Hsb := fresh "Hsb" in let Hft := fresh "Hft" in let Hlb := fresh "Hlb" in
  let E := fresh "E" in
  destruct H as (t & cap & side & foot & labels & E & Ht & Hcap & Lcap
                 & Hside & Lside & Hfoot & Lfoot & Hlabels & Llabels
                 & Hsb & Hft & Hlb);
  destruct cap as [|? [|? ?]]; [ | | simpl in Lcap; lia];
  (destruct side as [|? [|? ?]]; [ | | simpl in Lside; lia]);
  (destruct foot as [|? [|? ?]]; [ | | simpl in Lfoot; lia]);
  (destruct labels as [|? [|? [|? [|? ?]]]]; [ | | | | simpl in Llabels; lia]);
  clear Lcap Lside Lfoot Llabels;
  repeat match goal with
         | F : Forall _ (_ :: _) |- _ => inversion F; subst; clear F
         | F : Forall _ [] |- _ => clear F
         end;
  open_leaf Ht;
  repeat match goal with
         | L : text_leaf _ _ |- _ => open_leaf L
         | L : label_like _ |- _ => open_label L
         | L : sidebar_like _ |- _ => open_sidebar L
         end.

(** Closes the cases that a forced flag rules out. *)
Ltac shape_absurd :=
  match goal with
  | H : honours (Some true) [] |- _ => exfalso; apply H; reflexivity
  | H : honours (Some false) (_ :: _) |- _ => discriminate H
  end.

Ltac shape_compute :=
  cbv [count_if all_ids]; cbn; rewrite ?prefix_nil; cbn.

Lemma NoDup_short {A} (l : list A) : (List.length l <= 1)%nat -> NoDup l.
Proof.
  destruct l as [|a [|b l]]; simpl; intros H.
  - constructor.
  - constructor; [intros [] | constructor].
  - lia.
Qed.

(** A list that splits into the elements that fail a test, without
    repetition, followed by those that pass it has no repetition exactly
    when the second part has none. *)
Lemma NoDup_partition {A} (p : A -> bool) (l : list A) :
  l = (filter (fun a => negb (p a)) l ++ filter p l)%list ->
  NoDup (filter (fun a => negb (p a)) l) ->
  (NoDup l <-> NoDup (filter p l)).
Proof.
  intros E Hfixed. split.
  - apply NoDup_filter.
  - intros Hlab. rewrite E. apply NoDup_app; auto.
    intros a Ha Hb. apply filter_In in Ha, Hb.
    destruct Ha as (_ & Ha), Hb as (_ & Hb). rewrite Hb in Ha. discriminate.
Qed.

(** C1. Whatever the flags, the regions of the returned document are, in
    this order: one title, one image, at most one caption, at most one
    sidebar, at most one footer, then zero to three labels.  In particular
    exactly one region has id "title" and exactly one has type "image". *)
Theorem C1_regions_in_order name sb ft lb lp :
  total (generate_nara_template name sb ft lb lp)
    (fun doc =>
       let regions := doc_regions doc in
       (exists (c s f : bool) (n : nat),
           (n <= 3)%nat /\
           map kind_of regions =
             ([KTitle; KImage] ++ optional c KCaption ++ optional s KSidebar
                ++ optional f KFooter ++ repeat KLabel n)%list)
       /\ count_if (has_id "title") regions = 1%nat
       /\ count_if (has_type "image") regions = 1%nat
       /\ (count_if (has_id "caption") regions <= 1)%nat
       /\ (count_if (has_id "sidebar") regions <= 1)%nat
       /\ (count_if (has_id "footer") regions <= 1)%nat
       /\ (count_if is_label regions <= 3)%nat).
Proof.
  eapply total_mono; [apply total_generate|].
  intros doc (Hshape & _). cbv zeta.
  split.
  - exists (existsb (has_id "caption") (doc_regions doc)),
      (existsb (has_id "sidebar") (doc_regions doc)),
      (existsb (has_id "footer") (doc_regions doc)),
      (count_if is_label (doc_regions doc)).
    shape_cases Hshape; rewrite E;
      cbv [count_if]; cbn; rewrite ?prefix_nil; cbn; split; (lia || reflexivity).
  - shape_cases Hshape; rewrite E;
      cbv [count_if]; cbn; rewrite ?prefix_nil; cbn; repeat split; lia.
Qed.

(** [str] prints distinct ints differently, so two label ids are equal
    only if the labels drew the same number. *)
Lemma str_inj n m : str n = str m -> n = m.
Proof.
  unfold str. intros H. apply DecimalZ.to_int_inj.
  assert (R : forall z, NilZero.int_of_string
                          (NilZero.string_of_int (Z.to_int z))
                        = Some (Z.to_int z)).
  { intros z. apply NilZero.isi; destruct z; simpl; try discriminate;
      intros [= E]; apply (DecimalPos.Unsigned.to_uint_nonnil _ E). }
  pose proof (R n) as Rn. rewrite H, R in Rn. congruence.
Qed.

Lemma label_id_inj n m : "label-" ++ str n = "label-" ++ str m -> n = m.
Proof. intros H. apply str_inj. cbn in H. congruence. Qed.

(** C2 fails as stated: with labels forced on and every raw draw equal to
    1, two labels are emitted and both draw the suffix 1001, so the id
    "label-1001" occurs twice in the document. *)
Lemma C2_counterexample :
  exists doc g',
    generate_nara_template None None None (Some true) None (fun _ => 1%N)
      = Ok (doc, g')
    /\ all_ids doc = ["title"; "main-image"; "label-1001"; "label-1001"]
    /\ ~ NoDup (all_ids doc).
Proof.
  eexists. eexists. split; [vm_compute; reflexivity|].
  split; [reflexivity|].
  intros H. cbn in H.
  apply NoDup_cons_iff in H as (_ & H).
  apply NoDup_cons_iff in H as (_ & H).
  apply NoDup_cons_iff in H as (Hin & _).
  apply Hin. left. reflexivity.
Qed.

(** C2, amended. In every returned document the ids split into the ids
    that are not label ids, which are pairwise distinct, followed by the
    label ids, each of them "label-" and a number drawn in 1000..9999; so
    all ids are pairwise distinct exactly when the label ids are, and
    always when there is at most one label. *)
Theorem C2_ids_distinct_up_to_labels name sb ft lb lp :
  total (generate_nara_template name sb ft lb lp)
    (fun doc =>
       let ids := all_ids doc in
       let fixed := filter (fun i => negb (is_label_id i)) ids in
       let labels := filter is_label_id ids in
       ids = (fixed ++ labels)%list
       /\ NoDup fixed
       /\ Forall (fun i => exists n, 1000 <= n <= 9999 /\ i = "label-" ++ str n)
            labels
       /\ (NoDup ids <-> NoDup labels)
       /\ ((List.length labels <= 1)%nat -> NoDup ids)).
Proof.
  eapply total_mono; [apply total_generate|].
  intros doc (Hshape & _). cbv zeta.
  assert (Hnum : Forall (fun i => exists n, 1000 <= n <= 9999
                                            /\ i = "label-" ++ str n)
                   (filter is_label_id (all_ids doc))).
  { shape_cases Hshape; cbv [all_ids]; rewrite E; cbn; rewrite ?prefix_nil; cbn;
      repeat (constructor; [eexists; (split; [|reflexivity]); assumption|]);
      constructor. }
  assert (H : all_ids doc
              = (filter (fun i => negb (is_label_id i)) (all_ids doc)
                   ++ filter is_label_id (all_ids doc))%list
              /\ NoDup (filter (fun i => negb (is_label_id i)) (all_ids doc))).
  { shape_cases Hshape; cbv [all_ids]; rewrite E; cbn; rewrite ?prefix_nil; cbn;
      (split; [reflexivity|]);
      repeat (constructor; [cbn; intuition discriminate|]); constructor. }
  destruct H as (Esplit & Hfixed).
  pose proof (NoDup_partition is_label_id (all_ids doc) Esplit Hfixed) as Hiff.
  repeat split; auto; try apply Hiff.
  intros Hlen. apply Hiff. apply NoDup_short. exact Hlen.
Qed.

(** C5. With [include_sidebar=True] the document has exactly one region of
    type "composite", which is also the only region with id "sidebar", and
    its components are exactly three: header, divider, body. *)
Theorem C5_forced_sidebar name ft lb lp :
  total (generate_nara_template name (Some true) ft lb lp)
    (fun doc =>
       exists s h d b,
         filter (has_type "composite") (doc_regions doc) = [s]
         /\ filter (has_id "sidebar") (doc_regions doc) = [s]
         /\ filter (fun r => has_type "composite" r && has_id "sidebar" r)
              (doc_regions doc) = [s]
         /\ region_components s = Some [h; d; b]
         /\ region_id h = "sidebar-header"
         /\ region_id d = "sidebar-divider"
         /\ region_id b = "sidebar-body").
Proof.
  eapply total_mono; [apply total_generate|].
  intros doc (Hshape & _).
  shape_cases Hshape; try shape_absurd; rewrite E;
    eexists _, _, _, _;
    (split; [cbn; reflexivity|]); (split; [cbn; reflexivity|]);
    (split; [cbn; reflexivity|]); (split; [cbn; reflexivity|]);
    repeat split.
Qed.

(** C6. With [include_labels=False] no region of the document, at any
    depth, has an id that starts with "label-". *)
Theorem C6_no_labels_when_disabled name sb ft lp :
  total (generate_nara_template name sb ft (Some false) lp)
    (fun doc =>
       count_if is_label (doc_regions doc) = 0%nat
       /\ Forall (fun i => is_label_id i = false) (all_ids doc)).
Proof.
  eapply total_mono; [apply total_generate|].
  intros doc (Hshape & _).
  shape_cases Hshape; try shape_absurd; cbv [count_if all_ids]; rewrite E;
    cbn; (split; [reflexivity|]); repeat constructor.
Qed.

(** C9. With [include_labels=True] the document has at least one and at
    most three regions whose id starts with "label-". *)
Theorem C9_forced_labels name sb ft lp :
  total (generate_nara_template name sb ft (Some true) lp)
    (fun doc => (1 <= count_if is_label (doc_regions doc) <= 3)%nat).
Proof.
  eapply total_mono; [apply total_generate|].
  intros doc (Hshape & _).
  shape_cases Hshape; try shape_absurd; rewrite E; shape_compute; lia.
Qed.

(** C7. A generated sidebar draws one width in 25..35 and uses it twice:
    it is the repeat count of the divider and the wrap width of the body.
    The body has 15 to 40 words and the header is one of the five literal
    labels.  This holds of the generator and of every sidebar region of
    every generated document. *)
Theorem C7_sidebar_width_shared :
  (forall layout, total (generate_sidebar_region layout) sidebar_like)
  /\ (forall name sb ft lb lp,
        total (generate_nara_template name sb ft lb lp)
          (fun doc => forall r, In r (doc_regions doc) ->
                                has_id "sidebar" r = true -> sidebar_like r)).
Proof.
  split; [apply total_sidebar_region|].
  intros name sb ft lb lp.
  eapply total_mono; [apply total_generate|].
  intros doc ((t & cap & side & foot & labels & E & Ht & Hcap & _ & Hside & _
               & Hfoot & _ & Hlabels & _) & _) r Hin Hid.
  rewrite E in Hin. unfold has_id in Hid. apply String.eqb_eq in Hid.
  rewrite Forall_forall in Hcap, Hside, Hfoot, Hlabels.
  cbn [app In] in Hin. rewrite !in_app_iff in Hin.
  destruct Hin as [<- | [<- | [Hin | [Hin | [Hin | Hin]]]]].
  - destruct Ht as (Ht & _). congruence.
  - discriminate Hid.
  - destruct (Hcap _ Hin) as (Hc & _). congruence.
  - apply Hside. exact Hin.
  - destruct (Hfoot _ Hin) as (Hc & _). congruence.
  - destruct (Hlabels _ Hin) as (n & _ & Hc & _). rewrite Hc in Hid.
    discriminate Hid.
Qed.

(** C3. The layout selector: a name among poster, card, banner and
    postcard selects the preset of that name; any other name selects the
    first preset, poster, and nothing is raised; no name selects one of
    the four by a random draw, and each of the four can be drawn.  The
    assembler gives the document the width and spacing of that preset. *)
Theorem C3_layout_selector :
  map preset_name LAYOUT_PRESETS = PRESET_NAMES
  /\ (forall p, In p LAYOUT_PRESETS ->
        total (select_layout (Some (preset_name p))) (fun l => l = p))
  /\ (forall nm, ~ In nm PRESET_NAMES ->
        total (select_layout (Some nm))
          (fun l => hd_error LAYOUT_PRESETS = Some l
                    /\ preset_name l = "poster"))
  /\ total (select_layout None) (fun l => In l LAYOUT_PRESETS)
  /\ (forall p, In p LAYOUT_PRESETS ->
        exists g g', select_layout None g = Ok (p, g'))
  /\ (forall name sb ft lb lp,
        total (generate_nara_template name sb ft lb lp)
          (fun doc => exists l,
               selected lp l
               /\ layout_imageWidth (doc_layout doc) = imageWidth l
               /\ layout_spacing (doc_layout doc) = spacing l)).
Proof.
  split; [reflexivity|]. split; [|split; [|split; [|split]]].
  - intros p Hp. cbn in Hp.
    destruct Hp as [<- | [<- | [<- | [<- | []]]]];
      apply total_ret; reflexivity.
  - intros nm Hnm. eapply total_mono; [apply total_select_layout|].
    intros l [(Hin & Hl) | (_ & Hhd)].
    + exfalso. apply Hnm. subst nm.
      change PRESET_NAMES with (map preset_name LAYOUT_PRESETS).
      apply in_map. exact Hin.
    + split; [exact Hhd|]. cbn in Hhd. injection Hhd as <-. reflexivity.
  - apply (total_select_layout None).
  - intros p Hp. cbn in Hp.
    destruct Hp as [<- | [<- | [<- | [<- | []]]]].
    + exists (fun _ => 0%N). eexists. reflexivity.
    + exists (fun _ => 1%N). eexists. reflexivity.
    + exists (fun _ => 2%N). eexists. reflexivity.
    + exists (fun _ => 3%N). eexists. reflexivity.
  - intros name sb ft lb lp. eapply total_mono; [apply total_generate|].
    intros doc (_ & _ & _ & Hl). exact Hl.
Qed.


Lemma all_words_multiplicity w :
  (w <> "protocol" -> count_occ string_dec all_words w <= 1)%nat
  /\ count_occ string_dec all_words "protocol" = 2%nat.
Proof.
  split; [|vm_compute; reflexivity].
  intros Hw.
  destruct (in_dec string_dec w all_words) as [Hin|Hout].
  - assert (Hall : forallb (fun w' => String.eqb w' "protocol"
                      || Nat.eqb (count_occ string_dec all_words w') 1)
                     all_words = true) by (vm_compute; reflexivity).
    rewrite forallb_forall in Hall. specialize (Hall w Hin).
    apply orb_true_iff in Hall. destruct Hall as [Hall|Hall].
    + apply String.eqb_eq in Hall. contradiction.
    + apply Nat.eqb_eq in Hall. lia.
  - apply (count_occ_not_In string_dec) in Hout. lia.
Qed.


(** ** Batch generation *)

Lemma batch_output_snoc output_dir docs doc :
  batch_output output_dir (docs ++ [doc]) =
  (batch_output output_dir docs ++
   [WriteJson (batch_file output_dir (Z.of_nat (List.length docs)) doc) doc;
    PrintLine ("Generated: "
               ++ batch_file output_dir (Z.of_nat (List.length docs)) doc)])%list.
Proof.
  unfold batch_output. rewrite enumerate_snoc, flat_map_app.
  cbn [flat_map]. rewrite app_nil_r. reflexivity.
Qed.

(** A batch of [count] documents: each has a random name, and the effects
    are those of writing them as files 1 to [count]. *)
Lemma total_generate_batch (count : Z) (output_dir : string) :
  total (generate_batch count output_dir)
    (fun r => exists docs,
         List.length docs = Z.to_nat count
         /\ Forall (fun d => random_name (doc_name d)) docs
         /\ fst r = map (fun '(i, d) => batch_file output_dir i d) (enumerate docs)
         /\ snd r = batch_output output_dir docs).
Proof.
  unfold generate_batch. rewrite <- length_range.
  apply (total_for_each
           (fun k r => exists docs,
                List.length docs = k
                /\ Forall (fun d => random_name (doc_name d)) docs
                /\ fst r = map (fun '(i, d) => batch_file output_dir i d)
                             (enumerate docs)
                /\ snd r = batch_output output_dir docs)).
  - exists []. repeat split. constructor.
  - intros k i [generated out] Hi (docs & Hlen & Hnames & Hfst & Hsnd).
    apply nth_error_range in Hi. cbn [fst snd] in Hfst, Hsnd. subst i k.
    eapply total_bind; [apply total_generate|].
    intros doc (_ & _ & Hname & _). apply total_ret.
    exists (docs ++ [doc])%list. cbn [fst snd].
    split; [rewrite length_app; simpl; lia|].
    split; [apply Forall_app; split;
            [exact Hnames | constructor; [exact Hname | constructor]]|].
    split.
    + rewrite enumerate_snoc, map_app, Hfst. reflexivity.
    + rewrite batch_output_snoc, Hsnd. reflexivity.
Qed.

(** C8 fails as stated in its last clause: the name that a batch run draws
    can be the very name that was supplied.  With [--count 2 --name
    quantum-matrix] and every raw draw equal to 0, the first document is
    named "quantum-matrix" and is written to "quantum-matrix-1.nara". *)
Lemma C8_counterexample :
  arg_name cli_count2_quantum_matrix = Some "quantum-matrix"
  /\ match main cli_count2_quantum_matrix (fun _ => 0%N) with
     | Ok (MakeDirs _ :: WriteJson path doc :: _, _) =>
         path = "./generated-templates/quantum-matrix-1.nara"
         /\ doc_name doc = "quantum-matrix"
     | _ => False
     end.
Proof. split; [reflexivity|]. vm_compute. split; reflexivity. Qed.

(** C8, amended. In file-writing mode with a count other than 1, or with no
    name, [--name] is ignored: the run is the batch run of [count] and the
    output directory alone, so two command lines that differ only in the
    name do the same thing draw for draw; the run writes [count] documents,
    each under a freshly drawn "{adjective}-{noun}" name, to the files
    "{that name}-{i}.nara" for i from 1. *)
Theorem C8_batch_ignores_name (args : Args) :
  batch_mode args ->
  (forall args', batch_mode args' -> same_but_name args args' ->
                 forall g, main args' g = main args g)
  /\ total (main args)
       (fun out => exists docs,
            List.length docs = Z.to_nat (arg_count args)
            /\ Forall (fun d => random_name (doc_name d)) docs
            /\ out = batch_output (arg_output args) docs).
Proof.
  assert (Hmain : forall a, batch_mode a ->
            main a = (r <- generate_batch (arg_count a) (arg_output a) ;;
                      ret (snd r))).
  { intros a (Hout & Hmode). unfold main. rewrite Hout.
    replace ((arg_count a =? 1) && truthy (arg_name a)) with false;
      [reflexivity|].
    destruct Hmode as [Hc | Hn].
    - apply Z.eqb_neq in Hc. rewrite Hc. reflexivity.
    - rewrite Hn. cbn [truthy]. rewrite andb_false_r. reflexivity. }
  intros Hargs. split.
  - intros args' Hargs' (Hcount & Houtput & _) g.
    rewrite (Hmain _ Hargs), (Hmain _ Hargs'), Hcount, Houtput. reflexivity.
  - rewrite (Hmain _ Hargs).
    eapply total_bind; [apply total_generate_batch|].
    intros r (docs & Hlen & Hnames & _ & Hout). apply total_ret.
    exists docs. auto.
Qed.

(** C8 at [--count 3 --name mine]. *)
Lemma C8_batch_ignores_name_witness :
  (forall args', batch_mode args' -> same_but_name cli_count3_named args' ->
                 forall g, main args' g = main cli_count3_named g)
  /\ total (main cli_count3_named)
       (fun out => exists docs,
            List.length docs = 3%nat
            /\ Forall (fun d => random_name (doc_name d)) docs
            /\ out = batch_output "./generated-templates" docs).
Proof.
  apply (C8_batch_ignores_name cli_count3_named).
  split; [reflexivity | left; discriminate].
Defined.

End StageProps.

(* ===================================================================== *)
(** * The sprite sheets *)
(* ===================================================================== *)

Module SpritesProps.
Import Py Sprites SpritesSpec Rules.
#[local] Open Scope py_scope.

Lemma append_inj_l (p a b : string) : p ++ a = p ++ b -> a = b.
Proof.
  induction p as [|c p IH]; simpl; intros H; [exact H|].
  injection H as H. auto.
Qed.

Section Compositor.

Variable lanczos : Image -> Z * Z -> Z -> Z -> Pixel.
Variable alpha_over : Pixel -> Pixel -> Pixel -> Pixel.

Lemma tile_row_spec (frame : Image) (row : Z) (w : World) :
  size frame = (32, 40) ->
  forall cols sheet,
  exists sheet',
    for_each cols
      (fun col sheet =>
         ret (paste alpha_over sheet frame (col * 32, row * 40) None))
      sheet w = Ok (sheet', w)
    /\ touched_only row frame sheet sheet'.
Proof.
  intros Hsize. injection Hsize as Hw Hh.
  induction cols as [|col cols IH]; intros sheet; simpl.
  - exists sheet. split; [reflexivity|]. split; [reflexivity | auto].
  - unfold bind at 1. cbn [ret].
    destruct (IH (paste alpha_over sheet frame (col * 32, row * 40) None))
      as (sheet' & E & Hsz & Hpx).
    exists sheet'. split; [exact E|]. split; [rewrite Hsz; reflexivity|].
    intros i j. destruct (Hpx i j) as [H | H]; [|right; exact H].
    rewrite H. cbn [getpixel paste].
    destruct (in_box frame (col * 32, row * 40) i j) eqn:B; [|left; reflexivity].
    right. unfold in_box in B. cbn [fst snd] in B. rewrite Hh in B.
    split; [lia | eauto].
Qed.

Lemma compose_row_spec (prefix : string) (row : Z) (d : string)
  (sheet : Image) (w : World) :
  (forall img, files w (sprite_path prefix d) = Some img ->
               loadable img WALK_FRAME_SIZE = true) ->
  exists sheet' w',
    compose_row lanczos alpha_over prefix WALK_FRAME_SIZE WALK_FRAMES_PER_DIR
      (row, d) sheet w = Ok (sheet', w')
    /\ files w' = files w
    /\ size sheet' = size sheet
    /\ forall i j, getpixel sheet' i j = getpixel sheet i j
                   \/ (40 * row <= j < 40 * row + 40
                       /\ (files w (sprite_path prefix d) = None ->
                           getpixel sheet' i j = transparent)).
Proof.
  intros Hload. unfold compose_row, tile_row.
  unfold bind at 1. unfold path_exists.
  destruct (files w (sprite_path prefix d)) as [img|] eqn:Efile; cbn [negb].
  - (* the sprite is present *)
    specialize (Hload img eq_refl). unfold loadable in Hload.
    apply andb_true_iff in Hload. destruct Hload as (_ & Hload).
    destruct (scaled_size (width img) (height img) WALK_FRAME_SIZE)
      as [[nw nh]|e] eqn:Escale; [|discriminate].
    apply andb_true_iff in Hload. destruct Hload as (Hnw & Hnh).
    apply Z.leb_le in Hnw, Hnh.
    unfold bind at 1. unfold bind at 1. unfold load_and_resize.
    unfold bind at 1. unfold Image_open. rewrite Efile.
    unfold bind at 1. cbn [lift Image_new WALK_FRAME_SIZE fst snd Z.ltb Z.compare orb].
    unfold bind at 1. rewrite Escale. cbn [lift].
    unfold bind at 1. unfold resize. cbn [fst snd].
    destruct (Z.ltb_spec nw 1); [lia|]. destruct (Z.ltb_spec nh 1); [lia|].
    cbn [orb lift ret]. unfold bind at 1. cbn [print ret].
    set (frame := paste alpha_over (Build_Image 32 40 _) _ _ (Some _)).
    set (w1 := Build_World _ _).
    destruct (tile_row_spec frame row w1 eq_refl
                (range WALK_FRAMES_PER_DIR) sheet) as (sheet' & E & Hsz & Hpx).
    eexists sheet', _. split; [exact E|]. split; [reflexivity|].
    split; [exact Hsz|]. intros i j.
    destruct (Hpx i j) as [H1 | (Hj & _)]; [left; exact H1|].
    right. split; [exact Hj | discriminate].
  - (* the sprite is missing: an empty frame *)
    unfold bind at 1. unfold bind at 1.
    cbn [print lift Image_new WALK_FRAME_SIZE fst snd Z.ltb Z.compare orb].
    set (frame := Build_Image 32 40 _).
    set (w1 := Build_World _ _).
    destruct (tile_row_spec frame row w1 eq_refl
                (range WALK_FRAMES_PER_DIR) sheet) as (sheet' & E & Hsz & Hpx).
    eexists sheet', _. split; [exact E|]. split; [reflexivity|].
    split; [exact Hsz|]. intros i j.
    destruct (Hpx i j) as [H1 | (Hj & i' & j' & Hf)]; [left; exact H1|].
    right. split; [exact Hj|]. intros _. rewrite Hf. reflexivity.
Qed.

Lemma rows_spec (prefix : string) (w0 : World) :
  sprites_loadable w0 prefix ->
  forall entries sheet w,
    (forall e, In e entries -> In (snd e) DIRECTIONS) ->
    files w = files w0 ->
    exists sheet' w',
      for_each entries
        (compose_row lanczos alpha_over prefix WALK_FRAME_SIZE
           WALK_FRAMES_PER_DIR) sheet w = Ok (sheet', w')
      /\ files w' = files w0
      /\ size sheet' = size sheet
      /\ forall i j,
           getpixel sheet' i j = getpixel sheet i j
           \/ exists row d,
                In (row, d) entries
                /\ 40 * row <= j < 40 * row + 40
                /\ (files w0 (sprite_path prefix d) = None ->
                    getpixel sheet' i j = transparent).
Proof.
  intros Hload.
  induction entries as [|[row d] rest IH]; intros sheet w Hdirs Hfiles.
  - exists sheet, w. simpl. repeat split; auto.
  - cbn [for_each]. unfold bind at 1.
    destruct (compose_row_spec prefix row d sheet w)
      as (sheet1 & w1 & E1 & Hf1 & Hs1 & Hp1).
    { intros img Himg. apply (Hload d img).
      - apply (Hdirs (row, d)). left. reflexivity.
      - rewrite <- Hfiles. exact Himg. }
    rewrite E1.
    destruct (IH sheet1 w1) as (sheet' & w' & E & Hf & Hs & Hp).
    { intros e He. apply Hdirs. right. exact He. }
    { rewrite Hf1. exact Hfiles. }
    exists sheet', w'. split; [exact E|]. split; [exact Hf|].
    split; [rewrite Hs; exact Hs1|].
    intros i j. destruct (Hp i j) as [H | (row' & d' & Hin & Hj & Ht)].
    + rewrite H. destruct (Hp1 i j) as [H1 | (Hj & Ht)]; [left; exact H1|].
      right. exists row, d. split; [left; reflexivity|]. split; [exact Hj|].
      intros Hmiss. apply Ht. rewrite Hfiles. exact Hmiss.
    + right. exists row', d'. split; [right; exact Hin | auto].
Qed.

Lemma all_rows_present j :
  0 <= j < 320 ->
  exists row d, In (row, d) (enumerate DIRECTIONS)
                /\ 40 * row <= j < 40 * row + 40.
Proof.
  intros Hj.
  assert (H : j < 40 \/ 40 <= j < 80 \/ 80 <= j < 120 \/ 120 <= j < 160
              \/ 160 <= j < 200 \/ 200 <= j < 240 \/ 240 <= j < 280
              \/ 280 <= j) by lia.
  cbn [enumerate DIRECTIONS List.length seq map combine].
  destruct H as [H | [H | [H | [H | [H | [H | [H | H]]]]]]];
    [ exists 0 | exists 1 | exists 2 | exists 3
    | exists 4 | exists 5 | exists 6 | exists 7 ];
    eexists; (split; [cbn; eauto 10 | lia]).
Qed.

(** One sheet.  The run returns the path of the sheet; the other files of
    the directory stay as they were. *)
Lemma create_spritesheet_spec (prefix output_name : string) (w : World) :
  sprites_loadable w prefix ->
  exists w',
    create_spritesheet lanczos alpha_over prefix output_name
      WALK_FRAME_SIZE WALK_FRAMES_PER_DIR w
    = Ok (OUTPUT_DIR ++ "/" ++ output_name, w')
    /\ sheet_of w prefix w' (OUTPUT_DIR ++ "/" ++ output_name)
    /\ forall p, p <> OUTPUT_DIR ++ "/" ++ output_name ->
                 files w' p = files w p.
Proof.
  intros Hload. unfold create_spritesheet.
  cbv zeta. unfold bind at 1.
  set (blank := Build_Image 256 320 (fun _ _ => transparent)).
  change (lift (Image_new (fst WALK_FRAME_SIZE * WALK_FRAMES_PER_DIR,
                           snd WALK_FRAME_SIZE * 8) transparent) w)
    with (Ok (blank, w)).
  unfold bind at 1.
  destruct (rows_spec prefix w Hload (enumerate DIRECTIONS) blank w)
    as (sheet & w1 & E & Hf & Hs & Hp).
  { intros [row d] He. apply in_enumerate in He. destruct He as (_ & He).
    apply nth_error_In in He. exact He. }
  { reflexivity. }
  rewrite E. unfold bind at 1. cbn [save]. unfold bind at 1. cbn [print ret].
  eexists. split; [reflexivity|]. split.
  - exists sheet. cbn [files]. rewrite String.eqb_refl.
    split; [reflexivity|]. split; [exact Hs|].
    assert (Hrow : forall row d, In (row, d) (enumerate DIRECTIONS) ->
              files w (sprite_path prefix d) = None -> row_transparent sheet row).
    { intros row d Hin Hmiss i j Hi Hj.
      destruct (Hp i j) as [H | (row' & d' & Hin' & Hj' & Ht)].
      - rewrite H. reflexivity.
      - assert (row' = row) by lia. subst row'.
        apply in_enumerate in Hin, Hin'.
        destruct Hin as (_ & Hin), Hin' as (_ & Hin').
        rewrite Hin in Hin'. injection Hin' as <-. auto. }
    split; [exact Hrow|].
    intros Hall i j Hi Hj.
    destruct (all_rows_present j Hj) as (row & d & Hin & Hband).
    apply (Hrow row d Hin); auto.
    apply Hall. apply in_enumerate in Hin. destruct Hin as (_ & Hin).
    apply nth_error_In in Hin. exact Hin.
  - intros p Hp'. cbn [files].
    destruct (String.eqb_spec p (OUTPUT_DIR ++ "/" ++ output_name));
      [contradiction|]. rewrite Hf. reflexivity.
Qed.

(** No sheet is written over a sprite, nor one sheet over the other. *)
Lemma sprite_path_not_sheet (prefix kind d : string) :
  In kind ["walk"; "idle"] -> In d DIRECTIONS ->
  sprite_path prefix d <> OUTPUT_DIR ++ "/" ++ prefix ++ "_" ++ kind ++ ".png".
Proof.
  intros Hk Hd E. unfold sprite_path, SPRITES_DIR, OUTPUT_DIR in E.
  do 3 apply append_inj_l in E.
  cbn in Hk, Hd.
  destruct Hk as [<- | [<- | []]];
    destruct Hd as [<-|[<-|[<-|[<-|[<-|[<-|[<-|[<-|[]]]]]]]]];
    discriminate E.
Qed.

Lemma walk_not_idle (prefix : string) :
  OUTPUT_DIR ++ "/" ++ prefix ++ "_walk.png"
  <> OUTPUT_DIR ++ "/" ++ prefix ++ "_idle.png".
Proof.
  intros E. unfold OUTPUT_DIR in E. do 3 apply append_inj_l in E.
  discriminate E.
Qed.

End Compositor.

End SpritesProps.

(* ===================================================================== *)
(** * Further properties of the generator *)
(* ===================================================================== *)

Module StageMore.
Import Py Random Stage StageSpec StageDetail Rules StageFacts StageProps.
Import SpritesProps.
#[local] Open Scope py_scope.

Lemma split_combine_snd {A B} (ks : list A) (xs : list B) :
  List.length ks = List.length xs ->
  map fst (combine ks xs) = ks /\ map snd (combine ks xs) = xs.
Proof.
  revert xs. induction ks as [|k ks IH]; intros [|x xs] Hlen;
    simpl in *; try discriminate; auto.
  destruct (IH xs) as (H1 & H2); [lia|]. rewrite H1, H2. auto.
Qed.

(** ** Titles *)

Lemma upper_ascii_idem c : upper_ascii (upper_ascii c) = upper_ascii c.
Proof. destruct c as [[] [] [] [] [] [] [] []]; reflexivity. Qed.

Lemma upper_idem s : upper (upper s) = upper s.
Proof.
  induction s as [|c s IH]; simpl; [reflexivity|].
  rewrite upper_ascii_idem, IH. reflexivity.
Qed.

Lemma total_title_word words :
  total (random_title_word words)
    (fun ws => exists w, bank_word w /\ ws = (words ++ [w])%list).
Proof.
  unfold random_title_word. rand_bind as coin Hcoin.
  eapply total_bind with (P := bank_word).
  - destruct coin; (eapply total_mono; [rand_rule|]); cbv beta;
      intros w Hw; unfold bank_word; apply in_or_app; auto.
  - intros w Hw. apply total_ret. eauto.
Qed.

(* [random_title], for its callers. *)
Lemma title_upper (word_count : Z) :
  total (random_title word_count)
    (fun t => title_of (Z.to_nat word_count) t /\ upper t = t).
Proof.
  unfold random_title.
  eapply total_bind with
    (P := fun ws => List.length ws = Z.to_nat word_count
                    /\ Forall bank_word ws).
  - rewrite <- length_range.
    apply (total_for_each
             (fun k ws => List.length ws = k /\ Forall bank_word ws)).
    + split; [reflexivity | constructor].
    + intros k x ws _ (Hlen & Hall).
      eapply total_mono; [apply total_title_word|].
      intros ws' (w & Hw & ->). split.
      * rewrite length_app. simpl. lia.
      * apply Forall_app. split; [exact Hall | constructor; [exact Hw | constructor]].
  - intros ws (Hlen & Hall). apply total_ret. split.
    + exists ws. auto.
    + apply upper_idem.
Qed.

(** X1. [random_title(n)] returns [n] words (none for [n <= 0]) drawn from
    the adjectives and nouns, joined by single spaces, in upper case: the
    text is unchanged by another [upper()]. *)
Theorem X1_random_title (word_count : Z) :
  total (random_title word_count)
    (fun t => title_of (Z.to_nat word_count) t /\ upper t = t).
Proof. apply title_upper. Qed.

(** ** The dictionary at its bounds *)

(** X2. [random_dictionary(size)] for a size of 6 or more, where
    [random.sample] selects from a pool, always returns: min(size, 73)
    words drawn without replacement; a size of 73 or more is clamped and
    returns the whole bank, each cell once, in some order.  (For a size of
    5 or less [random.sample] selects by rejection, in a loop that this
    statement does not cover.) *)
Theorem X2_random_dictionary_clamped (size : Z) :
  6 <= size ->
  total (random_dictionary size)
    (fun d => List.length d = Z.to_nat (Z.min size 73)
              /\ drawn_from all_words d
              /\ (73 <= size -> Permutation d all_words)).
Proof.
  intros Hsize. unfold random_dictionary. fold all_words.
  rewrite length_all_words. change (Z.of_nat 73) with 73.
  eapply total_mono.
  - apply total_sample; rewrite length_all_words;
      [lia | pose proof (setsize_large (Z.min size 73)); lia].
  - intros d (Hlen & rest & Hperm). split; [exact Hlen|]. split.
    + intros w.
      rewrite <- (proj1 (Permutation_count_occ string_dec _ _) Hperm w).
      rewrite count_occ_app. lia.
    + intros Hbig. apply Permutation_length in Hperm as Hl.
      rewrite length_app, Hlen, length_all_words in Hl.
      replace (Z.min size 73) with 73 in Hl by lia.
      destruct rest; [|simpl in Hl; lia].
      rewrite app_nil_r in Hperm. exact Hperm.
Qed.

Lemma X2_random_dictionary_clamped_witness :
  6 <= 100
  /\ total (random_dictionary 100)
       (fun d => List.length d = 73%nat
                 /\ drawn_from all_words d
                 /\ (73 <= 100 -> Permutation d all_words)).
Proof. split; [lia|]. apply (X2_random_dictionary_clamped 100). lia. Defined.

(** X3. A negative size is not clamped: [random.sample] rejects it and
    [random_dictionary] raises ValueError, whatever the draws. *)
Theorem X3_random_dictionary_negative (size : Z) (g : Rng) :
  size < 0 -> random_dictionary size g = Raise ValueError.
Proof.
  intros Hsize. unfold random_dictionary, sample.
  replace (Z.min size _) with size by lia.
  destruct (Z.ltb_spec size 0); [reflexivity | lia].
Qed.

Lemma X3_random_dictionary_negative_witness :
  random_dictionary (-1) (fun _ => 0%N) = Raise ValueError.
Proof. apply (X3_random_dictionary_negative (-1)). lia. Defined.

(** ** The fields of each region *)

Lemma total_title_detail layout :
  total (generate_title_region layout)
    (fun r => text_leaf "title" r /\ title_detail layout r).
Proof.
  unfold generate_title_region. rand_bind as n Hn.
  eapply total_bind; [apply title_upper|]. intros title (Htitle & _).
  rand_bind as r Hr. rand_bind as a Ha. apply total_ret.
  split; [repeat split|]. split; [reflexivity|]. split; [|split; [|reflexivity]].
  - exists (Z.to_nat n), title, (if PrimFloat.ltb 0.3 r then Some "uppercase" else None).
    split; [lia|]. split; [exact Htitle|]. split; [|reflexivity].
    destruct (PrimFloat.ltb 0.3 r); simpl; auto.
  - exists a. split; [exact Ha | reflexivity].
Qed.

Lemma total_caption_detail layout :
  total (generate_caption_region layout)
    (fun r => text_leaf "caption" r /\ caption_detail layout r).
Proof.
  unfold generate_caption_region. rand_bind as wc Hwc. apply total_ret.
  split; [repeat split|]. split; [reflexivity|].
  split; [|split; reflexivity].
  exists wc. split; [lia | reflexivity].
Qed.

Lemma total_footer_detail layout :
  total (generate_footer_region layout)
    (fun r => text_leaf "footer" r /\ footer_detail layout r).
Proof.
  unfold generate_footer_region. rand_bind as wc Hwc. apply total_ret.
  split; [repeat split|]. split; [reflexivity|].
  split; [|split; reflexivity].
  exists wc. split; [lia | reflexivity].
Qed.

Lemma total_sidebar_detail layout :
  total (generate_sidebar_region layout)
    (fun r => sidebar_like r /\ sidebar_detail layout r).
Proof.
  unfold generate_sidebar_region.
  rand_bind as w Hw. rand_bind as hdr Hhdr. rand_bind as wc Hwc.
  apply total_ret. split; [|repeat split].
  split; [reflexivity|]. split; [reflexivity|].
  eexists w, wc, hdr, _, _, _. cbn [region_components].
  split; [reflexivity|]. repeat split; auto; lia.
Qed.

Lemma total_label_detail :
  total generate_label_region (fun r => label_like r /\ label_detail r).
Proof.
  unfold generate_label_region.
  rand_bind as ox Hox. rand_bind as oy Hoy. rand_bind as n Hn.
  eapply total_bind; [apply title_upper|]. intros title (Htitle & _).
  apply total_ret. split.
  - exists n. split; [lia|]. repeat split.
  - split; [exists ox, oy; repeat split; lia|].
    split; [exists title; split; [exact Htitle | reflexivity] | split; reflexivity].
Qed.

Lemma total_labels_detail (n : Z) (regions : list Region) :
  total (for_each (range n)
           (fun _ regions => l <- generate_label_region ;;
                             ret (regions ++ [l])%list) regions)
    (fun rs => exists labels,
         rs = (regions ++ labels)%list
         /\ Forall (fun r => label_like r /\ label_detail r) labels).
Proof.
  eapply total_mono.
  - apply (total_for_each
             (fun (_ : nat) rs => exists labels,
                  rs = (regions ++ labels)%list
                  /\ Forall (fun r => label_like r /\ label_detail r) labels)).
    + exists []. rewrite app_nil_r. split; [reflexivity | constructor].
    + intros k _ rs _ (labels & -> & Hall).
      eapply total_bind; [apply total_label_detail|]. intros l Hl.
      apply total_ret. exists (labels ++ [l])%list.
      rewrite app_assoc. split; [reflexivity|].
      apply Forall_app. split; [exact Hall | constructor; [exact Hl | constructor]].
  - auto.
Qed.

(** The assembler, field by field. *)
Lemma total_generate_detail name sb ft lb lp :
  total (generate_nara_template name sb ft lb lp) (detailed lp).
Proof.
  unfold generate_nara_template.
  eapply total_bind; [apply total_name|]. intros nm _.
  eapply total_bind; [apply total_flag|]. intros inc_sb _.
  eapply total_bind; [apply total_flag|]. intros inc_ft _.
  eapply total_bind; [apply total_num_labels|]. intros num _.
  eapply total_bind; [apply total_select_layout|]. intros layout Hlayout.
  eapply total_bind; [apply total_title_detail|]. intros t Ht.
  rand_bind as r Hr.
  eapply total_bind; [apply total_optional, total_caption_detail|].
  intros rs1 (cap & -> & Hcap & _).
  eapply total_bind; [apply total_optional, total_sidebar_detail|].
  intros rs2 (side & -> & Hside & _).
  eapply total_bind; [apply total_optional, total_footer_detail|].
  intros rs3 (foot & -> & Hfoot & _).
  eapply total_bind; [apply total_labels_detail|].
  intros rs4 (labels & -> & Hlabels).
  rand_bind as url Hurl. rand_bind as size Hsize.
  eapply total_bind; [apply total_random_dictionary; lia|]. intros dict _.
  rand_bind as text Htext. rand_bind as eph Heph.
  apply total_ret. exists layout.
  split; [exact Hlayout|]. split; [reflexivity|]. split; [reflexivity|].
  split.
  - split; [reflexivity|]. split; [reflexivity|].
    split; [exists url; split; [exact Hurl | reflexivity]|].
    split; [reflexivity|]. exists text, eph. split; [exact Htext | reflexivity].
  - exists t, cap, side, foot, labels. cbn [doc_regions].
    split; [repeat rewrite <- app_assoc; reflexivity|]. auto.
Qed.

(** Every region of a document is the image region or belongs to one of
    the five generated groups. *)
Lemma detailed_regions lp doc :
  detailed lp doc ->
  exists layout,
    selected lp layout
    /\ doc_layout doc = {| layout_imageWidth := imageWidth layout;
                           layout_spacing := spacing layout |}
    /\ forall r, In r (doc_regions doc) ->
         r = generate_image_region
         \/ (text_leaf "title" r /\ title_detail layout r)
         \/ (text_leaf "caption" r /\ caption_detail layout r)
         \/ (sidebar_like r /\ sidebar_detail layout r)
         \/ (text_leaf "footer" r /\ footer_detail layout r)
         \/ (label_like r /\ label_detail r).
Proof.
  intros (layout & Hsel & Hlay & _ & _ & t & cap & side & foot & labels
          & E & Ht & Hcap & Hside & Hfoot & Hlabels).
  exists layout. split; [exact Hsel|]. split; [exact Hlay|].
  intros r Hin. rewrite E in Hin.
  rewrite Forall_forall in Hcap, Hside, Hfoot, Hlabels.
  cbn [app In] in Hin. rewrite !in_app_iff in Hin.
  destruct Hin as [<- | [<- | [Hin | [Hin | [Hin | Hin]]]]]; auto 10.
Qed.

(** Decides a membership fact about ids from the id of the region. *)
Ltac by_id :=
  repeat match goal with
         | H : text_leaf _ _ /\ _ |- _ => destruct H as ((? & ? & ?) & ?)
         | H : sidebar_like _ /\ _ |- _ => destruct H as ((? & ? & ?) & ?)
         | H : label_like _ /\ _ |- _ =>
             destruct H as ((? & ? & ? & ? & ?) & ?)
         end;
  repeat match goal with
         | Hid : region_id ?r = _, H : has_id _ ?r = true |- _ =>
             unfold has_id in H; rewrite Hid in H; cbn in H
         | Hid : region_id ?r = _, H : is_label ?r = true |- _ =>
             unfold is_label, is_label_id, startswith in H;
             rewrite Hid in H; cbn in H
         | H : has_id _ generate_image_region = true |- _ => cbn in H
         | H : is_label generate_image_region = true |- _ => cbn in H
         end;
  try discriminate; try assumption.

(** X4. In every generated document, every top-level region that carries
    a width (the title always does; a caption and a footer when present)
    carries the image width of the document's own layout. *)
Theorem X4_region_widths name sb ft lb lp :
  total (generate_nara_template name sb ft lb lp)
    (fun doc =>
       (forall r w, In r (doc_regions doc) -> region_width r = Some w ->
                    w = layout_imageWidth (doc_layout doc))
       /\ (forall r, In r (doc_regions doc) ->
              has_id "title" r = true \/ has_id "caption" r = true
              \/ has_id "footer" r = true ->
              region_width r = Some (layout_imageWidth (doc_layout doc)))).
Proof.
  eapply total_mono; [apply total_generate_detail|].
  intros doc Hdoc.
  destruct (detailed_regions lp doc Hdoc) as (layout & _ & Hlay & Hregs).
  rewrite Hlay. cbn [layout_imageWidth]. unfold region_width. split.
  - intros r w Hin Hw.
    destruct (Hregs r Hin) as [-> | [(_ & _ & _ & (a & _ & H) & _)
      | [(_ & _ & _ & H & _) | [(_ & _ & _ & H & _) | [(_ & _ & _ & H & _)
      | (_ & _ & _ & H & _)]]]]];
      try (rewrite H in Hw; cbn in Hw; congruence).
    discriminate Hw.
  - intros r Hin Hid.
    destruct (Hregs r Hin) as [-> | [H | [H | [H | [H | H]]]]];
      try (destruct Hid as [Hid | [Hid | Hid]]; by_id; fail).
    + destruct H as (_ & _ & _ & (a & _ & H) & _). rewrite H. reflexivity.
    + destruct H as (_ & _ & _ & H & _). rewrite H. reflexivity.
    + destruct H as (_ & _ & _ & H & _). rewrite H. reflexivity.
Qed.

(** X5. The title region of every generated document shows one to three
    upper-case bank words, is aligned "center" or "left", carries the
    transform "uppercase" or none, and sits above the image by the
    [titleAboveImage] of the preset that was selected. *)
Theorem X5_title_fields name sb ft lb lp :
  total (generate_nara_template name sb ft lb lp)
    (fun doc => exists layout,
         selected lp layout
         /\ forall r, In r (doc_regions doc) -> has_id "title" r = true ->
                      title_detail layout r).
Proof.
  eapply total_mono; [apply total_generate_detail|].
  intros doc Hdoc.
  destruct (detailed_regions lp doc Hdoc) as (layout & Hsel & _ & Hregs).
  exists layout. split; [exact Hsel|]. intros r Hin Hid.
  destruct (Hregs r Hin) as [-> | [H | [H | [H | [H | H]]]]]; by_id.
Qed.


(** X7. Every floating label of every generated document is offset from
    the start point by 0 to 20 columns and -10 to 30 rows, shows a single
    upper-case bank word, and has no layout of its own. *)
Theorem X7_label_fields name sb ft lb lp :
  total (generate_nara_template name sb ft lb lp)
    (fun doc => forall r, In r (doc_regions doc) -> is_label r = true ->
                          label_detail r).
Proof.
  eapply total_mono; [apply total_generate_detail|].
  intros doc Hdoc.
  destruct (detailed_regions lp doc Hdoc) as (layout & _ & _ & Hregs).
  intros r Hin Hid.
  destruct (Hregs r Hin) as [-> | [H | [H | [H | [H | H]]]]]; by_id.
Qed.

(** X8. A forced footer flag is honoured both ways, and a sidebar that is
    forced off leaves no composite region and no sidebar id, nested ones
    included. *)
Theorem X8_footer_and_sidebar_flags :
  (forall name sb lb lp (b : bool),
      total (generate_nara_template name sb (Some b) lb lp)
        (fun doc => count_if (has_id "footer") (doc_regions doc)
                    = if b then 1%nat else 0%nat))
  /\ (forall name ft lb lp,
        total (generate_nara_template name (Some false) ft lb lp)
          (fun doc =>
             count_if (has_type "composite") (doc_regions doc) = 0%nat
             /\ Forall (fun i => String.prefix "sidebar" i = false)
                       (all_ids doc))).
Proof.
  split.
  - intros name sb lb lp b. eapply total_mono; [apply total_generate|].
    intros doc (Hshape & _).
    destruct b; shape_cases Hshape; try shape_absurd; rewrite E;
      shape_compute; reflexivity.
  - intros name ft lb lp. eapply total_mono; [apply total_generate|].
    intros doc (Hshape & _).
    shape_cases Hshape; try shape_absurd; cbv [count_if all_ids]; rewrite E;
      cbn; (split; [reflexivity|]); repeat constructor.
Qed.

(** X9. A generated document has two to eight regions: the title, the
    image, and one more for each caption, sidebar, footer and label. *)
Theorem X9_region_count name sb ft lb lp :
  total (generate_nara_template name sb ft lb lp)
    (fun doc =>
       let regions := doc_regions doc in
       (2 <= List.length regions <= 8)%nat
       /\ List.length regions
          = (2 + count_if (has_id "caption") regions
             + count_if (has_id "sidebar") regions
             + count_if (has_id "footer") regions
             + count_if is_label regions)%nat).
Proof.
  eapply total_mono; [apply total_generate|].
  intros doc (Hshape & _). cbv zeta.
  shape_cases Hshape; rewrite E; shape_compute; lia.
Qed.

(** X10. The envelope of every generated document: version "1.0.0", type
    "stage", the parameters "imageUrl" (a string whose default is one of
    the five image URLs) and "cursorPos", the text generator "bogus", and
    storage hints with text "worldData" or "lightModeData".  Every region
    that names a source names a declared parameter. *)
Theorem X10_envelope name sb ft lb lp :
  total (generate_nara_template name sb ft lb lp)
    (fun doc =>
       envelope doc
       /\ forall r s, In r (doc_regions doc) -> region_source r = Some s ->
                      In s (map fst (doc_parameters doc))).
Proof.
  eapply total_mono; [apply total_generate_detail|].
  intros doc Hdoc. pose proof Hdoc as (_ & _ & _ & _ & Henv & _).
  split; [exact Henv|].
  destruct Henv as (_ & _ & (url & _ & Hparams) & _).
  destruct (detailed_regions lp doc Hdoc) as (layout & _ & _ & Hregs).
  intros r s Hin Hs. rewrite Hparams.
  destruct (Hregs r Hin) as [-> | H].
  - cbn in Hs. injection Hs as <-. cbn. auto.
  - exfalso.
    assert (Hnone : region_source r = None).
    { destruct H as [(_ & _ & _ & _ & H) | [(_ & _ & _ & _ & H)
        | [(_ & _ & _ & _ & H) | [(_ & _ & _ & _ & H) | (_ & _ & _ & _ & H)]]]];
        exact H. }
    congruence.
Qed.

(** Two facts about the value of one run hold together. *)
Lemma total_and {A} (m : Rand A) (P Q : A -> Prop) :
  total m P -> total m Q -> total m (fun a => P a /\ Q a).
Proof.
  intros HP HQ g _.
  destruct (HP g I) as (a & g1 & E1 & Ha).
  destruct (HQ g I) as (a' & g2 & E2 & Ha').
  rewrite E1 in E2. injection E2 as <- <-. eauto.
Qed.

Lemma selected_name lp l : selected lp l -> In (preset_name l) PRESET_NAMES.
Proof.
  change PRESET_NAMES with (map preset_name LAYOUT_PRESETS).
  destruct lp as [p|]; cbn [selected].
  - intros [(Hin & _) | (_ & Hhd)]; [apply in_map; exact Hin|].
    cbn in Hhd. injection Hhd as <-. cbn. auto.
  - apply in_map.
Qed.

(* A preset is known by its image width. *)
Lemma preset_by_width (l l' : Preset) :
  In l LAYOUT_PRESETS -> In l' LAYOUT_PRESETS ->
  imageWidth l' = imageWidth l -> l' = l.
Proof.
  intros Hl Hl' Hw. cbn in Hl, Hl'.
  repeat (destruct Hl as [<- | Hl]; [|]); try contradiction;
    repeat (destruct Hl' as [<- | Hl']; [|]); try contradiction;
    first [reflexivity | cbn in Hw; discriminate Hw].
Qed.

Lemma selected_preset lp l : selected lp l -> In l LAYOUT_PRESETS.
Proof.
  destruct lp as [p|]; cbn [selected]; [|auto].
  intros [(Hin & _) | (_ & Hhd)]; [exact Hin|].
  cbn in Hhd. injection Hhd as <-. cbn. auto.
Qed.

(** X11. The name of a generated document is the name that was given,
    verbatim (the empty string included), or "{adjective}-{noun}" when
    none was.  Its description is "Procedurally generated {preset}
    template" for the preset that was selected, which is the preset that
    the document is laid out with: its [layout] carries the image width
    and the spacing of that preset, and no other preset has that image
    width.  So the description always names one of the four presets, also
    when an unknown layout was asked for, and never another preset than
    the one of the document's layout. *)
Theorem X11_name_and_description name sb ft lb lp :
  total (generate_nara_template name sb ft lb lp)
    (fun doc =>
       name_ok name (doc_name doc)
       /\ exists layout,
           selected lp layout
           /\ In (preset_name layout) PRESET_NAMES
           /\ doc_layout doc
              = {| layout_imageWidth := imageWidth layout;
                   layout_spacing := spacing layout |}
           /\ doc_description doc
              = "Procedurally generated " ++ preset_name layout ++ " template"
           /\ forall other,
                In other LAYOUT_PRESETS ->
                imageWidth other = layout_imageWidth (doc_layout doc) ->
                other = layout).
Proof.
  eapply total_mono;
    [apply total_and; [apply total_generate | apply total_generate_detail]|].
  intros doc ((_ & _ & Hname & _) & layout & Hsel & Hlay & Hdesc & _).
  split; [exact Hname|]. exists layout.
  split; [exact Hsel|]. split; [apply (selected_name lp); exact Hsel|].
  split; [exact Hlay|]. split; [exact Hdesc|].
  intros other Hin Hw. rewrite Hlay in Hw. cbn in Hw.
  apply preset_by_width; [apply (selected_preset lp); exact Hsel | exact Hin | exact Hw].
Qed.

(** ** Batches *)

Lemma written_batch_output output_dir docs :
  written (batch_output output_dir docs)
  = map (fun '(i, d) => batch_file output_dir i d) (enumerate docs)
  /\ documents (batch_output output_dir docs) = docs
  /\ made_dirs (batch_output output_dir docs) = [output_dir].
Proof.
  unfold batch_output. cbn [written documents made_dirs].
  assert (H : forall l : list (Z * Template),
             written (flat_map (fun '(i, doc) =>
                [WriteJson (batch_file output_dir i doc) doc;
                 PrintLine ("Generated: " ++ batch_file output_dir i doc)]) l)
             = map (fun '(i, d) => batch_file output_dir i d) l
             /\ documents (flat_map (fun '(i, doc) =>
                [WriteJson (batch_file output_dir i doc) doc;
                 PrintLine ("Generated: " ++ batch_file output_dir i doc)]) l)
                = map snd l
             /\ made_dirs (flat_map (fun '(i, doc) =>
                [WriteJson (batch_file output_dir i doc) doc;
                 PrintLine ("Generated: " ++ batch_file output_dir i doc)]) l)
                = []).
  { induction l as [|[i d] l (IH1 & IH2 & IH3)]; [repeat split|].
    cbn [flat_map app written documents made_dirs map snd].
    rewrite IH1, IH2, IH3. repeat split. }
  destruct (H (enumerate docs)) as (H1 & H2 & H3).
  rewrite H1, H2, H3. repeat split.
  unfold enumerate. apply split_combine_snd.
  rewrite length_map, length_seq. reflexivity.
Qed.

(** *** File names do not clash *)

Lemma length_append (s t : string) :
  String.length (s ++ t) = (String.length s + String.length t)%nat.
Proof. induction s as [|c s IH]; simpl; auto. Qed.

Lemma append_assoc (a b c : string) : (a ++ b) ++ c = a ++ (b ++ c).
Proof. induction a as [|x a IH]; simpl; [reflexivity | rewrite IH; reflexivity]. Qed.

Lemma append_inj_r (t s1 s2 : string) : s1 ++ t = s2 ++ t -> s1 = s2.
Proof.
  revert s2. induction s1 as [|a s1 IH]; intros [|b s2] H; simpl in H.
  - reflexivity.
  - apply (f_equal String.length) in H. simpl in H.
    rewrite length_append in H. lia.
  - apply (f_equal String.length) in H. simpl in H.
    rewrite length_append in H. lia.
  - injection H as -> H. rewrite (IH _ H). reflexivity.
Qed.

Lemma adjective_cut a1 a2 r1 r2 :
  In a1 ADJECTIVES -> In a2 ADJECTIVES ->
  a1 ++ "-" ++ r1 = a2 ++ "-" ++ r2 -> r1 = r2.
Proof.
  intros H1 H2 E. cbn in H1, H2.
  repeat (destruct H1 as [<- | H1]); [..| destruct H1];
    (repeat (destruct H2 as [<- | H2]); [..| destruct H2]);
    cbn in E; congruence.
Qed.

Lemma noun_cut b1 b2 r1 r2 :
  In b1 NOUNS -> In b2 NOUNS ->
  b1 ++ "-" ++ r1 = b2 ++ "-" ++ r2 -> r1 = r2.
Proof.
  intros H1 H2 E. cbn in H1, H2.
  repeat (destruct H1 as [<- | H1]); [..| destruct H1];
    (repeat (destruct H2 as [<- | H2]); [..| destruct H2]);
    cbn in E; congruence.
Qed.

Lemma adjective_not_absolute a r :
  In a ADJECTIVES -> String.prefix "/" (a ++ r) = false.
Proof.
  intros H. cbn in H.
  repeat (destruct H as [<- | H]); [..| destruct H]; reflexivity.
Qed.

Lemma path_join_inj (dir f1 f2 : string) :
  String.prefix "/" f1 = false -> String.prefix "/" f2 = false ->
  path_join dir f1 = path_join dir f2 -> f1 = f2.
Proof.
  intros H1 H2. unfold path_join. rewrite H1, H2.
  destruct (String.eqb dir ""); [auto|].
  destruct (String.eqb _ "/"); intros E.
  - apply append_inj_l in E. exact E.
  - do 2 apply append_inj_l in E. exact E.
Qed.

Lemma batch_file_inj output_dir i j d1 d2 :
  random_name (doc_name d1) -> random_name (doc_name d2) ->
  batch_file output_dir i d1 = batch_file output_dir j d2 -> i = j.
Proof.
  intros (a1 & b1 & Ha1 & Hb1 & E1) (a2 & b2 & Ha2 & Hb2 & E2).
  unfold batch_file. rewrite E1, E2. rewrite !append_assoc.
  intros E. apply path_join_inj in E;
    try (apply adjective_not_absolute; assumption).
  apply (adjective_cut a1 a2) in E; try assumption.
  apply (noun_cut b1 b2) in E; try assumption.
  apply append_inj_r in E. apply str_inj in E. lia.
Qed.

(** X14. The files of one batch never clash: the paths that
    [generate_batch] writes are pairwise distinct, whichever names are
    drawn, so no document of a batch overwrites another. *)
Theorem X14_batch_paths_distinct (count : Z) (output_dir : string) :
  total (generate_batch count output_dir)
    (fun r => NoDup (fst r) /\ NoDup (written (snd r))).
Proof.
  eapply total_mono; [apply total_generate_batch|].
  intros r (docs & _ & Hnames & Hfst & Hsnd).
  destruct (written_batch_output output_dir docs) as (Hw & _).
  rewrite Hsnd, Hw, Hfst. clear r Hfst Hsnd Hw.
  assert (G : NoDup (map (fun '(i, d) => batch_file output_dir i d)
                       (enumerate docs))).
  { induction docs as [|d docs IH] using rev_ind; [constructor|].
    apply Forall_app in Hnames. destruct Hnames as (Hdocs & Hd).
    apply Forall_inv in Hd.
    rewrite enumerate_snoc, map_app. apply NoDup_app.
    - apply IH. exact Hdocs.
    - cbn [map]. constructor; [intros [] | constructor].
    - intros p Hp Hq. cbn [map In] in Hq. destruct Hq as [<- | []].
      apply in_map_iff in Hp. destruct Hp as ((i & d') & Hp & Hin).
      apply in_enumerate in Hin as Hnth. destruct Hnth as (Hi & Hnth).
      assert (Hd' : random_name (doc_name d')).
      { rewrite Forall_forall in Hdocs. apply Hdocs.
        apply nth_error_In in Hnth. exact Hnth. }
      apply batch_file_inj in Hp; try assumption.
      assert (Hlt : (Z.to_nat i < List.length docs)%nat).
      { apply nth_error_Some. congruence. }
      lia. }
  split; exact G.
Qed.

(** ** The command line *)

(** What a forced flag means for the regions. *)
Lemma shape_counts sb ft lb regions :
  regions_shape sb ft lb regions ->
  match sb with
  | Some b => count_if (has_id "sidebar") regions = if b then 1%nat else 0%nat
  | None => True
  end
  /\ match ft with
     | Some b => count_if (has_id "footer") regions = if b then 1%nat else 0%nat
     | None => True
     end
  /\ match lb with
     | Some true => (1 <= count_if is_label regions <= 3)%nat
     | Some false => count_if is_label regions = 0%nat
     | None => True
     end.
Proof.
  intros Hshape. split; [|split].
  - destruct sb as [[|]|]; [| |exact I];
      shape_cases Hshape; try shape_absurd; shape_compute;
      reflexivity.
  - destruct ft as [[|]|]; [| |exact I];
      shape_cases Hshape; try shape_absurd; shape_compute;
      reflexivity.
  - destruct lb as [[|]|]; [| |exact I];
      shape_cases Hshape; try shape_absurd; shape_compute;
      (lia || reflexivity).
Qed.

(** Outside batch mode, [main] assembles one document from the name, the
    switches and the layout, then prints it or writes it. *)
Lemma main_direct (args : Args) :
  direct_run args ->
  main args =
  (template <- generate_nara_template (arg_name args)
                 (forced (arg_sidebar args) (arg_no_sidebar args))
                 (forced (arg_footer args) (arg_no_footer args))
                 (if arg_labels args then Some true else None)
                 (arg_layout args) ;;
   ret (if arg_stdout args then [PrintJson template]
        else
          let name := match arg_name args with Some s => s | None => "None" end in
          let filepath := path_join (arg_output args) (name ++ ".nara") in
          [MakeDirs (arg_output args); WriteJson filepath template;
           PrintLine ("Generated: " ++ filepath)])).
Proof.
  intros Hrun. unfold main, forced.
  assert (Hl : (if arg_labels args then Some (arg_labels args) else None)
               = (if arg_labels args then Some true else None)).
  { destruct (arg_labels args); reflexivity. }
  rewrite Hl. destruct Hrun as [Hout | (Hout & Hcount & s & Hname & Hs)];
    rewrite Hout; [reflexivity|].
  rewrite Hcount, Hname. cbn [Z.eqb Pos.eqb andb truthy].
  apply String.eqb_neq in Hs. rewrite Hs. reflexivity.
Qed.

(** X15. With [--stdout] the CLI prints one document and does nothing
    else: no directory is created and no file is written, whatever
    [--count] and [--output] say; the document carries the given name, or
    a random one when there is none. *)
Theorem X15_stdout_prints_one_document (args : Args) :
  arg_stdout args = true ->
  total (main args)
    (fun out => exists doc,
         out = [PrintJson doc]
         /\ written out = [] /\ made_dirs out = []
         /\ name_ok (arg_name args) (doc_name doc)).
Proof.
  intros Hout. rewrite (main_direct args (or_introl Hout)), Hout.
  eapply total_bind; [apply total_generate|].
  intros doc (_ & _ & Hname & _). apply total_ret.
  exists doc. repeat split. exact Hname.
Qed.

Lemma X15_stdout_prints_one_document_witness :
  total (main cli_stdout)
    (fun out => exists doc,
         out = [PrintJson doc]
         /\ written out = [] /\ made_dirs out = []
         /\ name_ok None (doc_name doc)).
Proof. apply (X15_stdout_prints_one_document cli_stdout). reflexivity. Defined.

(** X17. Outside batch mode the switches decide: [--sidebar] gives the
    document a sidebar, also when [--no-sidebar] is given with it, and
    [--no-sidebar] alone gives none; the same for the footer; [--labels]
    gives one to three labels. *)
Theorem X17_switches_decide (args : Args) :
  direct_run args ->
  total (main args)
    (fun out => exists doc,
         documents out = [doc]
         /\ (arg_sidebar args = true ->
             count_if (has_id "sidebar") (doc_regions doc) = 1%nat)
         /\ (arg_sidebar args = false -> arg_no_sidebar args = true ->
             count_if (has_id "sidebar") (doc_regions doc) = 0%nat)
         /\ (arg_footer args = true ->
             count_if (has_id "footer") (doc_regions doc) = 1%nat)
         /\ (arg_footer args = false -> arg_no_footer args = true ->
             count_if (has_id "footer") (doc_regions doc) = 0%nat)
         /\ (arg_labels args = true ->
             (1 <= count_if is_label (doc_regions doc) <= 3)%nat)).
Proof.
  intros Hrun. rewrite (main_direct args Hrun).
  eapply total_bind; [apply total_generate|].
  intros doc (Hshape & _). apply total_ret. exists doc.
  apply shape_counts in Hshape. destruct Hshape as (Hsb & Hft & Hlb).
  split; [destruct (arg_stdout args); reflexivity|].
  unfold forced in Hsb, Hft.
  split; [|split; [|split; [|split]]].
  - intros K. rewrite K in Hsb. exact Hsb.
  - intros K K'. rewrite K, K' in Hsb. exact Hsb.
  - intros K. rewrite K in Hft. exact Hft.
  - intros K K'. rewrite K, K' in Hft. exact Hft.
  - intros K. rewrite K in Hlb. exact Hlb.
Qed.

Lemma X17_switches_decide_witness :
  total (main cli_stdout)
    (fun out => exists doc,
         documents out = [doc]
         /\ (true = true ->
             count_if (has_id "sidebar") (doc_regions doc) = 1%nat)
         /\ (true = false -> true = true ->
             count_if (has_id "sidebar") (doc_regions doc) = 0%nat)
         /\ (false = true ->
             count_if (has_id "footer") (doc_regions doc) = 1%nat)
         /\ (false = false -> true = true ->
             count_if (has_id "footer") (doc_regions doc) = 0%nat)
         /\ (true = true ->
             (1 <= count_if is_label (doc_regions doc) <= 3)%nat)).
Proof. apply (X17_switches_decide cli_stdout). left. reflexivity. Defined.

(** X18. In batch mode, which a count of 1 with an empty name also is,
    the CLI looks at [--count] and [--output] only: [--layout], the
    sidebar, footer and label switches and the name change nothing, draw
    for draw. *)
Theorem X18_batch_ignores_switches (args args' : Args) (g : Rng) :
  batch_run args -> batch_run args' ->
  arg_count args = arg_count args' -> arg_output args = arg_output args' ->
  main args g = main args' g.
Proof.
  assert (Hmain : forall a, batch_run a ->
            main a = (r <- generate_batch (arg_count a) (arg_output a) ;;
                      ret (snd r))).
  { intros a (Hout & Hmode). unfold main. rewrite Hout.
    replace ((arg_count a =? 1) && truthy (arg_name a)) with false;
      [reflexivity|].
    destruct Hmode as [Hc | [Hn | Hn]].
    - apply Z.eqb_neq in Hc. rewrite Hc. reflexivity.
    - rewrite Hn. cbn [truthy]. rewrite andb_false_r. reflexivity.
    - rewrite Hn. cbn. rewrite andb_false_r. reflexivity. }
  intros H H' Hcount Houtput.
  rewrite (Hmain _ H), (Hmain _ H'), Hcount, Houtput. reflexivity.
Qed.

Lemma X18_batch_ignores_switches_witness :
  main cli_empty_name (fun _ => 0%N)
  = main {| arg_count := 1; arg_name := None;
            arg_output := "./generated-templates"; arg_layout := None;
            arg_sidebar := false; arg_no_sidebar := true;
            arg_footer := true; arg_no_footer := false;
            arg_labels := true; arg_stdout := false |} (fun _ => 0%N).
Proof.
  apply X18_batch_ignores_switches; try reflexivity.
  - split; [reflexivity | right; right; reflexivity].
  - split; [reflexivity | right; left; reflexivity].
Defined.

End StageMore.

(* ===================================================================== *)
(** * Further properties of the compositor *)
(* ===================================================================== *)

Module SpritesMore.
Import Py Sprites SpritesSpec SpritesDetail Rules SpritesProps.
#[local] Open Scope py_scope.

Section Sheets.

Variable lanczos : Image -> Z * Z -> Z -> Z -> Pixel.
Variable alpha_over : Pixel -> Pixel -> Pixel -> Pixel.

(** ** Loading one sprite *)

(* What [load_and_resize] returns on a loadable sprite. *)
Lemma load_and_resize_frame (path : string) (target_size : Z * Z)
  (w : World) (img : Image) (nw nh : Z) :
  files w path = Some img ->
  0 <= fst target_size -> 0 <= snd target_size ->
  scaled_size (width img) (height img) target_size = Ok (nw, nh) ->
  1 <= nw -> 1 <= nh ->
  exists frame,
    load_and_resize lanczos alpha_over path target_size w = Ok (frame, w)
    /\ size frame = target_size
    /\ forall i j,
         let x := (fst target_size - nw) / 2 in
         let y := (snd target_size - nh) / 2 in
         if (x <=? i) && (i <? x + nw) && (y <=? j) && (j <? y + nh)
         then getpixel frame i j
              = alpha_over (lanczos img (nw, nh) (i - x) (j - y)) transparent
                           (lanczos img (nw, nh) (i - x) (j - y))
         else getpixel frame i j = transparent.
Proof.
  intros Hfile Hw Hh Hscale Hnw Hnh.
  unfold load_and_resize, bind, Image_open, lift. rewrite Hfile.
  unfold Image_new.
  destruct (Z.ltb_spec (fst target_size) 0); [lia|].
  destruct (Z.ltb_spec (snd target_size) 0); [lia|].
  cbn [orb]. rewrite Hscale. unfold resize. cbn [fst snd].
  destruct (Z.ltb_spec nw 1); [lia|]. destruct (Z.ltb_spec nh 1); [lia|].
  cbn [orb]. eexists. split; [reflexivity|].
  split; [destruct target_size; reflexivity|].
  intros i j. cbv zeta. cbn [getpixel paste]. unfold in_box.
  cbn [width height fst snd].
  destruct ((_ <=? i) && _ && _ && _); reflexivity.
Qed.


(* The second way [load_and_resize] fails, for the loop that calls it. *)
Lemma load_and_resize_raises (path : string) (target_size : Z * Z)
  (w : World) (img : Image) (nw nh : Z) :
  files w path = Some img ->
  0 <= fst target_size -> 0 <= snd target_size ->
  scaled_size (width img) (height img) target_size = Ok (nw, nh) ->
  nw < 1 \/ nh < 1 ->
  load_and_resize lanczos alpha_over path target_size w = Raise ValueError.
Proof.
  intros Hfile Hw Hh Hscale Hsmall.
  unfold load_and_resize, bind, Image_open, lift. rewrite Hfile.
  unfold Image_new.
  destruct (Z.ltb_spec (fst target_size) 0); [lia|].
  destruct (Z.ltb_spec (snd target_size) 0); [lia|].
  cbn [orb]. rewrite Hscale. unfold resize. cbn [fst snd].
  destruct (Z.ltb_spec nw 1); [reflexivity|].
  destruct (Z.ltb_spec nh 1); [reflexivity | lia].
Qed.


(** The frame that [load_and_resize] returns depends on the file alone. *)
Lemma load_and_resize_same_file (path : string) (ts : Z * Z) (w w1 : World) :
  files w1 path = files w path ->
  load_and_resize lanczos alpha_over path ts w1
  = match load_and_resize lanczos alpha_over path ts w with
    | Ok (frame, _) => Ok (frame, w1)
    | Raise e => Raise e
    end.
Proof.
  intros Hsame. unfold load_and_resize, bind, Image_open, lift.
  rewrite Hsame. destruct (files w path) as [img|]; [|reflexivity].
  destruct (Image_new ts transparent); [|reflexivity].
  destruct (scaled_size _ _ ts) as [[nw nh]|]; [|reflexivity].
  destruct (resize lanczos img (nw, nh)); reflexivity.
Qed.

Lemma frame_for_same_file (prefix d : string) (w w1 : World) :
  files w1 (sprite_path prefix d) = files w (sprite_path prefix d) ->
  frame_for lanczos alpha_over w1 prefix d
  = frame_for lanczos alpha_over w prefix d.
Proof.
  intros Hsame. unfold frame_for.
  rewrite (load_and_resize_same_file _ _ w w1 Hsame), Hsame.
  destruct (files w (sprite_path prefix d)); [|reflexivity].
  destruct (load_and_resize _ _ _ _ w) as [[frame w']|]; reflexivity.
Qed.

(** ** The grid *)

Lemma in_range_8 col : 0 <= col < 8 -> In col (range WALK_FRAMES_PER_DIR).
Proof.
  intros H.
  assert (K : col = 0 \/ col = 1 \/ col = 2 \/ col = 3 \/ col = 4
              \/ col = 5 \/ col = 6 \/ col = 7) by lia.
  destruct K as [-> | [-> | [-> | [-> | [-> | [-> | [-> | ->]]]]]]];
    vm_compute; auto 10.
Qed.

(** The inner loop, pixel by pixel: a pixel under the box of some column
    shows the frame, any other pixel is left as it was. *)
Lemma tile_row_exact (frame : Image) (row : Z) (w : World) :
  size frame = (32, 40) ->
  forall cols sheet,
  exists sheet',
    for_each cols
      (fun col sheet =>
         ret (paste alpha_over sheet frame (col * 32, row * 40) None))
      sheet w = Ok (sheet', w)
    /\ size sheet' = size sheet
    /\ forall i j,
         (forall col, In col cols ->
            in_box frame (col * 32, row * 40) i j = true ->
            getpixel sheet' i j = getpixel frame (i - col * 32) (j - row * 40))
         /\ ((forall col, In col cols ->
                in_box frame (col * 32, row * 40) i j = false) ->
             getpixel sheet' i j = getpixel sheet i j).
Proof.
  intros Hsize. injection Hsize as Hw Hh.
  induction cols as [|c cols IH]; intros sheet; simpl for_each.
  - exists sheet. split; [reflexivity|]. split; [reflexivity|].
    intros i j. split; [intros col [] | reflexivity].
  - unfold bind at 1. cbn [ret].
    destruct (IH (paste alpha_over sheet frame (c * 32, row * 40) None))
      as (sheet' & E & Hsz & Hpx).
    exists sheet'. split; [exact E|]. split; [rewrite Hsz; reflexivity|].
    intros i j. destruct (Hpx i j) as (Hin & Hout). split.
    + intros col [<- | Hcol] Hbox; [|apply Hin; assumption].
      destruct (existsb (fun c' => in_box frame (c' * 32, row * 40) i j) cols)
        eqn:Elater.
      * apply existsb_exists in Elater. destruct Elater as (c' & Hc' & Hbox').
        rewrite (Hin c' Hc' Hbox').
        assert (c' = c).
        { unfold in_box in Hbox, Hbox'. cbn [fst snd] in Hbox, Hbox'.
          rewrite Hw in Hbox, Hbox'. lia. }
        subst c'. reflexivity.
      * rewrite Hout.
        -- cbn [getpixel paste]. rewrite Hbox. reflexivity.
        -- intros c' Hc'.
           destruct (in_box frame (c' * 32, row * 40) i j) eqn:B; [|reflexivity].
           assert (existsb (fun c' => in_box frame (c' * 32, row * 40) i j) cols
                   = true) by (apply existsb_exists; eauto).
           congruence.
    + intros Hnone. rewrite Hout.
      * cbn [getpixel paste]. rewrite (Hnone c (or_introl eq_refl)). reflexivity.
      * intros c' Hc'. apply Hnone. right. exact Hc'.
Qed.

(** One direction: its row of the sheet shows its frame in every column,
    the other rows are left as they were, and one line is printed. *)
Lemma compose_row_exact (prefix : string) (row : Z) (d : string)
  (sheet : Image) (w w0 : World) :
  files w = files w0 ->
  (forall img, files w0 (sprite_path prefix d) = Some img ->
               loadable img WALK_FRAME_SIZE = true) ->
  exists sheet' w',
    compose_row lanczos alpha_over prefix WALK_FRAME_SIZE WALK_FRAMES_PER_DIR
      (row, d) sheet w = Ok (sheet', w')
    /\ files w' = files w0
    /\ stdout w' = (stdout w ++ [console_line w0 prefix (row, d)])%list
    /\ size sheet' = size sheet
    /\ (forall col, 0 <= col < 8 ->
          cell_shows sheet' row col (frame_for lanczos alpha_over w0 prefix d))
    /\ (forall i j, ~ (40 * row <= j < 40 * row + 40) ->
          getpixel sheet' i j = getpixel sheet i j).
Proof.
  intros Hfiles Hload.
  assert (Hcells : forall (frame sheet' : Image),
    size frame = (32, 40) ->
    (forall i j,
         (forall col, In col (range WALK_FRAMES_PER_DIR) ->
            in_box frame (col * 32, row * 40) i j = true ->
            getpixel sheet' i j = getpixel frame (i - col * 32) (j - row * 40))
         /\ ((forall col, In col (range WALK_FRAMES_PER_DIR) ->
                in_box frame (col * 32, row * 40) i j = false) ->
             getpixel sheet' i j = getpixel sheet i j)) ->
    (forall col, 0 <= col < 8 -> cell_shows sheet' row col frame)
    /\ (forall i j, ~ (40 * row <= j < 40 * row + 40) ->
          getpixel sheet' i j = getpixel sheet i j)).
  { intros frame sheet' Hsize Hpx. injection Hsize as Hw Hh. split.
    - intros col Hcol a b Ha Hb.
      destruct (Hpx (32 * col + a) (40 * row + b)) as (Hin & _).
      rewrite (Hin col (in_range_8 col Hcol)).
      + f_equal; lia.
      + unfold in_box. cbn [fst snd]. rewrite Hw, Hh. lia.
    - intros i j Hj. destruct (Hpx i j) as (_ & Hout). apply Hout.
      intros col _. unfold in_box. cbn [fst snd]. rewrite Hh. lia. }
  unfold compose_row, tile_row, console_line, frame_for.
  unfold bind at 1. unfold path_exists. rewrite Hfiles.
  destruct (files w0 (sprite_path prefix d)) as [img|] eqn:Efile; cbn [negb].
  - specialize (Hload img eq_refl). unfold loadable in Hload.
    apply andb_true_iff in Hload. destruct Hload as (_ & Hload).
    destruct (scaled_size (width img) (height img) WALK_FRAME_SIZE)
      as [[nw nh]|e] eqn:Escale; [|discriminate].
    apply andb_true_iff in Hload. destruct Hload as (Hnw & Hnh).
    apply Z.leb_le in Hnw, Hnh.
    destruct (load_and_resize_frame (sprite_path prefix d)
                WALK_FRAME_SIZE w0 img nw nh Efile) as (frame & E0 & Hsz & _);
      try assumption; try (cbn; lia).
    assert (E1 : load_and_resize lanczos alpha_over (sprite_path prefix d)
                   WALK_FRAME_SIZE w = Ok (frame, w)).
    { rewrite (load_and_resize_same_file _ _ w0 w), E0; [reflexivity|].
      rewrite Hfiles. reflexivity. }
    rewrite E0. unfold bind at 1. unfold bind at 1. rewrite E1.
    unfold bind at 1. cbn [print ret].
    set (w1 := Build_World _ _).
    destruct (tile_row_exact frame row w1 Hsz
                (range WALK_FRAMES_PER_DIR) sheet) as (sheet' & E & Hs & Hpx).
    cbn [WALK_FRAME_SIZE fst snd].
    exists sheet', w1. split; [exact E|]. split; [exact Hfiles|].
    split; [reflexivity|]. split; [exact Hs|].
    apply Hcells; assumption.
  - unfold bind at 1. unfold bind at 1.
    cbn [print lift Image_new WALK_FRAME_SIZE fst snd Z.ltb Z.compare orb].
    set (w1 := Build_World _ _).
    destruct (tile_row_exact empty_frame row w1 eq_refl
                (range WALK_FRAMES_PER_DIR) sheet) as (sheet' & E & Hs & Hpx).
    exists sheet', w1. split; [exact E|]. split; [exact Hfiles|].
    split; [reflexivity|]. split; [exact Hs|].
    apply Hcells; [reflexivity | assumption].
Qed.

Lemma rows_grid (prefix : string) (w0 : World) :
  sprites_loadable w0 prefix ->
  forall entries sheet w,
    (forall e, In e entries -> In (snd e) DIRECTIONS) ->
    NoDup (map fst entries) ->
    files w = files w0 ->
    exists sheet' w',
      for_each entries
        (compose_row lanczos alpha_over prefix WALK_FRAME_SIZE
           WALK_FRAMES_PER_DIR) sheet w = Ok (sheet', w')
      /\ files w' = files w0
      /\ stdout w' = (stdout w ++ map (console_line w0 prefix) entries)%list
      /\ size sheet' = size sheet
      /\ (forall row d, In (row, d) entries ->
            forall col, 0 <= col < 8 ->
              cell_shows sheet' row col
                (frame_for lanczos alpha_over w0 prefix d))
      /\ (forall i j,
            (forall row d, In (row, d) entries ->
                           ~ (40 * row <= j < 40 * row + 40)) ->
            getpixel sheet' i j = getpixel sheet i j).
Proof.
  intros Hload.
  induction entries as [|[row d] rest IH]; intros sheet w Hdirs Hnodup Hfiles.
  - exists sheet, w. cbn [for_each map]. rewrite app_nil_r.
    repeat split; auto. intros row d [].
  - cbn [for_each]. unfold bind at 1.
    destruct (compose_row_exact prefix row d sheet w w0 Hfiles)
      as (sheet1 & w1 & E1 & Hf1 & Ho1 & Hs1 & Hc1 & Hp1).
    { intros img Himg. apply (Hload d img); [|exact Himg].
      apply (Hdirs (row, d)). left. reflexivity. }
    rewrite E1. cbn [map] in Hnodup. apply NoDup_cons_iff in Hnodup.
    destruct Hnodup as (Hfresh & Hnodup).
    destruct (IH sheet1 w1) as (sheet' & w' & E & Hf & Ho & Hs & Hc & Hp);
      [intros e He; apply Hdirs; right; exact He | exact Hnodup | exact Hf1|].
    exists sheet', w'. split; [exact E|]. split; [exact Hf|].
    split; [rewrite Ho, Ho1, <- app_assoc; reflexivity|].
    split; [rewrite Hs; exact Hs1|]. split.
    + intros row' d' [Heq | Hin] col Hcol; [|apply Hc; assumption].
      injection Heq as <- <-. intros a b Ha Hb.
      rewrite Hp; [apply Hc1; assumption|].
      intros row' d' Hin Hband. apply Hfresh.
      assert (row' = row) by lia. subst row'.
      apply (in_map fst) in Hin. exact Hin.
    + intros i j Hout. rewrite Hp.
      * apply Hp1. apply (Hout row d). left. reflexivity.
      * intros row' d' Hin. apply (Hout row' d'). right. exact Hin.
Qed.

(* The cells of a finished sheet. *)
Lemma sheet_grid (prefix output_name : string) (w : World) :
  sprites_loadable w prefix ->
  exists w' sheet,
    create_spritesheet lanczos alpha_over prefix output_name
      WALK_FRAME_SIZE WALK_FRAMES_PER_DIR w
    = Ok (OUTPUT_DIR ++ "/" ++ output_name, w')
    /\ files w' (OUTPUT_DIR ++ "/" ++ output_name) = Some sheet
    /\ (forall row d col, In (row, d) (enumerate DIRECTIONS) -> 0 <= col < 8 ->
          cell_shows sheet row col (frame_for lanczos alpha_over w prefix d))
    /\ (forall row col, 0 <= row < 8 -> 0 <= col < 8 ->
          forall a b, 0 <= a < 32 -> 0 <= b < 40 ->
            getpixel sheet (32 * col + a) (40 * row + b)
            = getpixel sheet a (40 * row + b)).
Proof.
  intros Hload. unfold create_spritesheet. cbv zeta. unfold bind at 1.
  set (blank := Build_Image 256 320 (fun _ _ => transparent)).
  change (lift (Image_new (fst WALK_FRAME_SIZE * WALK_FRAMES_PER_DIR,
                           snd WALK_FRAME_SIZE * 8) transparent) w)
    with (Ok (blank, w)).
  unfold bind at 1.
  destruct (rows_grid prefix w Hload (enumerate DIRECTIONS) blank w)
    as (sheet & w1 & E & Hf & Ho & Hs & Hc & Hp).
  { intros [row d] He. apply in_enumerate in He. destruct He as (_ & He).
    apply nth_error_In in He. exact He. }
  { vm_compute. repeat (constructor; [cbn; intuition discriminate|]).
    constructor. }
  { reflexivity. }
  rewrite E. unfold bind at 1. cbn [save]. unfold bind at 1. cbn [print ret].
  eexists _, sheet. split; [reflexivity|]. cbn [files].
  rewrite String.eqb_refl. split; [reflexivity|]. split.
  - intros row d col Hin Hcol. apply Hc; assumption.
  - intros row col Hrow Hcol a b Ha Hb.
    destruct (all_rows_present (40 * row + b)) as (row' & d & Hin & Hband);
      [lia|].
    assert (row' = row) by lia. subst row'.
    rewrite (Hc row d Hin col Hcol a b Ha Hb).
    pose proof (Hc row d Hin 0 ltac:(lia) a b Ha Hb) as H0.
    rewrite Z.mul_0_r, Z.add_0_l in H0. rewrite H0. reflexivity.
Qed.

(** ** The whole run *)

(** The two calls of the script, with what each leaves behind. *)
Lemma main_runs (argv : list string) (w : World) :
  sprites_loadable w (argv_prefix argv) ->
  let prefix := argv_prefix argv in
  let walk := OUTPUT_DIR ++ "/" ++ prefix ++ "_walk.png" in
  let idle := OUTPUT_DIR ++ "/" ++ prefix ++ "_idle.png" in
  exists w' walk_sheet idle_sheet,
    main lanczos alpha_over argv w = Ok ((walk, idle), w')
    /\ files w' walk = Some walk_sheet
    /\ files w' idle = Some idle_sheet
    /\ (forall p, p <> walk -> p <> idle -> files w' p = files w p)
    /\ size walk_sheet = (256, 320) /\ size idle_sheet = (256, 320)
    /\ (forall row d col, In (row, d) (enumerate DIRECTIONS) -> 0 <= col < 8 ->
          cell_shows walk_sheet row col
            (frame_for lanczos alpha_over w prefix d)
          /\ cell_shows idle_sheet row col
               (frame_for lanczos alpha_over w prefix d)).
Proof.
  intros Hload. cbv zeta. unfold main. cbv zeta.
  set (prefix := argv_prefix argv) in *.
  unfold bind at 1. cbn [print].
  set (w0 := Build_World _ _).
  assert (Hload0 : sprites_loadable w0 prefix) by exact Hload.
  destruct (create_spritesheet_spec lanczos alpha_over prefix
              (prefix ++ "_walk.png") w0 Hload0)
    as (w1 & E1 & (ws & Hws & Hwsize & _) & Hframe1).
  destruct (sheet_grid prefix (prefix ++ "_walk.png") w0 Hload0)
    as (w1' & ws' & E1' & Hws' & Hgrid1 & _).
  rewrite E1 in E1'. injection E1' as <-.
  rewrite Hws in Hws'. injection Hws' as <-.
  unfold bind at 1. rewrite E1.
  assert (Hsame : forall d, In d DIRECTIONS ->
            files w1 (sprite_path prefix d) = files w (sprite_path prefix d)).
  { intros d Hd. apply Hframe1.
    apply (sprite_path_not_sheet prefix "walk" d); cbn; auto. }
  assert (Hload1 : sprites_loadable w1 prefix).
  { intros d img Hd Himg. apply (Hload d img Hd).
    rewrite <- (Hsame d Hd). exact Himg. }
  destruct (create_spritesheet_spec lanczos alpha_over prefix
              (prefix ++ "_idle.png") w1 Hload1)
    as (w2 & E2 & (isheet & His & Hisize & _) & Hframe2).
  destruct (sheet_grid prefix (prefix ++ "_idle.png") w1 Hload1)
    as (w2' & isheet' & E2' & His' & Hgrid2 & _).
  rewrite E2 in E2'. injection E2' as <-.
  rewrite His in His'. injection His' as <-.
  unfold bind at 1. change IDLE_FRAME_SIZE with WALK_FRAME_SIZE.
  change IDLE_FRAMES_PER_DIR with WALK_FRAMES_PER_DIR. rewrite E2.
  unfold bind at 1. cbn [print]. unfold bind at 1. cbn [print].
  unfold bind at 1. cbn [print ret].
  eexists _, ws, isheet. split; [reflexivity|]. cbn [files].
  split; [rewrite (Hframe2 _ (walk_not_idle prefix)); exact Hws|].
  split; [exact His|].
  split; [intros p Hp1 Hp2; rewrite (Hframe2 p Hp2); apply (Hframe1 p Hp1)|].
  split; [exact Hwsize|]. split; [exact Hisize|].
  intros row d col Hin Hcol. split.
  - rewrite <- (frame_for_same_file prefix d w w0 eq_refl).
    apply Hgrid1; assumption.
  - rewrite <- (frame_for_same_file prefix d w w1).
    + apply Hgrid2; assumption.
    + apply Hsame. apply in_enumerate in Hin. destruct Hin as (_ & Hin).
      apply nth_error_In in Hin. exact Hin.
Qed.


(** ** A sprite that cannot be resized *)

Lemma for_each_app {S A V} (xs ys : list A) (body : A -> V -> M S V) (v : V)
  (s : S) :
  for_each (xs ++ ys) body v s
  = (v' <- for_each xs body v ;; for_each ys body v') s.
Proof.
  revert v s. induction xs as [|x xs IH]; intros v s; [reflexivity|].
  cbn [app for_each]. unfold bind.
  destruct (body x v s) as [[v1 s1]|e]; [|reflexivity].
  rewrite IH. reflexivity.
Qed.

(* The rows before the failing one are composed as usual. *)
Lemma rows_run (prefix : string) (w0 : World) (entries : list (Z * string)) :
  (forall e img, In e entries ->
     files w0 (sprite_path prefix (snd e)) = Some img ->
     loadable img WALK_FRAME_SIZE = true) ->
  forall sheet w,
    files w = files w0 ->
    exists sheet' w',
      for_each entries
        (compose_row lanczos alpha_over prefix WALK_FRAME_SIZE
           WALK_FRAMES_PER_DIR) sheet w = Ok (sheet', w')
      /\ files w' = files w0.
Proof.
  induction entries as [|[row d] rest IH]; intros Hload sheet w Hfiles.
  - exists sheet, w. split; [reflexivity | exact Hfiles].
  - cbn [for_each]. unfold bind at 1.
    destruct (compose_row_exact prefix row d sheet w w0 Hfiles)
      as (sheet1 & w1 & E1 & Hf1 & _).
    { intros img Himg. apply (Hload (row, d) img); [left; reflexivity|].
      exact Himg. }
    rewrite E1. apply IH; [|exact Hf1].
    intros e img He. apply Hload. right. exact He.
Qed.

(* The row of a sprite that is too thin or too flat raises. *)
Lemma compose_row_raises (prefix : string) (row : Z) (d : string)
  (sheet img : Image) (w w0 : World) (nw nh : Z) :
  files w = files w0 ->
  files w0 (sprite_path prefix d) = Some img ->
  scaled_size (width img) (height img) WALK_FRAME_SIZE = Ok (nw, nh) ->
  nw < 1 \/ nh < 1 ->
  compose_row lanczos alpha_over prefix WALK_FRAME_SIZE WALK_FRAMES_PER_DIR
    (row, d) sheet w = Raise ValueError.
Proof.
  intros Hfiles Hfile Hscale Hsmall. rewrite <- Hfiles in Hfile.
  unfold compose_row. unfold bind at 1. unfold path_exists. rewrite Hfile.
  cbn [negb]. unfold bind at 1. unfold bind at 1.
  rewrite (load_and_resize_raises (sprite_path prefix d) WALK_FRAME_SIZE w
             img nw nh Hfile); try assumption; try (cbn; lia).
  reflexivity.
Qed.

Lemma enumerate_split (k : nat) (d : string) :
  nth_error DIRECTIONS k = Some d ->
  enumerate DIRECTIONS
  = (firstn k (enumerate DIRECTIONS)
       ++ (Z.of_nat k, d) :: skipn (S k) (enumerate DIRECTIONS))%list
    /\ forall e, In e (firstn k (enumerate DIRECTIONS)) ->
                 In (snd e) (firstn k DIRECTIONS).
Proof.
  intros Hk.
  do 8 (destruct k as [|k];
        [injection Hk as <-; split; [reflexivity|];
         intros e He; cbn in He; cbn;
         repeat (destruct He as [<- | He]; [cbn; auto 10|]); destruct He|]).
  destruct k; discriminate Hk.
Qed.

Lemma create_spritesheet_raises (prefix output_name : string) (w : World)
  (k : nat) (d : string) (img : Image) (nw nh : Z) :
  nth_error DIRECTIONS k = Some d ->
  (forall d' img', In d' (firstn k DIRECTIONS) ->
     files w (sprite_path prefix d') = Some img' ->
     loadable img' WALK_FRAME_SIZE = true) ->
  files w (sprite_path prefix d) = Some img ->
  scaled_size (width img) (height img) WALK_FRAME_SIZE = Ok (nw, nh) ->
  nw < 1 \/ nh < 1 ->
  create_spritesheet lanczos alpha_over prefix output_name
    WALK_FRAME_SIZE WALK_FRAMES_PER_DIR w = Raise ValueError.
Proof.
  intros Hk Hbefore Hfile Hscale Hsmall.
  destruct (enumerate_split k d Hk) as (Esplit & Hin).
  unfold create_spritesheet. cbv zeta. unfold bind at 1.
  set (blank := Build_Image 256 320 (fun _ _ => transparent)).
  change (lift (Image_new (fst WALK_FRAME_SIZE * WALK_FRAMES_PER_DIR,
                           snd WALK_FRAME_SIZE * 8) transparent) w)
    with (Ok (blank, w)).
  unfold bind at 1. rewrite Esplit, for_each_app. unfold bind at 1.
  destruct (rows_run prefix w (firstn k (enumerate DIRECTIONS)))
    with (sheet := blank) (w := w) as (sheet1 & w1 & E1 & Hf1);
    [|reflexivity|].
  { intros e img' He. apply Hbefore. apply Hin. exact He. }
  rewrite E1. cbn [for_each]. unfold bind at 1.
  rewrite (compose_row_raises prefix (Z.of_nat k) d sheet1 img w1 w nw nh);
    auto.
Qed.


End Sheets.

(* The directory of the examples below: a 64 by 80 south sprite and
   nothing else; every sprite it holds can be loaded. *)
Ltac south_loadable :=
  let d := fresh "d" in let img := fresh "img" in
  let Hd := fresh "Hd" in let Hfile := fresh "Hfile" in
  intros d img Hd Hfile; cbn in Hd;
  destruct Hd as [<-|[<-|[<-|[<-|[<-|[<-|[<-|[<-|[]]]]]]]]];
    vm_compute in Hfile; try discriminate Hfile;
  injection Hfile as <-; vm_compute; reflexivity.




End SpritesMore.

(* ===================================================================== *)
(** * The generator on an operating system *)
(* ===================================================================== *)

Module StageOSProps.
Import Py Random Stage StageSpec StageDetail Rules StageFacts StageProps.
Import StageMore.
#[local] Open Scope py_scope.

Section OperatingSystem.

Variable D : Type.
Variable os_makedirs : string -> D -> Result D.
Variable os_write : string -> Template -> D -> Result D.


(** ** A run is its calls, performed *)

Lemma perform_app (xs ys : list Effect) (d : D) :
  StageOS.perform os_makedirs os_write (xs ++ ys) d
  = match StageOS.perform os_makedirs os_write xs d with
    | Ok d' => StageOS.perform os_makedirs os_write ys d'
    | Raise e => Raise e
    end.
Proof.
  revert d. induction xs as [|x xs IH]; intros d; [reflexivity|].
  destruct x as [p | p doc | line | doc]; cbn [app StageOS.perform].
  - destruct (os_makedirs p d); [apply IH | reflexivity].
  - destruct (os_write p doc d); [apply IH | reflexivity].
  - apply IH.
  - apply IH.
Qed.

(* The loop of [generate_batch]: the calls that the loop of
   [Stage.generate_batch] lists are the calls that the loop makes. *)
Lemma batch_loop_performed (output_dir : string) (l : list Z) :
  forall (generated : list string) (effects : list Effect) (g : Rng),
  exists paths more g',
    for_each l
      (fun i '(generated, out) =>
         template <- generate_nara_template None None None None None ;;
         let filename := doc_name template ++ "-" ++ str (i + 1) ++ ".nara" in
         let filepath := path_join output_dir filename in
         ret ((generated ++ [filepath])%list,
              (out ++ [WriteJson filepath template;
                       PrintLine ("Generated: " ++ filepath)])%list))
      (generated, effects) g
    = Ok ((paths, (effects ++ more)%list), g')
    /\ forall (d : D) (done : list Effect),
         for_each l
           (fun i generated =>
              template <- StageOS.draws
                            (generate_nara_template None None None None None) ;;
              let filename :=
                doc_name template ++ "-" ++ str (i + 1) ++ ".nara" in
              let filepath := path_join output_dir filename in
              StageOS.write_json os_write filepath template ;;;
              let generated := (generated ++ [filepath])%list in
              StageOS.print ("Generated: " ++ filepath) ;;;
              ret generated)
           generated
           {| StageOS.disk := d; StageOS.rng := g; StageOS.done := done |}
         = match StageOS.perform os_makedirs os_write more d with
           | Ok d' => Ok (paths, {| StageOS.disk := d'; StageOS.rng := g';
                                    StageOS.done := (done ++ more)%list |})
           | Raise e => Raise e
           end.
Proof.
  induction l as [|i l IH]; intros generated effects g.
  - exists generated, [], g. cbn [for_each]. unfold ret.
    rewrite app_nil_r. split; [reflexivity|].
    intros d done. cbn [StageOS.perform]. rewrite app_nil_r. reflexivity.
  - destruct (total_generate None None None None None g I)
      as (doc & g1 & Egen & _).
    set (filepath := path_join output_dir
                       (doc_name doc ++ "-" ++ str (i + 1) ++ ".nara")).
    destruct (IH (generated ++ [filepath])%list
                 (effects ++ [WriteJson filepath doc;
                              PrintLine ("Generated: " ++ filepath)])%list g1)
      as (paths & more & g' & Etrace & Hrun).
    exists paths,
      ([WriteJson filepath doc; PrintLine ("Generated: " ++ filepath)]
         ++ more)%list, g'.
    split.
    + match goal with |- for_each (i :: l) ?b _ _ = _ => set (body := b) in * end.
      assert (Estep : body i (generated, effects) g
                      = Ok (((generated ++ [filepath])%list,
                             (effects ++ [WriteJson filepath doc;
                                PrintLine ("Generated: " ++ filepath)])%list),
                            g1)).
      { subst body. cbv beta iota. unfold bind. rewrite Egen. reflexivity. }
      cbn [for_each]. unfold bind at 1. rewrite Estep, Etrace, <- app_assoc.
      reflexivity.
    + intros d done.
      match goal with |- for_each (i :: l) ?b _ _ = _ => set (body := b) in * end.
      cbn [for_each StageOS.perform app]. unfold bind at 1.
      destruct (os_write filepath doc d) as [d1|e] eqn:Ewrite.
      * assert (Estep : body i generated
                   {| StageOS.disk := d; StageOS.rng := g; StageOS.done := done |}
                 = Ok ((generated ++ [filepath])%list,
                       {| StageOS.disk := d1; StageOS.rng := g1;
                          StageOS.done :=
                            ((done ++ [WriteJson filepath doc])
                               ++ [PrintLine ("Generated: " ++ filepath)])%list |})).
        { subst body. cbv beta. unfold bind, StageOS.draws, StageOS.write_json,
            StageOS.print, ret.
          cbn [StageOS.rng StageOS.disk StageOS.done].
          rewrite Egen. cbv zeta.
          change (path_join output_dir
                    (doc_name doc ++ "-" ++ str (i + 1) ++ ".nara"))
            with filepath.
          cbn [StageOS.rng StageOS.disk StageOS.done].
          rewrite Ewrite. reflexivity. }
        rewrite Estep, Hrun. rewrite <- !app_assoc. reflexivity.
      * assert (Estep : body i generated
                   {| StageOS.disk := d; StageOS.rng := g; StageOS.done := done |}
                 = Raise e).
        { subst body. cbv beta. unfold bind, StageOS.draws, StageOS.write_json.
          cbn [StageOS.rng StageOS.disk StageOS.done].
          rewrite Egen. cbv zeta.
          change (path_join output_dir
                    (doc_name doc ++ "-" ++ str (i + 1) ++ ".nara"))
            with filepath.
          cbn [StageOS.rng StageOS.disk StageOS.done].
          rewrite Ewrite. reflexivity. }
        rewrite Estep. reflexivity.
Qed.

Lemma batch_performed (count : Z) (output_dir : string) (m : StageOS.Machine D) :
  StageOS.generate_batch os_makedirs os_write count output_dir m
  = match Stage.generate_batch count output_dir (StageOS.rng m) with
    | Ok ((paths, effects), g) =>
        match StageOS.perform os_makedirs os_write effects (StageOS.disk m) with
        | Ok d => Ok (paths, {| StageOS.disk := d; StageOS.rng := g;
                                StageOS.done := (StageOS.done m ++ effects)%list |})
        | Raise e => Raise e
        end
    | Raise e => Raise e
    end.
Proof.
  unfold StageOS.generate_batch, Stage.generate_batch.
  destruct (batch_loop_performed output_dir (range count) []
              [MakeDirs output_dir] (StageOS.rng m))
    as (paths & more & g' & Etrace & Hrun).
  cbv zeta in Etrace, Hrun.
  rewrite Etrace. cbn [app StageOS.perform].
  unfold bind at 1. unfold StageOS.makedirs at 1.
  destruct (os_makedirs output_dir (StageOS.disk m)) as [d1|e]; [|reflexivity].
  rewrite Hrun. rewrite <- app_assoc. reflexivity.
Qed.

Lemma main_performed (args : Args) (m : StageOS.Machine D) :
  StageOS.main os_makedirs os_write args m
  = match Stage.main args (StageOS.rng m) with
    | Ok (effects, g) =>
        match StageOS.perform os_makedirs os_write effects (StageOS.disk m) with
        | Ok d => Ok (tt, {| StageOS.disk := d; StageOS.rng := g;
                             StageOS.done := (StageOS.done m ++ effects)%list |})
        | Raise e => Raise e
        end
    | Raise e => Raise e
    end.
Proof.
  unfold StageOS.main, Stage.main. cbv zeta.
  destruct (arg_stdout args).
  - unfold bind. unfold StageOS.draws at 1.
    destruct (generate_nara_template _ _ _ _ _ (StageOS.rng m))
      as [[doc g]|e]; reflexivity.
  - destruct ((arg_count args =? 1) && truthy (arg_name args)).
    + unfold bind, StageOS.draws, StageOS.makedirs, StageOS.write_json,
        StageOS.print, ret.
      cbn [StageOS.rng StageOS.disk StageOS.done].
      destruct (generate_nara_template _ _ _ _ _ (StageOS.rng m))
        as [[doc g]|e]; [|reflexivity].
      cbn [StageOS.perform StageOS.rng StageOS.disk StageOS.done].
      destruct (os_makedirs (arg_output args) (StageOS.disk m)) as [d1|e];
        [|reflexivity].
      cbn [StageOS.rng StageOS.disk StageOS.done].
      destruct (os_write _ doc d1) as [d2|e]; [|reflexivity].
      cbn [StageOS.rng StageOS.disk StageOS.done].
      rewrite <- !app_assoc. reflexivity.
    + unfold bind at 1. rewrite batch_performed. unfold bind at 1.
      destruct (Stage.generate_batch _ _ _) as [[[paths effects] g]|e];
        [|reflexivity].
      cbn [snd]. unfold ret.
      destruct (StageOS.perform os_makedirs os_write effects (StageOS.disk m));
        reflexivity.
Qed.

(** X26. A run of the CLI on an operating system is the list of calls of
    [Stage.main], performed one after the other until the first that is
    refused: which calls are made, with which documents, does not depend
    on what the file system answers.  The same holds of a batch. *)
Theorem X26_run_is_calls_performed (args : Args) (count : Z)
  (output_dir : string) (m : StageOS.Machine D) :
  StageOS.main os_makedirs os_write args m
  = match Stage.main args (StageOS.rng m) with
    | Ok (effects, g) =>
        match StageOS.perform os_makedirs os_write effects (StageOS.disk m) with
        | Ok d => Ok (tt, {| StageOS.disk := d; StageOS.rng := g;
                             StageOS.done := (StageOS.done m ++ effects)%list |})
        | Raise e => Raise e
        end
    | Raise e => Raise e
    end
  /\ StageOS.generate_batch os_makedirs os_write count output_dir m
     = match Stage.generate_batch count output_dir (StageOS.rng m) with
       | Ok ((paths, effects), g) =>
           match StageOS.perform os_makedirs os_write effects
                   (StageOS.disk m) with
           | Ok d => Ok (paths, {| StageOS.disk := d; StageOS.rng := g;
                                   StageOS.done :=
                                     (StageOS.done m ++ effects)%list |})
           | Raise e => Raise e
           end
       | Raise e => Raise e
       end.
Proof. split; [apply main_performed | apply batch_performed]. Qed.

(** ** Batches *)

(** X12. A batch of zero or fewer documents asks for the output directory
    and does nothing else.  Where [os.makedirs] raises (on the empty path,
    on a file in the way, without permission) the batch raises that error;
    where it returns, the batch returns the empty list: no document is
    generated, no draw is consumed, nothing is written or printed. *)
Theorem X12_empty_batch (count : Z) (output_dir : string)
  (m : StageOS.Machine D) :
  count <= 0 ->
  StageOS.generate_batch os_makedirs os_write count output_dir m
  = match os_makedirs output_dir (StageOS.disk m) with
    | Ok d => Ok ([], {| StageOS.disk := d; StageOS.rng := StageOS.rng m;
                         StageOS.done :=
                           (StageOS.done m ++ [MakeDirs output_dir])%list |})
    | Raise e => Raise e
    end.
Proof.
  intros Hcount. unfold StageOS.generate_batch, range.
  replace (Z.to_nat count) with 0%nat by lia.
  cbn [seq map for_each]. unfold bind, StageOS.makedirs, ret.
  destruct (os_makedirs output_dir (StageOS.disk m)); reflexivity.
Qed.

(* Files are written by [os_write] alone. *)
Lemma perform_writes (effects : list Effect) :
  made_dirs effects = [] ->
  forall d,
    (forall e, StageOS.perform os_makedirs os_write effects d = Raise e ->
               exists path doc d', os_write path doc d' = Raise e)
    /\ (StageOS.writes_accepted os_write ->
        exists d', StageOS.perform os_makedirs os_write effects d = Ok d').
Proof.
  induction effects as [|x effects IH]; intros Hdirs d.
  - split; [intros e He; discriminate He | intros _; exists d; reflexivity].
  - destruct x as [p | p doc | line | doc];
      cbn [made_dirs StageOS.perform] in *; try discriminate Hdirs.
    + destruct (os_write p doc d) as [d1|e1] eqn:Ew.
      * apply IH. exact Hdirs.
      * split.
        -- intros e He. injection He as <-. eauto.
        -- intros Hacc. destruct (Hacc p doc d) as (d' & Hd').
           rewrite Hd' in Ew. discriminate Ew.
    + apply IH. exact Hdirs.
    + apply IH. exact Hdirs.
Qed.


(** ** The command line *)

(** X16. Without [--stdout], with a count of 1 and a name that is not
    empty, the CLI generates one document, named as asked, and only then
    turns to the file system: it asks for the output directory, writes the
    document to "{name}.nara" under it, and reports the path.  An error of
    [os.makedirs] or of the write ends the run there: a name such as "a/b",
    whose directory nobody made, raises in [open], and nothing is
    reported. *)
Theorem X16_single_named_file (args : Args) (name : string)
  (m : StageOS.Machine D) :
  arg_stdout args = false -> arg_count args = 1 ->
  arg_name args = Some name -> name <> "" ->
  exists doc g,
    doc_name doc = name
    /\ StageOS.main os_makedirs os_write args m
       = match os_makedirs (arg_output args) (StageOS.disk m) with
         | Raise e => Raise e
         | Ok d1 =>
             match os_write (path_join (arg_output args) (name ++ ".nara"))
                     doc d1 with
             | Raise e => Raise e
             | Ok d2 =>
                 Ok (tt,
                     {| StageOS.disk := d2; StageOS.rng := g;
                        StageOS.done :=
                          (StageOS.done m
                             ++ [MakeDirs (arg_output args);
                                 WriteJson (path_join (arg_output args)
                                              (name ++ ".nara")) doc;
                                 PrintLine
                                   ("Generated: "
                                    ++ path_join (arg_output args)
                                         (name ++ ".nara"))])%list |})
             end
         end.
Proof.
  intros Hout Hcount Hname Hne.
  assert (Hrun : direct_run args).
  { right. split; [exact Hout|]. split; [exact Hcount|]. eauto. }
  rewrite main_performed, (main_direct args Hrun), Hout, Hname.
  destruct (total_generate (Some name)
              (forced (arg_sidebar args) (arg_no_sidebar args))
              (forced (arg_footer args) (arg_no_footer args))
              (if arg_labels args then Some true else None)
              (arg_layout args) (StageOS.rng m) I)
    as (doc & g & E & _ & _ & Hn & _).
  exists doc, g. split; [exact Hn|].
  unfold bind. rewrite E. unfold ret. cbn [StageOS.perform].
  destruct (os_makedirs (arg_output args) (StageOS.disk m)) as [d1|e];
    [|reflexivity].
  destruct (os_write _ doc d1); reflexivity.
Qed.

End OperatingSystem.

(** X12 on the empty path, which [os.makedirs] refuses. *)
Lemma X12_empty_batch_witness :
  -3 <= 0
  /\ StageOS.generate_batch StageOS.tree_makedirs StageOS.tree_write (-3) ""
       (StageOS.fresh (fun _ => 5%N))
     = Raise FileNotFoundError.
Proof.
  split; [lia|].
  exact (X12_empty_batch StageOS.Tree StageOS.tree_makedirs StageOS.tree_write
           (-3) "" (StageOS.fresh (fun _ => 5%N)) ltac:(lia)).
Defined.

(** X16 on [--name a/b --output out]: the directory "out" is made, the
    directory "out/a" is not, and the write raises. *)
Lemma X16_single_named_file_witness :
  (arg_stdout StageOS.cli_nested = false
   /\ arg_count StageOS.cli_nested = 1
   /\ arg_name StageOS.cli_nested = Some "a/b" /\ "a/b" <> "")
  /\ exists doc,
      doc_name doc = "a/b"
      /\ StageOS.main StageOS.tree_makedirs StageOS.tree_write
           StageOS.cli_nested (StageOS.fresh (fun _ => 5%N))
         = Raise FileNotFoundError.
Proof.
  split; [repeat split; discriminate|].
  pose proof (X16_single_named_file StageOS.Tree StageOS.tree_makedirs
                StageOS.tree_write StageOS.cli_nested "a/b"
                (StageOS.fresh (fun _ => 5%N))
                eq_refl eq_refl eq_refl ltac:(discriminate)) as Hx.
  destruct Hx as (doc & g & Hname & Hrun).
  exists doc. split; [exact Hname|].
  rewrite Hrun. vm_compute. reflexivity.
Defined.

End StageOSProps.

(* ===================================================================== *)
(** * The compositor on an operating system *)
(* ===================================================================== *)

Module SpritesOSProps.
Import Py Sprites SpritesSpec SpritesDetail Rules SpritesProps SpritesMore.
Import SpritesOS.
#[local] Open Scope py_scope.

(** ** The run on a disk follows the run on its pictures *)

Lemma follows_ret {A} (d : Disk) (a : A) : follows d (ret a) (ret a).
Proof. intros c. cbn. auto. Qed.

Lemma follows_lift {A} (d : Disk) (r : Result A) :
  follows d (lift r) (lift r).
Proof. intros c. destruct r; cbn; auto. Qed.

Lemma follows_print (d : Disk) (line : string) :
  follows d (Sprites.print line) (SpritesOS.print line).
Proof. intros c. cbn. auto. Qed.

Lemma follows_bind {A B} (d : Disk) (m : Sprites.IO A) (m' : SpritesOS.IO A)
  (k : A -> Sprites.IO B) (k' : A -> SpritesOS.IO B) :
  follows d m m' -> (forall a, follows d (k a) (k' a)) ->
  follows d (bind m k) (bind m' k').
Proof.
  intros Hm Hk c. specialize (Hm c). unfold bind.
  destruct (m _) as [[a [fw sw]]|e].
  - destruct Hm as (Hf & Hn). rewrite Hn. cbn in Hf. subst fw.
    exact (Hk a sw).
  - rewrite Hm. reflexivity.
Qed.

Lemma follows_for_each {A V} (d : Disk) (l : list A)
  (body : A -> V -> Sprites.IO V) (body' : A -> V -> SpritesOS.IO V) :
  (forall x v, In x l -> follows d (body x v) (body' x v)) ->
  forall v, follows d (for_each l body v) (for_each l body' v).
Proof.
  induction l as [|x l IH]; intros Hbody v; cbn [for_each].
  - apply follows_ret.
  - apply follows_bind; [apply Hbody; left; reflexivity|].
    intros v'. apply IH. intros y w Hy. apply Hbody. right. exact Hy.
Qed.

Lemma follows_path_exists (d : Disk) (path : string) :
  (forall e, entries d path = Some e -> exists img, e = Picture img) ->
  follows d (Sprites.path_exists path) (SpritesOS.path_exists path).
Proof.
  intros Hpic c. unfold Sprites.path_exists, SpritesOS.path_exists, pictures.
  cbn [files entries with_console stdout].
  destruct (entries d path) as [e|] eqn:E; [|auto].
  destruct (Hpic e eq_refl) as (img & ->). auto.
Qed.

Lemma follows_Image_open (d : Disk) (path : string) :
  (forall e, entries d path = Some e ->
     exists img, e = Picture img
                 /\ width img * height img <= 2 * MAX_IMAGE_PIXELS) ->
  follows d (Sprites.Image_open path) (SpritesOS.Image_open path).
Proof.
  intros Hpic c. unfold Sprites.Image_open, SpritesOS.Image_open, pictures.
  cbn [files entries with_console stdout].
  destruct (entries d path) as [e|] eqn:E; [|reflexivity].
  destruct (Hpic e eq_refl) as (img & -> & Hsize).
  destruct (Z.ltb_spec (2 * MAX_IMAGE_PIXELS) (width img * height img));
    [lia | auto].
Qed.

Section Sheets.

Variable lanczos : Image -> Z * Z -> Z -> Z -> Pixel.
Variable alpha_over : Pixel -> Pixel -> Pixel -> Pixel.

Lemma follows_load_and_resize (d : Disk) (path : string)
  (target_size : Z * Z) :
  (forall e, entries d path = Some e ->
     exists img, e = Picture img
                 /\ width img * height img <= 2 * MAX_IMAGE_PIXELS) ->
  follows d (Sprites.load_and_resize lanczos alpha_over path target_size)
            (SpritesOS.load_and_resize lanczos alpha_over path target_size).
Proof.
  intros Hpic. unfold Sprites.load_and_resize, SpritesOS.load_and_resize.
  apply follows_bind; [apply follows_Image_open; exact Hpic|]. intros img.
  apply follows_bind; [apply follows_lift|]. intros canvas.
  apply follows_bind; [apply follows_lift|]. intros new_size.
  apply follows_bind; [apply follows_lift|]. intros resized.
  apply follows_ret.
Qed.

Lemma follows_tile_row (d : Disk) (frame : Image) (frame_size : Z * Z)
  (frames_per_dir row : Z) (sheet : Image) :
  follows d
    (Sprites.tile_row alpha_over frame frame_size frames_per_dir row sheet)
    (SpritesOS.tile_row alpha_over frame frame_size frames_per_dir row sheet).
Proof.
  unfold Sprites.tile_row, SpritesOS.tile_row.
  apply follows_for_each. intros col sh _. apply follows_ret.
Qed.

Lemma follows_compose_row (d : Disk) (prefix : string) (frame_size : Z * Z)
  (frames_per_dir : Z) (entry : Z * string) (sheet : Image) :
  (forall e, entries d (sprite_path prefix (snd entry)) = Some e ->
     exists img, e = Picture img
                 /\ width img * height img <= 2 * MAX_IMAGE_PIXELS) ->
  follows d
    (Sprites.compose_row lanczos alpha_over prefix frame_size frames_per_dir
       entry sheet)
    (SpritesOS.compose_row lanczos alpha_over prefix frame_size
       frames_per_dir entry sheet).
Proof.
  destruct entry as [row direction]. cbn [snd]. intros Hpic.
  unfold Sprites.compose_row, SpritesOS.compose_row.
  apply follows_bind.
  { apply follows_path_exists. intros e He.
    destruct (Hpic e He) as (img & -> & _). eauto. }
  intros present. apply follows_bind; [|intros frame; apply follows_tile_row].
  destruct (negb present).
  - apply follows_bind; [apply follows_print | intros _; apply follows_lift].
  - apply follows_bind; [apply follows_load_and_resize; exact Hpic|].
    intros frame.
    apply follows_bind; [apply follows_print | intros _; apply follows_ret].
Qed.

(* The sprites that Pillow opens are sprites that [Sprites] loads. *)
Lemma open_loadable (d : Disk) (prefix : string) :
  sprites_open d prefix -> sprites_loadable (world_of d) prefix.
Proof.
  intros Hopen dir img Hdir Hfile. cbn [world_of files] in Hfile.
  unfold pictures in Hfile.
  destruct (entries d (sprite_path prefix dir)) as [e|] eqn:E; [|discriminate].
  destruct (Hopen dir e Hdir E) as (img' & -> & _ & Hload).
  injection Hfile as <-. exact Hload.
Qed.

(** What one call of [create_spritesheet] does: it composes the sheet,
    printing a line per direction, and hands it to the operating system;
    the call returns when the sheet is taken and raises the error of the
    save when it is refused. *)
Lemma create_spritesheet_run (prefix output_name : string) (d : Disk) :
  sprites_open d prefix ->
  exists sheet,
    size sheet = (256, 320)
    /\ (forall row dir col,
          In (row, dir) (enumerate DIRECTIONS) -> 0 <= col < 8 ->
          cell_shows sheet row col
            (frame_for lanczos alpha_over (world_of d) prefix dir))
    /\ SpritesOS.create_spritesheet lanczos alpha_over prefix output_name
         WALK_FRAME_SIZE WALK_FRAMES_PER_DIR d
       = match refuses d (OUTPUT_DIR ++ "/" ++ output_name) with
         | Some e => Raise e
         | None =>
             Ok (OUTPUT_DIR ++ "/" ++ output_name,
                 {| entries := fun p =>
                      if String.eqb p (OUTPUT_DIR ++ "/" ++ output_name)
                      then Some (Picture sheet) else entries d p;
                    refuses := refuses d;
                    console :=
                      (console d
                         ++ map (console_line (world_of d) prefix)
                              (enumerate DIRECTIONS)
                         ++ [(String "010" "Created " ++ OUTPUT_DIR ++ "/"
                              ++ output_name ++ " (256×320)")%string])%list |})
         end.
Proof.
  intros Hopen.
  set (blank := Build_Image 256 320 (fun _ _ => transparent)).
  destruct (rows_grid lanczos alpha_over prefix (world_of d)
              (open_loadable d prefix Hopen)
              (enumerate DIRECTIONS) blank (world_of d))
    as (sheet & w1 & E & Hf & Ho & Hs & Hc & _).
  { intros [row dir] He. apply in_enumerate in He. destruct He as (_ & He).
    apply nth_error_In in He. exact He. }
  { vm_compute. repeat (constructor; [cbn; intuition discriminate|]).
    constructor. }
  { reflexivity. }
  exists sheet. split; [rewrite Hs; reflexivity|].
  split; [intros row dir col Hin Hcol; apply Hc; assumption|].
  assert (Hloop : for_each (enumerate DIRECTIONS)
            (SpritesOS.compose_row lanczos alpha_over prefix WALK_FRAME_SIZE
               WALK_FRAMES_PER_DIR) blank d
          = Ok (sheet, with_console d (stdout w1))).
  { pose proof (follows_for_each d (enumerate DIRECTIONS)
                  (Sprites.compose_row lanczos alpha_over prefix
                     WALK_FRAME_SIZE WALK_FRAMES_PER_DIR)
                  (SpritesOS.compose_row lanczos alpha_over prefix
                     WALK_FRAME_SIZE WALK_FRAMES_PER_DIR)) as Hfollow.
    specialize (Hfollow ltac:(
      intros [row dir] v Hin; apply follows_compose_row; cbn [snd];
      intros e He; apply in_enumerate in Hin; destruct Hin as (_ & Hin);
      apply nth_error_In in Hin;
      destruct (Hopen dir e Hin He) as (img & -> & Hsize & _); eauto)
      blank (console d)).
    change {| files := pictures d; stdout := console d |}
      with (world_of d) in Hfollow.
    rewrite E in Hfollow. destruct Hfollow as (_ & Hfollow).
    destruct d as [ents refs cons]. exact Hfollow. }
  unfold SpritesOS.create_spritesheet. cbv zeta. unfold bind at 1.
  change (lift (Image_new (fst WALK_FRAME_SIZE * WALK_FRAMES_PER_DIR,
                           snd WALK_FRAME_SIZE * 8) transparent) d)
    with (Ok (blank, d)).
  unfold bind at 1. rewrite Hloop. unfold bind at 1. unfold SpritesOS.save at 1.
  cbn [with_console refuses entries console].
  destruct (refuses d (OUTPUT_DIR ++ "/" ++ output_name)); [reflexivity|].
  unfold bind at 1. unfold SpritesOS.print at 1. unfold ret.
  cbn [refuses entries console]. rewrite Ho. cbn [world_of stdout].
  rewrite <- app_assoc. reflexivity.
Qed.

(* A row whose sprite is missing shows the empty frame. *)
Lemma missing_row_transparent (prefix : string) (d : Disk) (sheet : Image) :
  (forall row dir col,
      In (row, dir) (enumerate DIRECTIONS) -> 0 <= col < 8 ->
      cell_shows sheet row col
        (frame_for lanczos alpha_over (world_of d) prefix dir)) ->
  forall row dir, In (row, dir) (enumerate DIRECTIONS) ->
                  entries d (sprite_path prefix dir) = None ->
                  row_transparent sheet row.
Proof.
  intros Hcells row dir Hin Hmiss i j Hi Hj.
  assert (Hcol : 0 <= i / 32 < 8).
  { split; [apply Z.div_pos; lia | apply Z.div_lt_upper_bound; lia]. }
  pose proof (Z.div_mod i 32 ltac:(lia)) as Hdiv.
  pose proof (Z.mod_pos_bound i 32 ltac:(lia)) as Hmod.
  pose proof (Hcells row dir (i / 32) Hin Hcol (i mod 32) (j - 40 * row)
                Hmod ltac:(lia)) as Hpx.
  replace (32 * (i / 32) + i mod 32) with i in Hpx by lia.
  replace (40 * row + (j - 40 * row)) with j in Hpx by lia.
  rewrite Hpx. unfold frame_for. cbn [world_of files]. unfold pictures.
  rewrite Hmiss. reflexivity.
Qed.

Lemma cells_sheet_on (prefix path : string) (d d' : Disk) (sheet : Image) :
  entries d' path = Some (Picture sheet) ->
  size sheet = (256, 320) ->
  (forall row dir col,
      In (row, dir) (enumerate DIRECTIONS) -> 0 <= col < 8 ->
      cell_shows sheet row col
        (frame_for lanczos alpha_over (world_of d) prefix dir)) ->
  sheet_on d prefix d' path.
Proof.
  intros Hentry Hsize Hcells. exists sheet.
  split; [exact Hentry|]. split; [exact Hsize|].
  pose proof (missing_row_transparent prefix d sheet Hcells) as Hrow.
  split; [exact Hrow|].
  intros Hall i j Hi Hj.
  destruct (all_rows_present j Hj) as (row & dir & Hin & Hband).
  apply (Hrow row dir Hin); auto.
  apply Hall. apply in_enumerate in Hin. destruct Hin as (_ & Hin).
  apply nth_error_In in Hin. exact Hin.
Qed.

(** What a run of the script does: the walk sheet, then the idle sheet;
    the first save that is refused ends it. *)
Lemma main_run (argv : list string) (d : Disk) :
  sprites_open d (argv_prefix argv) ->
  let prefix := argv_prefix argv in
  exists walk idle lines,
    size walk = (256, 320) /\ size idle = (256, 320)
    /\ (forall row dir col,
          In (row, dir) (enumerate DIRECTIONS) -> 0 <= col < 8 ->
          cell_shows walk row col
            (frame_for lanczos alpha_over (world_of d) prefix dir)
          /\ cell_shows idle row col
               (frame_for lanczos alpha_over (world_of d) prefix dir))
    /\ SpritesOS.main lanczos alpha_over argv d
       = match refuses d (walk_sheet prefix) with
         | Some e => Raise e
         | None =>
             match refuses d (idle_sheet prefix) with
             | Some e => Raise e
             | None =>
                 Ok ((walk_sheet prefix, idle_sheet prefix),
                     {| entries := fun p =>
                          if String.eqb p (idle_sheet prefix)
                          then Some (Picture idle)
                          else if String.eqb p (walk_sheet prefix)
                               then Some (Picture walk)
                               else entries d p;
                        refuses := refuses d;
                        console := lines |})
             end
         end.
Proof.
  intros Hopen. cbv zeta. unfold SpritesOS.main. cbv zeta.
  set (prefix := argv_prefix argv) in *.
  unfold bind at 1. cbn [SpritesOS.print].
  set (d0 := Build_Disk _ _ _).
  assert (Hopen0 : sprites_open d0 prefix) by exact Hopen.
  destruct (create_spritesheet_run prefix (prefix ++ "_walk.png") d0 Hopen0)
    as (walk & Hwsize & Hwcells & Ewalk).
  unfold bind at 1. rewrite Ewalk. clear Ewalk.
  change (OUTPUT_DIR ++ "/" ++ prefix ++ "_walk.png") with (walk_sheet prefix).
  change (refuses d0) with (refuses d).
  set (d1 := Build_Disk _ _ _).
  assert (Hsame : forall dir, In dir DIRECTIONS ->
            entries d1 (sprite_path prefix dir)
            = entries d (sprite_path prefix dir)).
  { intros dir Hdir. cbn [d1 entries].
    destruct (String.eqb_spec (sprite_path prefix dir) (walk_sheet prefix))
      as [E|_]; [|reflexivity].
    exfalso. apply (sprite_path_not_sheet prefix "walk" dir) in E;
      [exact E | cbn; auto | exact Hdir]. }
  assert (Hopen1 : sprites_open d1 prefix).
  { intros dir e Hdir He. rewrite (Hsame dir Hdir) in He.
    apply (Hopen dir e Hdir He). }
  destruct (create_spritesheet_run prefix (prefix ++ "_idle.png") d1 Hopen1)
    as (idle & Hisize & Hicells & Eidle).
  change (OUTPUT_DIR ++ "/" ++ prefix ++ "_idle.png")
    with (idle_sheet prefix) in Eidle.
  change (refuses d1) with (refuses d) in Eidle.
  exists walk, idle.
  eexists. split; [exact Hwsize|]. split; [exact Hisize|].
  split.
  { intros row dir col Hin Hcol. split.
    - rewrite <- (frame_for_same_file lanczos alpha_over prefix dir
                    (world_of d) (world_of d0) eq_refl).
      apply Hwcells; assumption.
    - rewrite <- (frame_for_same_file lanczos alpha_over prefix dir
                    (world_of d) (world_of d1)).
      + apply Hicells; assumption.
      + cbn [world_of files]. unfold pictures. rewrite Hsame; [reflexivity|].
        apply in_enumerate in Hin. destruct Hin as (_ & Hin).
        apply nth_error_In in Hin. exact Hin. }
  destruct (refuses d (walk_sheet prefix)) as [e|]; [reflexivity|].
  unfold bind at 1. change IDLE_FRAME_SIZE with WALK_FRAME_SIZE.
  change IDLE_FRAMES_PER_DIR with WALK_FRAMES_PER_DIR. rewrite Eidle.
  destruct (refuses d (idle_sheet prefix)) as [e|]; [reflexivity|].
  unfold bind, SpritesOS.print, ret. cbn [entries refuses console d1 d0].
  reflexivity.
Qed.

(** ** The sheets *)


(** X21. A sheet is the grid of its frames: when every sprite that is
    present opens and loads, and the operating system takes the sheet,
    [create_spritesheet] writes a sheet in which cell (row, column) shows,
    for each of the eight rows and each of the eight columns, the frame of
    the direction of that row, the loaded sprite or the empty frame; so
    all columns of a row are the same. *)
Theorem X21_sheet_is_grid_of_frames (prefix output_name : string) (d : Disk) :
  sprites_open d prefix ->
  refuses d (OUTPUT_DIR ++ "/" ++ output_name) = None ->
  exists d' sheet,
    SpritesOS.create_spritesheet lanczos alpha_over prefix output_name
      WALK_FRAME_SIZE WALK_FRAMES_PER_DIR d
    = Ok (OUTPUT_DIR ++ "/" ++ output_name, d')
    /\ entries d' (OUTPUT_DIR ++ "/" ++ output_name) = Some (Picture sheet)
    /\ (forall row dir col,
          In (row, dir) (enumerate DIRECTIONS) -> 0 <= col < 8 ->
          cell_shows sheet row col
            (frame_for lanczos alpha_over (world_of d) prefix dir))
    /\ (forall row col, 0 <= row < 8 -> 0 <= col < 8 ->
          forall a b, 0 <= a < 32 -> 0 <= b < 40 ->
            getpixel sheet (32 * col + a) (40 * row + b)
            = getpixel sheet a (40 * row + b)).
Proof.
  intros Hopen Hacc.
  destruct (create_spritesheet_run prefix output_name d Hopen)
    as (sheet & Hsize & Hcells & E).
  rewrite Hacc in E. eexists. exists sheet. split; [exact E|].
  split; [cbn [entries]; rewrite String.eqb_refl; reflexivity|].
  split; [exact Hcells|].
  intros row col Hrow Hcol a b Ha Hb.
  destruct (all_rows_present (40 * row) ltac:(lia)) as (row' & dir & Hin & Hband).
  assert (row' = row) by lia. subst row'.
  rewrite (Hcells row dir col Hin Hcol a b Ha Hb).
  pose proof (Hcells row dir 0 Hin ltac:(lia) a b Ha Hb) as H0.
  replace (32 * 0 + a) with a in H0 by lia. rewrite H0. reflexivity.
Qed.




End Sheets.

(** ** Concrete runs *)


(* The directory of the examples below: a 64 by 80 south sprite and
   nothing else, in a directory that can be written. *)
Ltac south_open :=
  let dir := fresh "dir" in let e := fresh "e" in
  let Hdir := fresh "Hdir" in let He := fresh "He" in
  intros dir e Hdir He; cbn in Hdir;
  destruct Hdir as [<-|[<-|[<-|[<-|[<-|[<-|[<-|[<-|[]]]]]]]]];
    vm_compute in He; try discriminate He;
  injection He as <-; exists double_size;
  split; [reflexivity|];
  split; [unfold double_size, MAX_IMAGE_PIXELS; cbn [width height]; lia
         | vm_compute; reflexivity].


Lemma X21_sheet_is_grid_of_frames_witness :
  (sprites_open (south_only (Picture double_size) writable) "test"
   /\ refuses (south_only (Picture double_size) writable)
        (OUTPUT_DIR ++ "/" ++ "test_walk.png") = None)
  /\ exists d' sheet,
      SpritesOS.create_spritesheet nearest src_over "test" "test_walk.png"
        WALK_FRAME_SIZE WALK_FRAMES_PER_DIR
        (south_only (Picture double_size) writable)
      = Ok (OUTPUT_DIR ++ "/" ++ "test_walk.png", d')
      /\ entries d' (OUTPUT_DIR ++ "/" ++ "test_walk.png")
         = Some (Picture sheet)
      /\ (forall row dir col,
            In (row, dir) (enumerate DIRECTIONS) -> 0 <= col < 8 ->
            cell_shows sheet row col
              (frame_for nearest src_over
                 (world_of (south_only (Picture double_size) writable))
                 "test" dir))
      /\ (forall row col, 0 <= row < 8 -> 0 <= col < 8 ->
            forall a b, 0 <= a < 32 -> 0 <= b < 40 ->
              getpixel sheet (32 * col + a) (40 * row + b)
              = getpixel sheet a (40 * row + b)).
Proof.
  assert (Hopen : sprites_open (south_only (Picture double_size) writable)
                    "test") by south_open.
  split; [split; [exact Hopen | reflexivity]|].
  apply (X21_sheet_is_grid_of_frames nearest src_over "test" "test_walk.png"
           (south_only (Picture double_size) writable) Hopen eq_refl).
Defined.




End SpritesOSProps.
